(** * TechMart customer analytics: RFM, CLV, churn, recommendations, cache

    A shallow embedding of the analytics services of the TechMart backend
    (rfmService, clvService, churnService, recommendationEngine and
    cacheService) together with the properties their specification states.

    Conventions of the embedding
    - The relational store is a record of tables; every table is the list of
      its rows in storage order.  A query is a function of the store.
    - Instants ([Date], [Date.now()]) are integers: milliseconds since the
      epoch.  Every function that reads the clock takes [now] as an argument.
    - Money and every other JavaScript number that is not an integer by
      construction is an exact rational ([Q]); DECIMAL columns hold exact
      decimals, and the embedding does not model binary rounding.
    - A rejected promise is the [Err] case of [result]. *)

From Stdlib Require Import ZArith QArith Qround List Bool Lia Permutation Sorted.
From stdpp Require Import gmap strings pretty.
Import ListNotations.

Open Scope Z_scope.

(** ** Results of fallible operations *)

Inductive Error : Type :=
| NotFound            (* 'Customer not found', 'Product not found' *)
| Invalid             (* a request the checks refuse *)
| Upstream.           (* a data-store operation rejected *)

Inductive result (A : Type) : Type :=
| Ok (a : A)
| Err (e : Error).
Arguments Ok {A} a.
Arguments Err {A} e.

(** ** Numbers *)

Definition Qltb (a b : Q) : bool := negb (Qle_bool b a).

(** [Math.max] and [Math.min] on two numbers. *)
Definition maxQ (a b : Q) : Q := if Qle_bool a b then b else a.
Definition minQ (a b : Q) : Q := if Qle_bool a b then a else b.

(** [parseFloat(x.toFixed(2))]: the nearest multiple of 1/100; [toFixed]
    rounds the absolute value, the larger one on a tie, and puts the sign
    back. *)
Definition toFixed2 (x : Q) : Q :=
  if Qltb x 0 then (- Qmake (Qfloor (- x * 100 + (1 # 2))) 100)%Q
  else Qmake (Qfloor (x * 100 + (1 # 2))%Q) 100.

Definition MS_PER_DAY : Z := 1000 * 60 * 60 * 24.

(** [Math.floor((a - b) / (1000 * 60 * 60 * 24))] on two instants. *)
Definition daysBetween (a b : Z) : Z := (a - b) / MS_PER_DAY.

(** ** Stable sorting, as [ORDER BY] and [Array.prototype.sort] are used

    [before x y] says that [x] may stay in front of [y].  Rows that compare
    equal keep their relative order. *)

Fixpoint insertBy {A : Type} (before : A -> A -> bool) (x : A) (l : list A)
  : list A :=
  match l with
  | [] => [x]
  | y :: l' => if before x y then x :: l else y :: insertBy before x l'
  end.

Definition sortBy {A : Type} (before : A -> A -> bool) (l : list A) : list A :=
  fold_right (insertBy before) [] l.

(** [[...new Set(l)]]: first occurrences, in order. *)
Fixpoint uniqueStrings (seen l : list string) : list string :=
  match l with
  | [] => []
  | x :: l' =>
      if existsb (String.eqb x) seen then uniqueStrings seen l'
      else x :: uniqueStrings (x :: seen) l'
  end.

(** ** Data model *)

Inductive TxStatus : Type := pending | completed | failed | refunded.

Definition isCompleted (s : TxStatus) : bool :=
  match s with completed => true | _ => false end.
Definition isFailed (s : TxStatus) : bool :=
  match s with failed => true | _ => false end.

Record Transaction : Type := {
  tx_id : Z;
  tx_customer_id : Z;
  tx_product_id : Z;
  tx_quantity : Z;
  tx_total_amount : Q;
  tx_status : TxStatus;
  tx_timestamp : Z
}.

Record Customer : Type := {
  cust_id : Z;
  cust_total_spent : Q;
  cust_loyalty_tier : option string
}.

Record Product : Type := {
  prod_id : Z;
  prod_price : Q;
  prod_stock_quantity : Z
}.

(** One row of customer_analytics (the columns the services read or write). *)
Record CustomerAnalytics : Type := {
  ca_customer_id : Z;
  ca_recency_score : Z;
  ca_frequency_score : Z;
  ca_monetary_score : Z;
  ca_rfm_score : Z;
  ca_rfm_segment : option string;
  ca_recency_days : option Z;
  ca_frequency_count : option Z;
  ca_monetary_value : option Q;
  ca_clv_predicted : Q;
  ca_clv_confidence : option Z;
  ca_last_calculated : option Z
}.

(** One row of product_recommendations. *)
Record ProductRecommendation : Type := {
  pr_customer_id : Z;
  pr_product_id : Z;
  pr_recommendation_score : Q;
  pr_recommendation_type : string;
  pr_reason : string;
  pr_generated_at : Z;
  pr_expires_at : Z
}.

Record Database : Type := {
  customers : list Customer;
  products : list Product;
  transactions : list Transaction;
  customer_analytics : list CustomerAnalytics;
  product_recommendations : list ProductRecommendation
}.

(** ** Queries shared by the scorers *)

(** [Customer.findByPk(id)] *)
Definition findCustomerByPk (db : Database) (id : Z) : option Customer :=
  List.find (fun c => cust_id c =? id) (customers db).

(** [Product.findByPk(id)] *)
Definition findProductByPk (db : Database) (id : Z) : option Product :=
  List.find (fun p => prod_id p =? id) (products db).

(** [Transaction.findAll({ where: { customer_id, status: 'completed' } })] *)
Definition completedTransactions (db : Database) (customerId : Z)
  : list Transaction :=
  List.filter
    (fun t => (tx_customer_id t =? customerId) && isCompleted (tx_status t))
    (transactions db).

(** The same query with [order: [['timestamp', 'DESC']]]. *)
Definition completedTransactionsDesc (db : Database) (customerId : Z)
  : list Transaction :=
  sortBy (fun a b => tx_timestamp b <=? tx_timestamp a)
         (completedTransactions db customerId).

(** The same query with [order: [['timestamp', 'ASC']]]. *)
Definition completedTransactionsAsc (db : Database) (customerId : Z)
  : list Transaction :=
  sortBy (fun a b => tx_timestamp a <=? tx_timestamp b)
         (completedTransactions db customerId).

(** [l.reduce((sum, t) => sum + parseFloat(t.total_amount), 0)] *)
Definition sumAmounts (l : list Transaction) : Q :=
  fold_left (fun sum t => sum + tx_total_amount t)%Q l 0%Q.

Definition len {A : Type} (l : list A) : Z := Z.of_nat (length l).

(** ** RFM analysis service *)

Module RFM.

Record Analysis : Type := {
  customer_id : Z;
  recency_days : Z;
  recency_score : Z;
  frequency_count : Z;
  frequency_score : Z;
  monetary_value : Q;
  monetary_score : Z;
  rfm_score : Z;
  rfm_segment : string
}.

Definition calculateRecencyScore (days : Z) : Z :=
  if days <=? 30 then 5
  else if days <=? 60 then 4
  else if days <=? 90 then 3
  else if days <=? 180 then 2
  else 1.

Definition calculateFrequencyScore (count : Z) : Z :=
  if count >=? 20 then 5
  else if count >=? 10 then 4
  else if count >=? 5 then 3
  else if count >=? 2 then 2
  else 1.

Definition calculateMonetaryScore (amount : Q) : Z :=
  if Qle_bool 10000 amount then 5
  else if Qle_bool 5000 amount then 4
  else if Qle_bool 2000 amount then 3
  else if Qle_bool 500 amount then 2
  else 1.

Definition determineSegment (rfmScore r f m : Z) : string :=
  if (rfmScore >=? 13) && (r >=? 4) && (f >=? 4) && (m >=? 4) then "Champions"
  else if (rfmScore >=? 10) && (f >=? 3) && (m >=? 3) then "Loyal"
  else if (rfmScore >=? 8) && (r <=? 2) && ((f >=? 3) || (m >=? 3))
  then "At Risk"
  else if (rfmScore <=? 7) || (r =? 1) then "Lost"
  else "Potential".

Definition calculateCustomerRFM (db : Database) (now : Z) (customerId : Z)
  : result Analysis :=
  match findCustomerByPk db customerId with
  | None => Err NotFound
  | Some _ =>
      match completedTransactionsDesc db customerId with
      | [] =>
          Ok {| customer_id := customerId;
                recency_days := 9999;
                recency_score := 1;
                frequency_count := 0;
                frequency_score := 1;
                monetary_value := 0;
                monetary_score := 1;
                rfm_score := 3;
                rfm_segment := "Lost" |}
      | (t0 :: _) as txs =>
          let recencyDays := daysBetween now (tx_timestamp t0) in
          let frequencyCount := len txs in
          let monetaryValue := sumAmounts txs in
          let recencyScore := calculateRecencyScore recencyDays in
          let frequencyScore := calculateFrequencyScore frequencyCount in
          let monetaryScore := calculateMonetaryScore monetaryValue in
          let rfmScore := recencyScore + frequencyScore + monetaryScore in
          let rfmSegment :=
            determineSegment rfmScore recencyScore frequencyScore monetaryScore in
          Ok {| customer_id := customerId;
                recency_days := recencyDays;
                recency_score := recencyScore;
                frequency_count := frequencyCount;
                frequency_score := frequencyScore;
                monetary_value := toFixed2 monetaryValue;
                monetary_score := monetaryScore;
                rfm_score := rfmScore;
                rfm_segment := rfmSegment |}
      end
  end.

End RFM.

(** ** CLV prediction service *)

Module CLV.

Record Metrics : Type := {
  average_order_value : Q;
  purchase_frequency : Q;
  customer_lifespan_months : Q;
  predicted_lifespan_months : option Z;
  total_spent : Q;
  total_orders : Z;
  days_since_last_purchase : option Z
}.

Record Prediction : Type := {
  customer_id : Z;
  clv_predicted : Q;
  clv_confidence : Z;
  clv_multiplier : option Q;
  metrics : Metrics
}.

Definition calculateCLVConfidence
  (totalOrders : Z) (lifespanMonths : Q) (daysSinceLastPurchase : Z) : Z :=
  let confidence := 50 in
  let confidence :=
    if totalOrders >=? 10 then confidence + 25
    else if totalOrders >=? 5 then confidence + 15
    else if totalOrders >=? 3 then confidence + 5
    else confidence in
  let confidence :=
    if Qle_bool 12 lifespanMonths then confidence + 15
    else if Qle_bool 6 lifespanMonths then confidence + 10
    else if Qle_bool 3 lifespanMonths then confidence + 5
    else confidence in
  let confidence :=
    if daysSinceLastPurchase <=? 30 then confidence + 10
    else if daysSinceLastPurchase <=? 60 then confidence + 5
    else if daysSinceLastPurchase >? 180 then confidence - 15
    else confidence in
  Z.max 0 (Z.min 100 confidence).

(** [transactions.slice(-3)] and [transactions.slice(0, -3)] *)
Definition lastThree {A : Type} (l : list A) : list A :=
  skipn (length l - 3) l.
Definition allButLastThree {A : Type} (l : list A) : list A :=
  firstn (length l - 3) l.

(** The penalty for declining activity: [-0.2] when the mean of the last three
    orders is below 70% of the mean of the earlier ones. *)
Definition decliningPenalty (txs : list Transaction) : Q :=
  if len txs >=? 3 then
    let recentOrders := lastThree txs in
    let olderOrders := allButLastThree txs in
    if len olderOrders >? 0 then
      let recentAvg := (sumAmounts recentOrders / inject_Z (len recentOrders))%Q in
      let olderAvg := (sumAmounts olderOrders / inject_Z (len olderOrders))%Q in
      if Qltb recentAvg (olderAvg * (7 # 10)) then (2 # 10)%Q else 0%Q
    else 0%Q
  else 0%Q.

Definition calculateCustomerCLV (db : Database) (now : Z) (customerId : Z)
  : result Prediction :=
  match findCustomerByPk db customerId with
  | None => Err NotFound
  | Some _ =>
      match completedTransactionsAsc db customerId with
      | [] =>
          Ok {| customer_id := customerId;
                clv_predicted := 0;
                clv_confidence := 0;
                clv_multiplier := None;
                metrics := {| average_order_value := 0;
                              purchase_frequency := 0;
                              customer_lifespan_months := 0;
                              predicted_lifespan_months := None;
                              total_spent := 0;
                              total_orders := 0;
                              days_since_last_purchase := None |} |}
      | (tFirst :: _) as txs =>
          let totalSpent := sumAmounts txs in
          let totalOrders := len txs in
          let averageOrderValue := (totalSpent / inject_Z totalOrders)%Q in
          let firstPurchase := tx_timestamp tFirst in
          let lastPurchase := tx_timestamp (List.last txs tFirst) in
          let lifespanDays := Z.max 1 (daysBetween lastPurchase firstPurchase) in
          let lifespanMonths := maxQ 1 (inject_Z lifespanDays / 30) in
          let purchaseFrequency := (inject_Z totalOrders / lifespanMonths)%Q in
          let predictedLifespanMonths := 24 in
          let basicCLV :=
            (averageOrderValue * purchaseFrequency
             * inject_Z predictedLifespanMonths)%Q in
          let clvMultiplier := 1%Q in
          let daysSinceLastPurchase := daysBetween now lastPurchase in
          let clvMultiplier :=
            if daysSinceLastPurchase <=? 30 then (clvMultiplier + (3 # 10))%Q
            else if daysSinceLastPurchase <=? 60
                 then (clvMultiplier + (15 # 100))%Q
                 else clvMultiplier in
          let clvMultiplier :=
            if Qle_bool 2 purchaseFrequency then (clvMultiplier + (25 # 100))%Q
            else if Qle_bool 1 purchaseFrequency
                 then (clvMultiplier + (15 # 100))%Q
                 else clvMultiplier in
          let clvMultiplier := (clvMultiplier - decliningPenalty txs)%Q in
          let clvMultiplier := maxQ (1 # 2) (minQ 2 clvMultiplier) in
          let clvPredicted := (basicCLV * clvMultiplier)%Q in
          let confidenceScore :=
            calculateCLVConfidence totalOrders lifespanMonths
                                   daysSinceLastPurchase in
          Ok {| customer_id := customerId;
                clv_predicted := toFixed2 clvPredicted;
                clv_confidence := confidenceScore;
                clv_multiplier := Some (toFixed2 clvMultiplier);
                metrics :=
                  {| average_order_value := toFixed2 averageOrderValue;
                     purchase_frequency := toFixed2 purchaseFrequency;
                     customer_lifespan_months := toFixed2 lifespanMonths;
                     predicted_lifespan_months := Some predictedLifespanMonths;
                     total_spent := toFixed2 totalSpent;
                     total_orders := totalOrders;
                     days_since_last_purchase := Some daysSinceLastPurchase |} |}
      end
  end.

End CLV.

(** ** Churn risk service *)

Module Churn.

Record Risk : Type := {
  customer_id : Z;
  churn_risk_score : Z;
  churn_risk_level : string;
  churn_indicators : list string;
  prevention_strategies : list string;
  days_since_last_purchase : option Z;
  total_transactions : option Z
}.

(** The three accumulators of [calculateChurnRisk]. *)
Record Acc : Type := {
  churnScore : Z;
  indicators : list string;
  preventionStrategies : list string
}.

Definition bump (a : Acc) (delta : Z) (indicator : string)
  (strategies : list string) : Acc :=
  {| churnScore := churnScore a + delta;
     indicators := indicators a ++ [indicator];
     preventionStrategies := preventionStrategies a ++ strategies |}.

(** [calculatePurchaseFrequency]: purchases per 30 days over a newest-first
    list. *)
Definition calculatePurchaseFrequency (txs : list Transaction) : Q :=
  match txs with
  | [] => 0%Q
  | tNewest :: _ =>
      if len txs <? 2 then 0%Q
      else
        let firstDate := tx_timestamp (List.last txs tNewest) in
        let lastDate := tx_timestamp tNewest in
        let monthsDiff :=
          maxQ 1 (inject_Z (lastDate - firstDate) / inject_Z (MS_PER_DAY * 30)) in
        (inject_Z (len txs) / monthsDiff)%Q
  end.

(** [Transaction.count] of the customer's failed transactions of the last 90
    days. *)
Definition failedTransactionsLast90Days (db : Database) (now : Z)
  (customerId : Z) : Z :=
  len (List.filter
         (fun t => (tx_customer_id t =? customerId)
                   && isFailed (tx_status t)
                   && (now - 90 * MS_PER_DAY <=? tx_timestamp t))
         (transactions db)).

(** Factor 1: recency. *)
Definition recencyFactor (daysSinceLastPurchase : Z) (a : Acc) : Acc :=
  if daysSinceLastPurchase >? 180 then
    bump a 40 "no_purchase_6_months" ["win_back_campaign"; "exclusive_discount"]
  else if daysSinceLastPurchase >? 90 then
    bump a 30 "no_purchase_3_months" ["re_engagement_email"; "special_offer"]
  else if daysSinceLastPurchase >? 60 then
    bump a 15 "declining_activity" ["reminder_email"; "loyalty_reward"]
  else a.

Definition half {A : Type} (l : list A) : nat := Z.to_nat (len l / 2).

(** Factor 2: purchase frequency decline, newer half against older half. *)
Definition frequencyFactor (txs : list Transaction) (a : Acc) : Acc :=
  if len txs >=? 4 then
    let recentTransactions := firstn (half txs) txs in
    let olderTransactions := skipn (half txs) txs in
    let recentFrequency := calculatePurchaseFrequency recentTransactions in
    let olderFrequency := calculatePurchaseFrequency olderTransactions in
    if Qltb recentFrequency (olderFrequency * (5 # 10)) then
      bump a 25 "frequency_decline_50%" ["personalized_recommendations"]
    else if Qltb recentFrequency (olderFrequency * (7 # 10)) then
      bump a 15 "frequency_decline_30%" []
    else a
  else a.

(** Factor 3: spending decline over the same halves. *)
Definition spendingFactor (txs : list Transaction) (a : Acc) : Acc :=
  if len txs >=? 4 then
    let recentSpend :=
      (sumAmounts (firstn (half txs) txs) / inject_Z (len txs / 2))%Q in
    let olderSpend :=
      (sumAmounts (skipn (half txs) txs) / inject_Z ((len txs + 1) / 2))%Q in
    if Qltb recentSpend (olderSpend * (6 # 10)) then
      bump a 20 "spending_decline_40%" ["vip_incentive"; "bundle_discount"]
    else if Qltb recentSpend (olderSpend * (8 # 10)) then
      bump a 10 "spending_decline_20%" []
    else a
  else a.

(** Factor 4: failed transactions. *)
Definition failedFactor (failedTransactions : Z) (a : Acc) : Acc :=
  if failedTransactions >=? 3 then
    bump a 15 "multiple_failed_transactions"
         ["payment_assistance"; "customer_support_outreach"]
  else if failedTransactions >=? 1 then
    bump a 5 "failed_transaction" []
  else a.

(** Factor 5: the last order against the average order. *)
Definition orderValueFactor (txs : list Transaction) (a : Acc) : Acc :=
  match txs with
  | [] => a
  | tNewest :: _ =>
      if len txs >=? 3 then
        let avgAmount := (sumAmounts txs / inject_Z (len txs))%Q in
        let lastAmount := tx_total_amount tNewest in
        if Qltb lastAmount (avgAmount * (5 # 10)) then
          bump a 10 "low_value_last_order" []
        else a
      else a
  end.

(** Factor 6: [customer.loyalty_tier === 'Bronze' || !customer.loyalty_tier] *)
Definition lowLoyaltyTier (tier : option string) : bool :=
  match tier with
  | None => true
  | Some s => String.eqb s "Bronze" || String.eqb s ""
  end.

Definition loyaltyFactor (customer : Customer) (a : Acc) : Acc :=
  if lowLoyaltyTier (cust_loyalty_tier customer) then
    bump a 10 "low_loyalty_tier" ["loyalty_upgrade_offer"]
  else a.

Definition riskLevel (churnScore : Z) : string :=
  if churnScore >=? 70 then "critical"
  else if churnScore >=? 50 then "high"
  else if churnScore >=? 30 then "medium"
  else "low".

Definition calculateChurnRisk (db : Database) (now : Z) (customerId : Z)
  : result Risk :=
  match findCustomerByPk db customerId with
  | None => Err NotFound
  | Some customer =>
      match completedTransactionsDesc db customerId with
      | [] =>
          Ok {| customer_id := customerId;
                churn_risk_score := 100;
                churn_risk_level := "critical";
                churn_indicators := ["no_purchase_history"];
                prevention_strategies :=
                  ["welcome_campaign"; "first_purchase_incentive"];
                days_since_last_purchase := None;
                total_transactions := None |}
      | (tNewest :: _) as allTransactions =>
          let a := {| churnScore := 0; indicators := [];
                      preventionStrategies := [] |} in
          let daysSinceLastPurchase := daysBetween now (tx_timestamp tNewest) in
          let a := recencyFactor daysSinceLastPurchase a in
          let a := frequencyFactor allTransactions a in
          let a := spendingFactor allTransactions a in
          let a := failedFactor (failedTransactionsLast90Days db now customerId) a in
          let a := orderValueFactor allTransactions a in
          let a := loyaltyFactor customer a in
          let churnScore := Z.min 100 (churnScore a) in
          let strategies :=
            match indicators a with
            | [] => preventionStrategies a ++ ["maintain_engagement"]
            | _ => preventionStrategies a
            end in
          Ok {| customer_id := customerId;
                churn_risk_score := churnScore;
                churn_risk_level := riskLevel churnScore;
                churn_indicators := indicators a;
                prevention_strategies := uniqueStrings [] strategies;
                days_since_last_purchase := Some daysSinceLastPurchase;
                total_transactions := Some (len allTransactions) |}
      end
  end.

End Churn.

(** ** Cache service: a fast in-process tier in front of a durable tier *)

Module CacheService.

Section WithValue.

(** The cached payloads; the service never inspects them. *)
Context {V : Type}.

(** *** Fast tier

    Modelled from the spec: the fast tier is an instance of the node-cache
    package, a dependency that is not part of the repository's sources.  It
    is a key/value store with per-key expiry: an entry carries the instant
    [mem_t] after which it is gone, and a read of an entry past that instant
    removes it and yields nothing.  The package reads a TTL of 0 seconds as
    "no expiry" and records it as [mem_t = 0].  A TTL is a number of seconds
    and need not be whole. *)

Record MemEntry : Type := { mem_v : V; mem_t : Q }.

Definition expired (now : Z) (e : MemEntry) : bool :=
  negb (Qeq_bool (mem_t e) 0) && Qltb (mem_t e) (inject_Z now).

(** [memoryCache.get(key)] *)
Definition memGet (now : Z) (key : string) (m : gmap string MemEntry)
  : option V * gmap string MemEntry :=
  match m !! key with
  | None => (None, m)
  | Some e => if expired now e then (None, delete key m) else (Some (mem_v e), m)
  end.

(** [memoryCache.set(key, value, ttl)], [ttl] in seconds *)
Definition memSet (now : Z) (key : string) (value : V) (ttl : Q)
  (m : gmap string MemEntry) : gmap string MemEntry :=
  <[key := {| mem_v := value;
              mem_t := if Qeq_bool ttl 0 then 0%Q
                       else (inject_Z now + ttl * 1000)%Q |}]> m.

(** *** Durable tier: the analytics_cache table, unique on [cache_key] *)

Record AnalyticsCache : Type := {
  cache_value : V;
  cache_type : string;
  expires_at : Z
}.

Record Cache : Type := {
  memoryCache : gmap string MemEntry;
  analyticsCache : gmap string AnalyticsCache
}.

Definition empty : Cache := {| memoryCache := ∅; analyticsCache := ∅ |}.

(** *** Operations

    [dbOk] tells whether the operation's access to the durable tier succeeds;
    a rejection is caught inside the operation. *)

Definition get (dbOk : bool) (now : Z) (key : string) (c : Cache)
  : option V * Cache :=
  match memGet now key (memoryCache c) with
  | (Some memValue, m) =>
      (Some memValue, {| memoryCache := m; analyticsCache := analyticsCache c |})
  | (None, m) =>
      let miss := (None, {| memoryCache := m;
                            analyticsCache := analyticsCache c |}) in
      if dbOk then
        match analyticsCache c !! key with
        | Some dbCache =>
            if now <=? expires_at dbCache then
              let ttl := (expires_at dbCache - now) / 1000 in
              (Some (cache_value dbCache),
               {| memoryCache :=
                    memSet now key (cache_value dbCache) (inject_Z ttl) m;
                  analyticsCache := analyticsCache c |})
            else miss
        | None => miss
        end
      else miss
  end.

(** [new Date(ms)] keeps the whole milliseconds of a non-negative [ms]. *)
Definition dateOf (ms : Q) : Z := Qfloor ms.

Definition set (dbOk : bool) (now : Z) (key : string) (value : V)
  (ttlHours : Q) (cacheType : string) (c : Cache) : bool * Cache :=
  let ttlSeconds := (ttlHours * 3600)%Q in
  let expiresAt := dateOf (inject_Z now + ttlHours * 3600 * 1000) in
  let m := memSet now key value ttlSeconds (memoryCache c) in
  if dbOk then
    (true,
     {| memoryCache := m;
        analyticsCache :=
          <[key := {| cache_value := value;
                      cache_type := cacheType;
                      expires_at := expiresAt |}]> (analyticsCache c) |})
  else (false, {| memoryCache := m; analyticsCache := analyticsCache c |}).

Definition del (dbOk : bool) (key : string) (c : Cache) : bool * Cache :=
  let m := delete key (memoryCache c) in
  if dbOk then
    (true, {| memoryCache := m; analyticsCache := delete key (analyticsCache c) |})
  else (false, {| memoryCache := m; analyticsCache := analyticsCache c |}).

(** [clear(cacheType)]: the fast tier is flushed whole, the durable tier by
    type when one is given; an empty type tests false as a missing one does. *)
Definition clear (dbOk : bool) (cacheType : option string) (c : Cache)
  : bool * Cache :=
  if dbOk then
    (true,
     {| memoryCache := ∅;
        analyticsCache :=
          match cacheType with
          | Some ty =>
              if String.eqb ty "" then ∅
              else filter (fun kv => cache_type (snd kv) ≠ ty)
                          (analyticsCache c)
          | None => ∅
          end |})
  else (false, {| memoryCache := ∅; analyticsCache := analyticsCache c |}).

(** [getOrSet(key, computeFn, ttlHours, cacheType)]; [computeFn] has run to
    [computed] when it is needed. *)
Definition getOrSet (getOk setOk : bool) (now : Z) (key : string)
  (computed : result V) (ttlHours : Q) (cacheType : string) (c : Cache)
  : result V * Cache :=
  match get getOk now key c with
  | (Some value, c1) => (Ok value, c1)
  | (None, c1) =>
      match computed with
      | Err e => (Err e, c1)
      | Ok value =>
          (Ok value, snd (set setOk now key value ttlHours cacheType c1))
      end
  end.

End WithValue.

Arguments MemEntry : clear implicits.
Arguments AnalyticsCache : clear implicits.
Arguments Cache : clear implicits.

(** [`customer:${customerId}:${type}`] *)
Definition generateCustomerKey (customerId : Z) (type : string) : string :=
  "customer:" +:+ pretty customerId +:+ ":" +:+ type.

Definition invalidateCustomerCache {V : Type} (dbOk : bool) (customerId : Z)
  (c : Cache V) : Cache V :=
  fold_left (fun c key => snd (del dbOk key c))
    [generateCustomerKey customerId "rfm";
     generateCustomerKey customerId "clv";
     generateCustomerKey customerId "churn";
     generateCustomerKey customerId "recommendations";
     generateCustomerKey customerId "complete"]
    c.

End CacheService.

(** ** Recommendation engine *)

Module Recommend.

(** A candidate as one sub-algorithm returns it. *)
Record Scored : Type := {
  product : Product;
  score : Q;
  type : string;
  reason : string
}.

(** An entry of [combineRecommendations]' result. *)
Record Combined : Type := {
  c_product : Product;
  recommendation_score : Q;
  recommendation_types : list string;
  reasons : list string
}.

(** An entry read back from product_recommendations; the joined product is
    absent when the row's product is gone. *)
Record Persisted : Type := {
  p_product : option Product;
  p_recommendation_score : Q;
  recommendation_type : string;
  p_reason : string
}.

(** What [generatePersonalizedRecommendations] returns is an array of either
    shape. *)
Inductive Recommendation : Type :=
| FromCombine (r : Combined)
| FromRows (r : Persisted).

Definition recommendedProduct (r : Recommendation) : option Product :=
  match r with
  | FromCombine c => Some (c_product c)
  | FromRows p => p_product p
  end.

(** The store and the cache as the engine sees them.  The fast tier keeps the
    very array it is given (the service is configured not to clone), but no
    entry is changed once it is built and the order flow reads its products
    afresh, so a cached array is a snapshot of the instant it was built. *)
Record State : Type := {
  db : Database;
  cache : CacheService.Cache (list Recommendation)
}.

Definition memberZ (x : Z) (l : list Z) : bool := existsb (Z.eqb x) l.

(** [arr.slice(0, limit)] *)
Definition slice0 {A : Type} (limit : Z) (l : list A) : list A :=
  if limit <? 0 then firstn (Z.to_nat (len l + limit)) l
  else firstn (Z.to_nat limit) l.

(** *** The aggregate queries *)

(** [GROUP BY product_id] with [COUNT(product_id)]: one group per product, in
    order of first appearance. *)
Fixpoint bumpCount (pid : Z) (groups : list (Z * Z)) : list (Z * Z) :=
  match groups with
  | [] => [(pid, 1)]
  | (p, n) :: groups' =>
      if p =? pid then (p, n + 1) :: groups'
      else (p, n) :: bumpCount pid groups'
  end.

Definition countByProduct (rows : list Transaction) : list (Z * Z) :=
  fold_left (fun groups t => bumpCount (tx_product_id t) groups) rows [].

(** [ORDER BY count DESC LIMIT limit]; the store rejects a negative limit.
    The order among groups of equal count is the store's choice; here they
    keep the order of first appearance. *)
Definition topByCount (limit : Z) (groups : list (Z * Z))
  : option (list (Z * Z)) :=
  if limit <? 0 then None
  else Some (firstn (Z.to_nat limit)
                    (sortBy (fun a b => snd b <=? snd a) groups)).

(** [Product.findAll({ where: { id: { [Op.in]: productIds },
                                stock_quantity: { [Op.gt]: 0 } } })] *)
Definition inStockProducts (db : Database) (productIds : list Z)
  : list Product :=
  List.filter
    (fun p => memberZ (prod_id p) productIds && (0 <? prod_stock_quantity p))
    (products db).

Fixpoint traverse {A B : Type} (f : A -> option B) (l : list A)
  : option (list B) :=
  match l with
  | [] => Some []
  | x :: l' =>
      match f x, traverse f l' with
      | Some y, Some ys => Some (y :: ys)
      | _, _ => None
      end
  end.

(** [products.map(product => ...)]: each product with the count of its group,
    [parseFloat(count) || 1]. *)
Definition scoreProducts (counts : list (Z * Z)) (ty why : string)
  (ps : list Product) : option (list Scored) :=
  traverse
    (fun p =>
       match List.find (fun g => fst g =? prod_id p) counts with
       | Some g =>
           Some {| product := p;
                   score := if snd g =? 0 then 1%Q else inject_Z (snd g);
                   type := ty;
                   reason := why |}
       | None => None
       end)
    ps.

(** The common tail of the three sub-algorithms; any rejection or exception is
    caught and yields no candidates. *)
Definition rankCandidates (db : Database) (rows : list Transaction)
  (limit : Z) (ty why : string) : list Scored :=
  match topByCount limit (countByProduct rows) with
  | None => []
  | Some top =>
      match scoreProducts top ty why (inStockProducts db (List.map fst top)) with
      | Some recs => recs
      | None => []
      end
  end.

(** *** Product affinity *)

(** The sub-select: the customers with a completed transaction on one of
    [purchasedProductIds]. *)
Definition boughtAnyOf (db : Database) (purchasedProductIds : list Z)
  (customerId : Z) : bool :=
  existsb
    (fun t => (tx_customer_id t =? customerId)
              && memberZ (tx_product_id t) purchasedProductIds
              && isCompleted (tx_status t))
    (transactions db).

Definition affinityRows (db : Database) (purchasedProductIds : list Z)
  : list Transaction :=
  List.filter
    (fun t => isCompleted (tx_status t)
              && boughtAnyOf db purchasedProductIds (tx_customer_id t)
              && negb (memberZ (tx_product_id t) purchasedProductIds))
    (transactions db).

Definition getProductAffinityRecommendations (db : Database)
  (purchasedProductIds : list Z) (limit : Z) : list Scored :=
  match purchasedProductIds with
  | [] => []
  | _ =>
      rankCandidates db (affinityRows db purchasedProductIds) limit
        "affinity" "Frequently bought together with your previous purchases"
  end.

(** *** Collaborative filtering and segment popularity *)

(** [CustomerAnalytics.findOne({ where: { customer_id } })]: the first of the
    customer's rows in storage order. *)
Definition findAnalytics (db : Database) (customerId : Z)
  : option CustomerAnalytics :=
  List.find (fun a => ca_customer_id a =? customerId) (customer_analytics db).

Definition sameSegment (a b : option string) : bool :=
  match a, b with
  | Some x, Some y => String.eqb x y
  | None, None => true
  | _, _ => false
  end.

(** [!analytics.rfm_segment] *)
Definition noSegment (s : option string) : bool :=
  match s with
  | None => true
  | Some x => String.eqb x ""
  end.

Definition cohortRows (db : Database) (customerIds purchasedProductIds : list Z)
  : list Transaction :=
  List.filter
    (fun t => memberZ (tx_customer_id t) customerIds
              && negb (memberZ (tx_product_id t) purchasedProductIds)
              && isCompleted (tx_status t))
    (transactions db).

Definition getCollaborativeFilteringRecommendations (db : Database)
  (customerId : Z) (purchasedProductIds : list Z) (limit : Z) : list Scored :=
  match findAnalytics db customerId with
  | None => []
  | Some analytics =>
      if noSegment (ca_rfm_segment analytics) then []
      else
        let similarCustomers :=
          firstn 50
            (List.filter
               (fun a => sameSegment (ca_rfm_segment a) (ca_rfm_segment analytics)
                         && negb (ca_customer_id a =? customerId))
               (customer_analytics db)) in
        let similarCustomerIds := List.map ca_customer_id similarCustomers in
        match similarCustomerIds with
        | [] => []
        | _ =>
            rankCandidates db
              (cohortRows db similarCustomerIds purchasedProductIds) limit
              "collaborative"
              ("Popular among " +:+ default "" (ca_rfm_segment analytics)
               +:+ " customers like you")
        end
  end.

(** The segment query also selects [SUM(total_amount)] per product, which
    the service does not use. *)
Definition getSegmentBasedRecommendations (db : Database)
  (customerId : Z) (purchasedProductIds : list Z) (limit : Z) : list Scored :=
  match findAnalytics db customerId with
  | None => []
  | Some analytics =>
      let segmentCustomers :=
        List.filter
          (fun a => sameSegment (ca_rfm_segment a) (ca_rfm_segment analytics))
          (customer_analytics db) in
      let segmentCustomerIds := List.map ca_customer_id segmentCustomers in
      rankCandidates db
        (cohortRows db segmentCustomerIds purchasedProductIds) limit
        "segment"
        ("Top choice for " +:+ default "null" (ca_rfm_segment analytics)
         +:+ " segment")
  end.

(** *** Combining *)

Record Weights : Type := { affinity : Q; collaborative : Q; segment : Q }.

Definition weights : Weights :=
  {| affinity := 4 # 10; collaborative := 3 # 10; segment := 3 # 10 |}.

(** [Math.max(...scores)] and [Math.min(...scores)] on a non-empty array. *)
Definition maxOf (scores : list Q) : Q :=
  match scores with
  | [] => 0%Q
  | s :: rest => fold_left maxQ rest s
  end.
Definition minOf (scores : list Q) : Q :=
  match scores with
  | [] => 0%Q
  | s :: rest => fold_left minQ rest s
  end.

Definition normalizeScore (s : Q) (allScores : list Scored) : Q :=
  match allScores with
  | [] => 0%Q
  | _ =>
      let scores := List.map score allScores in
      let maxScore := maxOf scores in
      let minScore := minOf scores in
      if Qeq_bool maxScore minScore then 1%Q
      else ((s - minScore) / (maxScore - minScore))%Q
  end.

(** A value of the [productScores] map. *)
Record Entry : Type := {
  e_product : Product;
  totalScore : Q;
  e_reasons : list string;
  e_types : list string
}.

(** The [Map] keyed by product id, in insertion order. *)
Fixpoint mapGet (key : Z) (m : list (Z * Entry)) : option Entry :=
  match m with
  | [] => None
  | (k, e) :: m' => if k =? key then Some e else mapGet key m'
  end.

Fixpoint mapSet (key : Z) (e : Entry) (m : list (Z * Entry))
  : list (Z * Entry) :=
  match m with
  | [] => [(key, e)]
  | (k, e0) :: m' =>
      if k =? key then (k, e) :: m' else (k, e0) :: mapSet key e m'
  end.

Definition freshEntry (rec : Scored) (contribution : Q) : Entry :=
  {| e_product := product rec;
     totalScore := contribution;
     e_reasons := [reason rec];
     e_types := [type rec] |}.

(** The body of the first [forEach]: the entry is set unconditionally. *)
Definition putFirst (source : list Scored) (w : Q)
  (m : list (Z * Entry)) (rec : Scored) : list (Z * Entry) :=
  let normalizedScore := normalizeScore (score rec) source in
  mapSet (prod_id (product rec)) (freshEntry rec (normalizedScore * w)) m.

(** The body of the second and third [forEach]: an existing entry is added
    to. *)
Definition accumulate (source : list Scored) (w : Q)
  (m : list (Z * Entry)) (rec : Scored) : list (Z * Entry) :=
  let key := prod_id (product rec) in
  let normalizedScore := normalizeScore (score rec) source in
  match mapGet key m with
  | Some existing =>
      mapSet key
        {| e_product := e_product existing;
           totalScore := (totalScore existing + normalizedScore * w)%Q;
           e_reasons := e_reasons existing ++ [reason rec];
           e_types := e_types existing ++ [type rec] |}
        m
  | None => mapSet key (freshEntry rec (normalizedScore * w)) m
  end.

Definition productScores (aff col seg : list Scored) (w : Weights)
  : list (Z * Entry) :=
  let m := fold_left (putFirst aff (affinity w)) aff [] in
  let m := fold_left (accumulate col (collaborative w)) col m in
  fold_left (accumulate seg (segment w)) seg m.

Definition toCombined (item : Entry) : Combined :=
  {| c_product := e_product item;
     recommendation_score := toFixed2 (totalScore item * 100);
     recommendation_types := uniqueStrings [] (e_types item);
     reasons := e_reasons item |}.

Definition combineRecommendations (aff col seg : list Scored) (w : Weights)
  : list Combined :=
  sortBy (fun a b => Qle_bool (recommendation_score b) (recommendation_score a))
         (List.map (fun kv => toCombined (snd kv)) (productScores aff col seg w)).

(** *** Persisted recommendations *)

Definition TWELVE_HOURS : Z := 12 * 60 * 60 * 1000.

Definition getCachedRecommendations (db : Database) (now : Z) (customerId : Z)
  : option (list Persisted) :=
  let cached :=
    sortBy (fun a b => Qle_bool (pr_recommendation_score b)
                                (pr_recommendation_score a))
      (List.filter
         (fun r => (pr_customer_id r =? customerId)
                   && (now - TWELVE_HOURS <=? pr_generated_at r))
         (product_recommendations db)) in
  match cached with
  | [] => None
  | _ =>
      Some (List.map
              (fun r => {| p_product := findProductByPk db (pr_product_id r);
                           p_recommendation_score := pr_recommendation_score r;
                           recommendation_type := pr_recommendation_type r;
                           p_reason := pr_reason r |})
              cached)
  end.

Definition cacheRecommendations (db : Database) (now : Z) (customerId : Z)
  (recommendations : list Combined) : Database :=
  let kept :=
    List.filter (fun r => negb (pr_customer_id r =? customerId))
                (product_recommendations db) in
  let records :=
    List.map
      (fun rec => {| pr_customer_id := customerId;
                     pr_product_id := prod_id (c_product rec);
                     pr_recommendation_score := recommendation_score rec;
                     pr_recommendation_type :=
                       String.concat "," (recommendation_types rec);
                     pr_reason := List.hd "" (reasons rec);
                     pr_generated_at := now;
                     pr_expires_at := now + TWELVE_HOURS |})
      recommendations in
  {| customers := customers db;
     products := products db;
     transactions := transactions db;
     customer_analytics := customer_analytics db;
     product_recommendations := kept ++ records |}.

(** *** The entry point

    The data-store and cache accesses of the entry point are taken to
    succeed; a rejected one would surface as [Err Upstream]. *)

Definition purchasedProductIdsOf (db : Database) (customerId : Z) : list Z :=
  List.map tx_product_id (completedTransactions db customerId).

(** The full recompute, steps 1 to 5. *)
Definition recompute (db : Database) (customerId : Z) (limit : Z)
  : list Combined :=
  let purchasedProductIds := purchasedProductIdsOf db customerId in
  let affinityRecommendations :=
    getProductAffinityRecommendations db purchasedProductIds (limit * 2) in
  let collaborativeRecommendations :=
    getCollaborativeFilteringRecommendations
      db customerId purchasedProductIds (limit * 2) in
  let segmentRecommendations :=
    getSegmentBasedRecommendations
      db customerId purchasedProductIds (limit * 2) in
  let combinedRecommendations :=
    combineRecommendations affinityRecommendations collaborativeRecommendations
                           segmentRecommendations weights in
  slice0 limit combinedRecommendations.

Definition generatePersonalizedRecommendations (st : State) (now : Z)
  (customerId : Z) (limit : Z) : result (list Recommendation) * State :=
  match findCustomerByPk (db st) customerId with
  | None => (Err NotFound, st)
  | Some _ =>
      let cacheKey :=
        CacheService.generateCustomerKey customerId "recommendations" in
      let '(cached, cache1) := CacheService.get true now cacheKey (cache st) in
      match cached with
      | Some ((_ :: _) as hit) =>
          (Ok (slice0 limit hit), {| db := db st; cache := cache1 |})
      | _ =>
          match getCachedRecommendations (db st) now customerId with
          | Some ((_ :: _) as rows) =>
              let result := slice0 limit (List.map FromRows rows) in
              let cache2 :=
                snd (CacheService.set true now cacheKey result 12
                                      "recommendations" cache1) in
              (Ok result, {| db := db st; cache := cache2 |})
          | _ =>
              let topRecommendations := recompute (db st) customerId limit in
              let db1 :=
                cacheRecommendations (db st) now customerId topRecommendations in
              let result := List.map FromCombine topRecommendations in
              let cache2 :=
                snd (CacheService.set true now cacheKey result 12
                                      "recommendations" cache1) in
              (Ok result, {| db := db1; cache := cache2 |})
          end
      end
  end.

End Recommend.

(** ** The order flow, as far as it changes what the analytics read *)

Module Orders.

Definition nextTransactionId (db : Database) : Z :=
  1 + fold_left Z.max (List.map tx_id (transactions db)) 0.

(** [Customer.prototype.updateLoyaltyTier] *)
Definition loyaltyTierFor (spent : Q) : string :=
  if Qle_bool 10000 spent then "platinum"
  else if Qle_bool 5000 spent then "gold"
  else if Qle_bool 1000 spent then "silver"
  else "bronze".

(** The values that the Transaction model allows for [payment_method]. *)
Definition paymentMethods : list string :=
  ["credit_card"; "debit_card"; "paypal"; "bank_transfer"; "cash"].

Definition validPaymentMethod (payment_method : option string) : bool :=
  match payment_method with
  | Some m => existsb (String.eqb m) paymentMethods
  | None => false
  end.

(** [createTransaction]: checks, pricing, the new completed ledger entry, the
    stock decrement and the customer's running total.  [Transaction.create]
    validates what it is given before it writes: [quantity] (min 1),
    [unit_price] (min 0.01), [total_amount] (0.01 to 10000, which the
    function has tested itself) and [payment_method] (one of the model's
    values; [None] is a request without one); the tax and the shipping cost
    of such an order are not negative.  The fire-and-forget fraud scoring is
    not part of the embedding. *)
Definition createTransaction (db : Database) (now : Z)
  (customer_id product_id quantity : Z) (payment_method : option string)
  : result Transaction * Database :=
  match findCustomerByPk db customer_id, findProductByPk db product_id with
  | None, _ | _, None => (Err NotFound, db)
  | Some customer, Some product =>
      if prod_stock_quantity product <? quantity then (Err Invalid, db)
      else
        let unit_price := prod_price product in
        let subtotal := (unit_price * inject_Z quantity)%Q in
        let tax_amount := (subtotal * (1 # 10))%Q in
        let shipping_cost := if Qltb 100 subtotal then 0%Q else 10%Q in
        let total_amount := (subtotal + tax_amount + shipping_cost)%Q in
        if Qltb total_amount (1 # 100) || Qltb 10000 total_amount
        then (Err Invalid, db)
        else if (quantity <? 1) || Qltb unit_price (1 # 100)
                || negb (validPaymentMethod payment_method)
        then (Err Invalid, db)
        else
          let transaction :=
            {| tx_id := nextTransactionId db;
               tx_customer_id := customer_id;
               tx_product_id := product_id;
               tx_quantity := quantity;
               tx_total_amount := toFixed2 total_amount;
               tx_status := completed;
               tx_timestamp := now |} in
          let spent := (cust_total_spent customer + total_amount)%Q in
          (Ok transaction,
           {| customers :=
                List.map
                  (fun c => if cust_id c =? customer_id
                            then {| cust_id := cust_id c;
                                    cust_total_spent := spent;
                                    cust_loyalty_tier :=
                                      Some (loyaltyTierFor spent) |}
                            else c)
                  (customers db);
              products :=
                List.map
                  (fun p => if prod_id p =? product_id
                            then {| prod_id := prod_id p;
                                    prod_price := prod_price p;
                                    prod_stock_quantity :=
                                      prod_stock_quantity p - quantity |}
                            else p)
                  (products db);
              transactions := transactions db ++ [transaction];
              customer_analytics := customer_analytics db;
              product_recommendations := product_recommendations db |})
  end.

(** [updateTransactionStatus] *)
Definition updateTransactionStatus (db : Database) (transactionId : Z)
  (newStatus : TxStatus) : result TxStatus * Database :=
  match List.find (fun t => tx_id t =? transactionId) (transactions db) with
  | None => (Err NotFound, db)
  | Some transaction =>
      (Ok (tx_status transaction),
       {| customers := customers db;
          products := products db;
          transactions :=
            List.map
              (fun t => if tx_id t =? transactionId
                        then {| tx_id := tx_id t;
                                tx_customer_id := tx_customer_id t;
                                tx_product_id := tx_product_id t;
                                tx_quantity := tx_quantity t;
                                tx_total_amount := tx_total_amount t;
                                tx_status := newStatus;
                                tx_timestamp := tx_timestamp t |}
                        else t)
              (transactions db);
          customer_analytics := customer_analytics db;
          product_recommendations := product_recommendations db |})
  end.

End Orders.

(** ** Batch recomputation over the whole customer population *)

(** A JavaScript number as far as a division can produce one. *)
Inductive JsNumber : Type :=
| Finite (q : Q)
| NaN
| PosInfinity
| NegInfinity.

(** [total / count] on numbers. *)
Definition jsDivide (total : Q) (count : Z) : JsNumber :=
  if count =? 0 then
    if Qeq_bool total 0 then NaN
    else if Qle_bool 0 total then PosInfinity else NegInfinity
  else Finite (total / inject_Z count).

Module Batch.

Section WithFaults.

(** The data store may reject any awaited operation.  [listFails] is the
    rejection of [Customer.findAll]; [computeFails id] the rejection of a read
    made for customer [id]; [persistFails id] the rejection of the write of
    that customer's record.  [nowOf id] is the instant at which customer
    [id]'s item runs. *)
Variable listFails : bool.
Variable computeFails persistFails : Z -> bool.
Variable nowOf : Z -> Z.

Definition setAnalytics (db : Database) (rows : list CustomerAnalytics)
  : Database :=
  {| customers := customers db;
     products := products db;
     transactions := transactions db;
     customer_analytics := rows;
     product_recommendations := product_recommendations db |}.

(** [CustomerAnalytics.upsert] of the RFM columns.  An upsert updates a row
    only on a conflict of the primary key or of a unique key; the values
    carry no [id], and [customer_id] is not a unique key of the table.  So
    every call inserts a further row, whose other columns take the column
    default, and the rows that were there stay as they are. *)
Definition rfmRow (now : Z) (r : RFM.Analysis) : CustomerAnalytics :=
  {| ca_customer_id := RFM.customer_id r;
     ca_recency_score := RFM.recency_score r;
     ca_frequency_score := RFM.frequency_score r;
     ca_monetary_score := RFM.monetary_score r;
     ca_rfm_score := RFM.rfm_score r;
     ca_rfm_segment := Some (RFM.rfm_segment r);
     ca_recency_days := Some (RFM.recency_days r);
     ca_frequency_count := Some (RFM.frequency_count r);
     ca_monetary_value := Some (RFM.monetary_value r);
     ca_clv_predicted := 0;
     ca_clv_confidence := None;
     ca_last_calculated := Some now |}.

Definition upsertRFM (db : Database) (now : Z) (r : RFM.Analysis) : Database :=
  setAnalytics db (customer_analytics db ++ [rfmRow now r]).

(** [CustomerAnalytics.update({ clv_predicted, clv_confidence },
                              { where: { customer_id } })] *)
Definition updateCLV (db : Database) (p : CLV.Prediction) : Database :=
  setAnalytics db
    (List.map
       (fun a => if ca_customer_id a =? CLV.customer_id p
                 then {| ca_customer_id := ca_customer_id a;
                         ca_recency_score := ca_recency_score a;
                         ca_frequency_score := ca_frequency_score a;
                         ca_monetary_score := ca_monetary_score a;
                         ca_rfm_score := ca_rfm_score a;
                         ca_rfm_segment := ca_rfm_segment a;
                         ca_recency_days := ca_recency_days a;
                         ca_frequency_count := ca_frequency_count a;
                         ca_monetary_value := ca_monetary_value a;
                         ca_clv_predicted := CLV.clv_predicted p;
                         ca_clv_confidence := Some (CLV.clv_confidence p);
                         ca_last_calculated := ca_last_calculated a |}
                 else a)
       (customer_analytics db)).

(** *** RFM *)

Record RFMSummary : Type := {
  rfm_total : Z;
  rfm_processed : Z;
  rfm_failed : Z;
  segments : gmap string Z
}.

Definition initialSegments : gmap string Z :=
  list_to_map [("Champions", 0); ("Loyal", 0); ("Potential", 0);
               ("At Risk", 0); ("Lost", 0)].

(** The [try] block of one iteration: compute, then persist. *)
Definition rfmItem (db : Database) (id : Z) : result RFM.Analysis * Database :=
  if computeFails id then (Err Upstream, db)
  else
    match RFM.calculateCustomerRFM db (nowOf id) id with
    | Err e => (Err e, db)
    | Ok rfmData =>
        if persistFails id then (Err Upstream, db)
        else (Ok rfmData, upsertRFM db (nowOf id) rfmData)
    end.

(** The loop state: the store, the local [processed] and [results]. *)
Definition rfmStep (s : Database * Z * RFMSummary) (customer : Customer)
  : Database * Z * RFMSummary :=
  let '(db, processed, results) := s in
  match rfmItem db (cust_id customer) with
  | (Ok rfmData, db1) =>
      (db1, processed + 1,
       {| rfm_total := rfm_total results;
          rfm_processed := rfm_processed results;
          rfm_failed := rfm_failed results;
          segments :=
            alter (fun n => n + 1) (RFM.rfm_segment rfmData)
                  (segments results) |})
  | (Err _, db1) =>
      (db1, processed,
       {| rfm_total := rfm_total results;
          rfm_processed := rfm_processed results;
          rfm_failed := rfm_failed results + 1;
          segments := segments results |})
  end.

Definition calculateAllCustomersRFM (db : Database)
  : result RFMSummary * Database :=
  if listFails then (Err Upstream, db)
  else
    let all := customers db in
    let results := {| rfm_total := len all; rfm_processed := 0;
                      rfm_failed := 0; segments := initialSegments |} in
    let '(db1, processed, results) := fold_left rfmStep all (db, 0, results) in
    (Ok {| rfm_total := rfm_total results;
           rfm_processed := processed;
           rfm_failed := rfm_failed results;
           segments := segments results |},
     db1).

(** *** CLV *)

Record CLVSummary : Type := {
  clv_total : Z;
  clv_processed : Z;
  clv_failed : Z;
  total_predicted_value : Q;
  avg_clv : JsNumber
}.

Definition clvItem (db : Database) (id : Z) : result CLV.Prediction * Database :=
  if computeFails id then (Err Upstream, db)
  else
    match CLV.calculateCustomerCLV db (nowOf id) id with
    | Err e => (Err e, db)
    | Ok clvData =>
        if persistFails id then (Err Upstream, db)
        else (Ok clvData, updateCLV db clvData)
    end.

(** The loop state: the store, [processed], [results.failed] and
    [results.total_predicted_value]. *)
Definition clvStep (s : Database * Z * Z * Q) (customer : Customer)
  : Database * Z * Z * Q :=
  let '(db, processed, nfailed, value) := s in
  match clvItem db (cust_id customer) with
  | (Ok clvData, db1) =>
      (db1, processed + 1, nfailed, (value + CLV.clv_predicted clvData)%Q)
  | (Err _, db1) => (db1, processed, nfailed + 1, value)
  end.

Definition calculateAllCustomersCLV (db : Database)
  : result CLVSummary * Database :=
  if listFails then (Err Upstream, db)
  else
    let all := customers db in
    let '(db1, processed, nfailed, value) :=
      fold_left clvStep all (db, 0, 0, 0%Q) in
    (Ok {| clv_total := len all;
           clv_processed := processed;
           clv_failed := nfailed;
           total_predicted_value := value;
           avg_clv := jsDivide value processed |},
     db1).

End WithFaults.

End Batch.

(** * Vocabulary of the properties *)

Definition customerExists (db : Database) (customerId : Z) : Prop :=
  exists c, In c (customers db) /\ cust_id c = customerId.

(** The head of a sorted list is in front of every other element, for a
    total and transitive [before]. *)
Definition headDominates {A : Type} (before : A -> A -> bool) (l : list A)
  : Prop :=
  match l with
  | [] => True
  | x :: l' => forall y, In y l' -> before x y = true
  end.

Definition sumQ (l : list Transaction) : Q :=
  fold_right (fun t acc => (tx_total_amount t + acc)%Q) 0%Q l.

(** The segment rules in the specification's words; the first rule that
    matches wins. *)
Section SegmentRules.

Variables r f m : Z.
Let total := r + f + m.

Definition championsRule : Prop := 13 <= total /\ 4 <= r /\ 4 <= f /\ 4 <= m.
Definition loyalRule : Prop := 10 <= total /\ 3 <= f /\ 3 <= m.
Definition atRiskRule : Prop := 8 <= total /\ r <= 2 /\ (3 <= f \/ 3 <= m).
Definition lostRule : Prop := total <= 7 \/ r = 1.

Inductive FirstMatch : string -> Prop :=
| match_champions : championsRule -> FirstMatch "Champions"
| match_loyal : ~ championsRule -> loyalRule -> FirstMatch "Loyal"
| match_at_risk :
    ~ championsRule -> ~ loyalRule -> atRiskRule -> FirstMatch "At Risk"
| match_lost :
    ~ championsRule -> ~ loyalRule -> ~ atRiskRule -> lostRule ->
    FirstMatch "Lost"
| match_potential :
    ~ championsRule -> ~ loyalRule -> ~ atRiskRule -> ~ lostRule ->
    FirstMatch "Potential".

End SegmentRules.

(** The instant of the newest completed purchase of a customer. *)
Definition latestPurchaseAt (db : Database) (customerId : Z) (ts : Z) : Prop :=
  (exists t, In t (completedTransactions db customerId) /\ tx_timestamp t = ts)
  /\ forall t, In t (completedTransactions db customerId) -> tx_timestamp t <= ts.


(** * Sample stores *)

Module Sample.

Definition day : Z := MS_PER_DAY.

Definition customer (id : Z) : Customer :=
  {| cust_id := id; cust_total_spent := 0; cust_loyalty_tier := Some "bronze" |}.

Definition purchase (id customerId productId : Z) (amount : Q) (ts : Z)
  : Transaction :=
  {| tx_id := id; tx_customer_id := customerId; tx_product_id := productId;
     tx_quantity := 1; tx_total_amount := amount; tx_status := completed;
     tx_timestamp := ts |}.

Definition item (id : Z) (price : Q) (stock : Z) : Product :=
  {| prod_id := id; prod_price := price; prod_stock_quantity := stock |}.

(** One customer who has not bought anything. *)
Definition newcomer : Database :=
  {| customers := [customer 1];
     products := [item 10 20 5];
     transactions := [];
     customer_analytics := [];
     product_recommendations := [] |}.

(** One customer with 25 purchases of 480 each, one a day from day 1 to day
    25. *)
Definition regular : Database :=
  {| customers := [customer 1];
     products := [item 10 480 100];
     transactions :=
       List.map (fun i => purchase (Z.of_nat i) 1 10 480 (Z.of_nat i * day))
                (seq 1 25);
     customer_analytics := [];
     product_recommendations := [] |}.

(** Two customers and three products.  Customer 1 bought product 10 once;
    customer 2 bought product 10 once, product 11 twice and product 12, now
    sold out, once. *)
Definition shop : Database :=
  {| customers := [customer 1; customer 2];
     products := [item 10 20 5; item 11 30 2; item 12 40 0];
     transactions :=
       [purchase 1 1 10 32 (100 * day);
        purchase 2 2 10 32 (101 * day);
        purchase 3 2 11 43 (102 * day);
        purchase 4 2 11 43 (103 * day);
        purchase 5 2 12 54 (104 * day)];
     customer_analytics := [];
     product_recommendations := [] |}.

Definition shopStart : Recommend.State :=
  {| Recommend.db := shop; Recommend.cache := CacheService.empty |}.

(** Day 110: recommendations are generated for customer 1. *)
Definition shopServed : Recommend.State :=
  snd (Recommend.generatePersonalizedRecommendations shopStart (110 * day) 1 5).

(** An hour later customer 1 buys the two units of product 11 that are left. *)
Definition shopAfterOrder : Recommend.State :=
  {| Recommend.db :=
       snd (Orders.createTransaction (Recommend.db shopServed)
              (110 * day + 3600000) 1 11 2 (Some "credit_card"));
     Recommend.cache := Recommend.cache shopServed |}.

(** Or else, an hour later, customer 1's only purchase is refunded. *)
Definition shopAfterRefund : Recommend.State :=
  {| Recommend.db :=
       snd (Orders.updateTransactionStatus (Recommend.db shopServed) 1 refunded);
     Recommend.cache := Recommend.cache shopServed |}.

End Sample.

(** A cache in which an entry is hit in the durable tier during the last
    second before its expiry. *)
Module SampleCache.

Definition key : string := "customer:7:rfm".

(** The entry is stored at instant 0 for 24 hours. *)
Definition expiry : Z := 24 * 3600 * 1000.

Definition stored : CacheService.Cache Z :=
  snd (CacheService.set true 0 key 42 24 "rfm" CacheService.empty).

(** The fast tier is emptied: here by [clear('clv')], which flushes it whole
    and deletes the durable rows of the type "clv" only. *)
Definition flushed : CacheService.Cache Z :=
  snd (CacheService.clear true (Some "clv") stored).

(** Half a second before the expiry the key is read. *)
Definition lateHit : option Z * CacheService.Cache Z :=
  CacheService.get true (expiry - 500) key flushed.

End SampleCache.

(** * Counting over a batch *)

Definition isOk {A : Type} (r : result A) : bool :=
  match r with Ok _ => true | Err _ => false end.

Definition countIf {A : Type} (f : A -> bool) (l : list A) : Z :=
  len (List.filter f l).

Definition segmentNames : list string :=
  ["Champions"; "Loyal"; "Potential"; "At Risk"; "Lost"].

Definition inSegment (s : string) (r : result RFM.Analysis) : bool :=
  match r with
  | Ok a => String.eqb (RFM.rfm_segment a) s
  | Err _ => false
  end.

(** The analytics table holds the row that the write of the RFM result [a]
    at [now] inserts. *)
Definition recorded (db : Database) (now : Z) (a : RFM.Analysis) : Prop :=
  In (Batch.rfmRow now a) (customer_analytics db).

Section BatchOutcome.

Variables (computeFails persistFails : Z -> bool) (nowOf : Z -> Z).
Variable db0 : Database.

(** The outcome of a customer's item of the RFM run that starts from [db0];
    it depends on the ledger only, which the run does not change. *)
Definition rfmOutcome (id : Z) : result RFM.Analysis :=
  fst (Batch.rfmItem computeFails persistFails nowOf db0 id).

Definition itemOk (c : Customer) : bool := isOk (rfmOutcome (cust_id c)).
Definition itemFailed (c : Customer) : bool :=
  negb (isOk (rfmOutcome (cust_id c))).
Definition itemInSegment (s : string) (c : Customer) : bool :=
  inSegment s (rfmOutcome (cust_id c)).

End BatchOutcome.

(** * Vocabulary of the recommendation properties *)

(** Customer [customerId] has a completed transaction on product [pid]. *)
Definition alreadyPurchased (db : Database) (customerId pid : Z) : Prop :=
  exists t, In t (transactions db)
            /\ tx_customer_id t = customerId
            /\ tx_status t = completed
            /\ tx_product_id t = pid.

(** Product [pid] is in the catalogue with no stock. *)
Definition outOfStock (db : Database) (pid : Z) : Prop :=
  exists p, In p (products db) /\ prod_id p = pid /\ prod_stock_quantity p = 0.

Definition refersTo (r : Recommend.Recommendation) (pid : Z) : Prop :=
  exists p, Recommend.recommendedProduct r = Some p /\ prod_id p = pid.

(** Product ids are the primary key of the catalogue. *)
Definition uniqueProductIds (db : Database) : Prop :=
  List.NoDup (List.map prod_id (products db)).

(** Neither cache tier nor the persisted rows hold recommendations for the
    customer at [now], so that the engine recomputes. *)
Definition nothingCached (st : Recommend.State) (now customerId : Z) : Prop :=
  (fst (CacheService.get true now
          (CacheService.generateCustomerKey customerId "recommendations")
          (Recommend.cache st)) = None
   \/ fst (CacheService.get true now
             (CacheService.generateCustomerKey customerId "recommendations")
             (Recommend.cache st)) = Some [])
  /\ Recommend.getCachedRecommendations (Recommend.db st) now customerId = None.

(** The specification's affinity score: the customers other than [target]
    who bought one of [purchased] and also bought [candidate]. *)
Definition coPurchasers (db : Database) (target : Z) (purchased : list Z)
  (candidate : Z) : list Z :=
  List.filter
    (fun c => negb (c =? target)
              && Recommend.boughtAnyOf db purchased c
              && Recommend.boughtAnyOf db [candidate] c)
    (nodup Z.eq_dec (List.map tx_customer_id (transactions db))).

(** What the engine counts: the completed purchases of [candidate] made by
    customers other than [target] who bought one of [purchased]. *)
Definition coPurchases (db : Database) (target : Z) (purchased : list Z)
  (candidate : Z) : list Transaction :=
  List.filter
    (fun t => isCompleted (tx_status t)
              && (tx_product_id t =? candidate)
              && negb (tx_customer_id t =? target)
              && Recommend.boughtAnyOf db purchased (tx_customer_id t))
    (transactions db).

(** The count a list of groups holds for a product, 0 when it has no group. *)
Definition countOf (pid : Z) (groups : list (Z * Z)) : Z :=
  match List.find (fun g => fst g =? pid) groups with
  | Some g => snd g
  | None => 0
  end.

(** The rows of a product. *)
Definition rowsOf (pid : Z) (rows : list Transaction) : list Transaction :=
  List.filter (fun t => tx_product_id t =? pid) rows.

(** Groups have distinct keys and positive counts. *)
Definition goodGroups (groups : list (Z * Z)) : Prop :=
  List.NoDup (List.map fst groups) /\ forall g, In g groups -> 1 <= snd g.

(** Every entry of the map carries the product of one of the candidates, under
    that product's id. *)
Definition fromCandidates (recs : list Recommend.Scored)
  (kv : Z * Recommend.Entry) : Prop :=
  exists rec, In rec recs
              /\ Recommend.e_product (snd kv) = Recommend.product rec
              /\ fst kv = prod_id (Recommend.product rec).

(** A candidate of any of the three sub-algorithms is a product of the
    catalogue, in stock, and not among [purchased]. *)
Definition eligible (db : Database) (purchased : list Z) (p : Product) : Prop :=
  In p (products db) /\ 0 < prod_stock_quantity p /\ ~ In (prod_id p) purchased.

(** * Vocabulary of the combiner's properties *)

Definition productIds (src : list Recommend.Scored) : list Z :=
  List.map (fun r => prod_id (Recommend.product r)) src.

Definition findCandidate (p : Z) (src : list Recommend.Scored)
  : option Recommend.Scored :=
  List.find (fun r => prod_id (Recommend.product r) =? p) src.

(** The normalized score a product has in a candidate list, if it is there. *)
Definition normalizedIn (src : list Recommend.Scored) (p : Z) : option Q :=
  option_map (fun r => Recommend.normalizeScore (Recommend.score r) src)
             (findCandidate p src).

(** What a candidate list adds to the combined total of a product. *)
Definition contribution (src : list Recommend.Scored) (w : Q) (p : Z) : Q :=
  match normalizedIn src p with
  | Some n => (n * w)%Q
  | None => 0%Q
  end.

(** The three contributions, summed in the order of the three loops. *)
Definition combinedTotal (aff col seg : list Recommend.Scored)
  (w : Recommend.Weights) (p : Z) : Q :=
  (contribution aff (Recommend.affinity w) p
   + contribution col (Recommend.collaborative w) p
   + contribution seg (Recommend.segment w) p)%Q.

(** The displayed score of a product in a combined result. *)
Definition scoreIn (out : list Recommend.Combined) (p : Z) : option Q :=
  option_map Recommend.recommendation_score
    (List.find (fun c => prod_id (Recommend.c_product c) =? p) out).

(** The number of entries of a result that score strictly higher than [s]. *)
Definition aheadOf (s : Q) (out : list Recommend.Combined) : Z :=
  len (List.filter (fun c => Qltb s (Recommend.recommendation_score c)) out).

(** The rank of a product in a result: the number of entries that score
    strictly higher, so rank 0 is the top. *)
Definition rankOf (out : list Recommend.Combined) (p : Z) : option Z :=
  option_map (fun s => aheadOf s out) (scoreIn out p).

(** Where the second list has the product, the first has it with the same
    normalized score. *)
Definition keepsNormalized (src src1 : list Recommend.Scored) (p : Z) : Prop :=
  match normalizedIn src1 p with
  | None => True
  | Some n1 => exists n, normalizedIn src p = Some n /\ (n == n1)%Q
  end.

(** The products other than [p] score the same in both results. *)
Definition othersFixed (out out1 : list Recommend.Combined) (p : Z) : Prop :=
  forall q, q <> p ->
            match scoreIn out q, scoreIn out1 q with
            | Some a, Some b => (a == b)%Q
            | None, None => True
            | _, _ => False
            end.

(** The keys of the [productScores] map are distinct and each is the id of
    the product its entry carries. *)
Definition keyedByProduct (m : list (Z * Recommend.Entry)) : Prop :=
  List.NoDup (List.map fst m)
  /\ forall kv, In kv m -> fst kv = prod_id (Recommend.e_product (snd kv)).

(** Two runs of the combiner on a small catalogue.  In [bothLists] product 7
    is a candidate of the affinity and of the collaborative list; in
    [oneList] of the affinity list only.  Product 8 is a candidate of both
    lists in both runs. *)
Module Combine.

Definition candidate (id : Z) (s : Q) (ty : string) : Recommend.Scored :=
  {| Recommend.product := Sample.item id 10 1;
     Recommend.score := s;
     Recommend.type := ty;
     Recommend.reason := ty |}.

Definition affinityList : list Recommend.Scored :=
  [candidate 7 3 "affinity"; candidate 8 3 "affinity"].

Definition collaborativeWith : list Recommend.Scored :=
  [candidate 8 5 "collaborative"; candidate 7 5 "collaborative"].

Definition collaborativeWithout : list Recommend.Scored :=
  [candidate 8 5 "collaborative"].

Definition bothLists : list Recommend.Combined :=
  Recommend.combineRecommendations affinityList collaborativeWith []
                                   Recommend.weights.

Definition oneList : list Recommend.Combined :=
  Recommend.combineRecommendations affinityList collaborativeWithout []
                                   Recommend.weights.

End Combine.

Module SampleBatch.

(** Three customers; the store rejects the reads made for customer 2. *)
Definition trio : Database :=
  {| customers := [Sample.customer 1; Sample.customer 2; Sample.customer 3];
     products := [Sample.item 10 20 5];
     transactions := [Sample.purchase 1 3 10 32 (100 * Sample.day)];
     customer_analytics := [];
     product_recommendations := [] |}.

Definition readsFail (id : Z) : bool := id =? 2.
Definition writesFail (id : Z) : bool := false.
Definition clock (id : Z) : Z := 110 * Sample.day.

(** Two customers whose analytics records carry no segment; customer 2 bought
    product 10, customer 1 nothing. *)
Definition unsegmented (id : Z) : CustomerAnalytics :=
  {| ca_customer_id := id; ca_recency_score := 0; ca_frequency_score := 0;
     ca_monetary_score := 0; ca_rfm_score := 0; ca_rfm_segment := None;
     ca_recency_days := None; ca_frequency_count := None;
     ca_monetary_value := None; ca_clv_predicted := 0;
     ca_clv_confidence := None; ca_last_calculated := None |}.

Definition noSegments : Database :=
  {| customers := [Sample.customer 1; Sample.customer 2];
     products := [Sample.item 10 20 5];
     transactions := [Sample.purchase 1 2 10 32 (100 * Sample.day)];
     customer_analytics := [unsegmented 1; unsegmented 2];
     product_recommendations := [] |}.

End SampleBatch.

(** * The other operations of the services

    The functions of the analytics services that the scorers, the engine and
    the cache are called through, and the operations of the inventory service
    that the order flow calls.  The conventions are those of the first part. *)

(** ** Cache service: maintenance *)

Module CacheAdmin.

Section WithValue.

Context {V : Type}.

(** [cleanExpired()]: the durable rows whose expiry lies before [now] are
    destroyed and counted; a rejection is caught and reported as 0. *)
Definition cleanExpired (dbOk : bool) (now : Z) (c : CacheService.Cache V)
  : Z * CacheService.Cache V :=
  if dbOk then
    (Z.of_nat
       (size (filter (fun kv => CacheService.expires_at (snd kv) < now)
                     (CacheService.analyticsCache c))),
     {| CacheService.memoryCache := CacheService.memoryCache c;
        CacheService.analyticsCache :=
          filter (fun kv => ~ CacheService.expires_at (snd kv) < now)
                 (CacheService.analyticsCache c) |})
  else (0, c).

End WithValue.

(** [`segment:${segment}:${type}`] *)
Definition generateSegmentKey (segment type : string) : string :=
  "segment:" +:+ segment +:+ ":" +:+ type.

End CacheAdmin.

(** ** RFM service: the cached per-customer analysis and the overview *)

Module RfmService.

Definition MS_PER_HOUR : Z := 1000 * 60 * 60.

(** [isDataStale(lastCalculated, hours)] *)
Definition isDataStale (now : Z) (lastCalculated : option Z) (hours : Q)
  : bool :=
  match lastCalculated with
  | None => true
  | Some t =>
      let diff := now - t in
      let hoursDiff := (inject_Z diff / inject_Z MS_PER_HOUR)%Q in
      Qltb hours hoursDiff
  end.

(** The customer joined to an analytics row: the attributes [id] and
    [loyalty_tier] of those the [include] selects. *)
Record CustomerRef : Type := {
  ref_id : Z;
  ref_loyalty_tier : option string
}.

Definition customerRef (db : Database) (customerId : Z) : option CustomerRef :=
  option_map
    (fun c => {| ref_id := cust_id c;
                 ref_loyalty_tier := cust_loyalty_tier c |})
    (findCustomerByPk db customerId).

(** An analytics row as [findOne] with [include: Customer] returns it. *)
Record AnalyticsView : Type := {
  av_analytics : CustomerAnalytics;
  av_customer : option CustomerRef
}.

Definition findOneWithCustomer (db : Database) (customerId : Z)
  : option AnalyticsView :=
  option_map
    (fun a => {| av_analytics := a;
                 av_customer := customerRef db (ca_customer_id a) |})
    (Recommend.findAnalytics db customerId).

(** The cache holds what the function returned: a view, or [null]. *)
Record State : Type := {
  db : Database;
  cache : CacheService.Cache (option AnalyticsView)
}.

(** [getCustomerRFMAnalysis(customerId)].  The accesses to the cache are
    taken to succeed; [upsert({customer_id, ...rfmData, last_calculated})]
    writes the columns [Batch.upsertRFM] writes and, like it, inserts a row;
    the [findOne] that follows reads the customer's first row. *)
Definition getCustomerRFMAnalysis (st : State) (now : Z) (customerId : Z)
  : result (option AnalyticsView) * State :=
  let cacheKey := CacheService.generateCustomerKey customerId "rfm" in
  let '(cached, cache1) := CacheService.get true now cacheKey (cache st) in
  match cached with
  | Some (Some hit) => (Ok (Some hit), {| db := db st; cache := cache1 |})
  | _ =>
      let analytics := findOneWithCustomer (db st) customerId in
      let stale :=
        match analytics with
        | None => true
        | Some v => isDataStale now (ca_last_calculated (av_analytics v)) 24
        end in
      if stale then
        match RFM.calculateCustomerRFM (db st) now customerId with
        | Err e => (Err e, {| db := db st; cache := cache1 |})
        | Ok rfmData =>
            let db1 := Batch.upsertRFM (db st) now rfmData in
            let analytics := findOneWithCustomer db1 customerId in
            let cache2 :=
              snd (CacheService.set true now cacheKey analytics 24 "rfm"
                                    cache1) in
            (Ok analytics, {| db := db1; cache := cache2 |})
        end
      else
        let cache2 :=
          snd (CacheService.set true now cacheKey analytics 24 "rfm" cache1) in
        (Ok analytics, {| db := db st; cache := cache2 |})
  end.

(** *** Segment overview *)

(** One row of the grouped query: [rfm_segment], [COUNT(id)],
    [SUM(monetary_value)] (NULL when no row of the group has a value) and
    [AVG(rfm_score)]. *)
Record SegmentRow : Type := {
  sr_rfm_segment : option string;
  sr_count : Z;
  sr_total_value : option Q;
  sr_avg_rfm_score : Q
}.

Definition segment_eq_dec (a b : option string) : {a = b} + {a <> b} :=
  decide (a = b).

Definition sumValues (rows : list CustomerAnalytics) : option Q :=
  match List.filter (fun a => bool_decide (is_Some (ca_monetary_value a)))
                    rows with
  | [] => None
  | withValue =>
      Some (fold_left (fun s a => (s + default 0 (ca_monetary_value a))%Q)
                      withValue 0%Q)
  end.

(** [GROUP BY rfm_segment]: one row per distinct segment, the NULL segment
    being one of them; the order of the groups is the store's. *)
Definition groupBySegment (rows : list CustomerAnalytics) : list SegmentRow :=
  List.map
    (fun s =>
       let members :=
         List.filter (fun a => Recommend.sameSegment (ca_rfm_segment a) s)
                     rows in
       {| sr_rfm_segment := s;
          sr_count := len members;
          sr_total_value := sumValues members;
          sr_avg_rfm_score :=
            (inject_Z (fold_left Z.add (List.map ca_rfm_score members) 0%Z)
             / inject_Z (len members))%Q |})
    (nodup segment_eq_dec (List.map ca_rfm_segment rows)).

(** An entry of [overview.segments]; the strings that [toFixed(2)] yields are
    kept as the numbers they denote. *)
Record SegmentStats : Type := {
  count : Z;
  total_value : Q;
  avg_rfm_score : Q;
  percentage : Q
}.

Record Overview : Type := {
  total_customers : Z;
  segments : gmap string SegmentStats
}.

(** [segment.rfm_segment || 'Unknown'] *)
Definition segmentName (s : option string) : string :=
  match s with
  | None => "Unknown"
  | Some x => if String.eqb x "" then "Unknown" else x
  end.

(** The body of the first [forEach]. *)
Definition addSegment (overview : Overview) (segment : SegmentRow) : Overview :=
  let segmentName := segmentName (sr_rfm_segment segment) in
  let count := sr_count segment in
  {| total_customers := total_customers overview + count;
     segments :=
       <[segmentName :=
           {| count := count;
              total_value := toFixed2 (default 0%Q (sr_total_value segment));
              avg_rfm_score := toFixed2 (sr_avg_rfm_score segment);
              percentage := 0 |}]> (segments overview) |}.

(** The second [forEach]: the percentages. *)
Definition withPercentages (overview : Overview) : Overview :=
  {| total_customers := total_customers overview;
     segments :=
       (fun st =>
          {| count := count st;
             total_value := total_value st;
             avg_rfm_score := avg_rfm_score st;
             percentage :=
               if 0 <? total_customers overview
               then toFixed2 (inject_Z (count st)
                              / inject_Z (total_customers overview) * 100)
               else 0%Q |})
       <$> segments overview |}.

(** The function [getSegmentOverview] computes and caches. *)
Definition segmentOverview (db : Database) : Overview :=
  withPercentages
    (fold_left addSegment (groupBySegment (customer_analytics db))
               {| total_customers := 0; segments := ∅ |}).

(** [getSegmentOverview()]: [queryOk] tells whether the grouped query
    succeeds. *)
Definition getSegmentOverview (queryOk : bool) (now : Z) (db : Database)
  (cache : CacheService.Cache Overview)
  : result Overview * CacheService.Cache Overview :=
  CacheService.getOrSet true true now "segments:overview"
    (if queryOk then Ok (segmentOverview db) else Err Upstream)
    6 "segments" cache.

End RfmService.

(** ** CLV service: the cached per-customer analysis and the ranking *)

Module ClvService.

Record State : Type := {
  db : Database;
  cache : CacheService.Cache CLV.Prediction
}.

Definition SEVEN_DAYS : Z := 7 * 24 * 60 * 60 * 1000.

(** [CustomerAnalytics.update({ clv_predicted, clv_confidence },
                              { where: { customer_id: customerId } })] *)
Definition updateCLV (db : Database) (customerId : Z) (p : CLV.Prediction)
  : Database :=
  Batch.setAnalytics db
    (List.map
       (fun a => if ca_customer_id a =? customerId
                 then {| ca_customer_id := ca_customer_id a;
                         ca_recency_score := ca_recency_score a;
                         ca_frequency_score := ca_frequency_score a;
                         ca_monetary_score := ca_monetary_score a;
                         ca_rfm_score := ca_rfm_score a;
                         ca_rfm_segment := ca_rfm_segment a;
                         ca_recency_days := ca_recency_days a;
                         ca_frequency_count := ca_frequency_count a;
                         ca_monetary_value := ca_monetary_value a;
                         ca_clv_predicted := CLV.clv_predicted p;
                         ca_clv_confidence := Some (CLV.clv_confidence p);
                         ca_last_calculated := ca_last_calculated a |}
                 else a)
       (customer_analytics db)).

(** [getCustomerCLVAnalysis(customerId)]; the accesses to the cache are taken
    to succeed. *)
Definition getCustomerCLVAnalysis (st : State) (now : Z) (customerId : Z)
  : result CLV.Prediction * State :=
  let cacheKey := CacheService.generateCustomerKey customerId "clv" in
  let '(cached, cache1) := CacheService.get true now cacheKey (cache st) in
  match cached with
  | Some hit => (Ok hit, {| db := db st; cache := cache1 |})
  | None =>
      let analytics := Recommend.findAnalytics (db st) customerId in
      let isStale :=
        match analytics with
        | None => true
        | Some a =>
            match ca_last_calculated a with
            | None => true
            | Some t => SEVEN_DAYS <? now - t
            end
        end in
      match CLV.calculateCustomerCLV (db st) now customerId with
      | Err e => (Err e, {| db := db st; cache := cache1 |})
      | Ok clvData =>
          let db1 := if isStale then updateCLV (db st) customerId clvData
                     else db st in
          let cache2 :=
            snd (CacheService.set true now cacheKey clvData 168 "clv" cache1) in
          (Ok clvData, {| db := db1; cache := cache2 |})
      end
  end.

(** An entry of [getTopCustomersByCLV]'s result; [parseFloat] of a NULL column
    is not a number, kept as [None]. *)
Record TopCustomer : Type := {
  customer : option RfmService.CustomerRef;
  clv_predicted : Q;
  clv_confidence : option Z;
  rfm_segment : option string;
  monetary_value : option Q
}.

(** The query and the mapping that [getTopCustomersByCLV] caches; the store
    rejects a negative limit, and rows of equal value keep their storage
    order. *)
Definition topCustomersByCLV (db : Database) (limit : Z)
  : result (list TopCustomer) :=
  if limit <? 0 then Err Upstream
  else
    let topCustomers :=
      firstn (Z.to_nat limit)
        (sortBy (fun a b => Qle_bool (ca_clv_predicted b) (ca_clv_predicted a))
                (customer_analytics db)) in
    Ok (List.map
          (fun record =>
             {| customer := RfmService.customerRef db (ca_customer_id record);
                clv_predicted := ca_clv_predicted record;
                clv_confidence := ca_clv_confidence record;
                rfm_segment := ca_rfm_segment record;
                monetary_value := ca_monetary_value record |})
          topCustomers).

(** [`top-clv:limit-${limit}`] *)
Definition topKey (limit : Z) : string := "top-clv:limit-" +:+ pretty limit.

Definition getTopCustomersByCLV (now : Z) (db : Database) (limit : Z)
  (cache : CacheService.Cache (list TopCustomer))
  : result (list TopCustomer) * CacheService.Cache (list TopCustomer) :=
  CacheService.getOrSet true true now (topKey limit)
    (topCustomersByCLV db limit) 12 "clv" cache.

End ClvService.

(** ** Churn service: persistence, the batch run, the ranking, the catalogue of
    strategies *)

Module ChurnService.

(** A row of customer_analytics with its churn columns, beside the columns of
    [CustomerAnalytics]. *)
Record AnalyticsRow : Type := {
  columns : CustomerAnalytics;
  ca_churn_risk_score : Z;
  ca_churn_risk_level : option string;
  ca_churn_indicators : option (list string)
}.

(** [CustomerAnalytics.update({ churn_risk_score, churn_risk_level,
                                churn_indicators },
                              { where: { customer_id } })] *)
Definition updateChurn (rows : list AnalyticsRow) (customerId : Z)
  (churnData : Churn.Risk) : list AnalyticsRow :=
  List.map
    (fun r => if ca_customer_id (columns r) =? customerId
              then {| columns := columns r;
                      ca_churn_risk_score := Churn.churn_risk_score churnData;
                      ca_churn_risk_level :=
                        Some (Churn.churn_risk_level churnData);
                      ca_churn_indicators :=
                        Some (Churn.churn_indicators churnData) |}
              else r)
    rows.

(** [getCustomerChurnAnalysis(customerId)]: always computed afresh; [db] holds
    the customers and the ledger, [rows] is the analytics table. *)
Definition getCustomerChurnAnalysis (db : Database) (rows : list AnalyticsRow)
  (now : Z) (customerId : Z) : result Churn.Risk * list AnalyticsRow :=
  match Churn.calculateChurnRisk db now customerId with
  | Err e => (Err e, rows)
  | Ok churnData => (Ok churnData, updateChurn rows customerId churnData)
  end.

(** *** Customers at high risk *)

Record HighRisk : Type := {
  customer : option RfmService.CustomerRef;
  churn_risk_score : Z;
  churn_risk_level : option string;
  churn_indicators : option (list string);
  rfm_segment : option string;
  monetary_value : Q;
  clv_predicted : Q
}.

(** [churn_risk_level IN ('critical', 'high')] *)
Definition isHighRisk (r : AnalyticsRow) : bool :=
  match ca_churn_risk_level r with
  | Some l => String.eqb l "critical" || String.eqb l "high"
  | None => false
  end.

(** [getHighRiskCustomers(limit)]; the store rejects a negative limit. *)
Definition getHighRiskCustomers (db : Database) (rows : list AnalyticsRow)
  (limit : Z) : result (list HighRisk) :=
  if limit <? 0 then Err Upstream
  else
    let highRiskCustomers :=
      firstn (Z.to_nat limit)
        (sortBy (fun a b => ca_churn_risk_score b <=? ca_churn_risk_score a)
                (List.filter isHighRisk rows)) in
    Ok (List.map
          (fun record =>
             {| customer :=
                  RfmService.customerRef db (ca_customer_id (columns record));
                churn_risk_score := ca_churn_risk_score record;
                churn_risk_level := ca_churn_risk_level record;
                churn_indicators := ca_churn_indicators record;
                rfm_segment := ca_rfm_segment (columns record);
                monetary_value :=
                  default 0%Q (ca_monetary_value (columns record));
                clv_predicted := ca_clv_predicted (columns record) |})
          highRiskCustomers).

(** *** The catalogue of prevention strategies *)

Record StrategyDetails : Type := {
  title : string;
  description : string;
  discount : string;
  timing : string
}.

Definition strategies : list (string * StrategyDetails) :=
  [("win_back_campaign",
    {| title := "Win-Back Campaign";
       description := "Send personalized email with special comeback offer";
       discount := "20-30%"; timing := "immediate" |});
   ("exclusive_discount",
    {| title := "Exclusive Discount";
       description := "VIP discount code for next purchase";
       discount := "25%"; timing := "immediate" |});
   ("re_engagement_email",
    {| title := "Re-engagement Email";
       description := "Reminder email with product recommendations";
       discount := "10-15%"; timing := "within 24 hours" |});
   ("special_offer",
    {| title := "Special Limited Offer";
       description := "Time-limited special pricing on popular items";
       discount := "15%"; timing := "within 48 hours" |});
   ("reminder_email",
    {| title := "Gentle Reminder";
       description := "Check-in email with new arrivals";
       discount := "10%"; timing := "within 7 days" |});
   ("loyalty_reward",
    {| title := "Loyalty Reward";
       description := "Bonus loyalty points or free gift";
       discount := "points/gift"; timing := "immediate" |});
   ("personalized_recommendations",
    {| title := "Personalized Recommendations";
       description := "AI-powered product suggestions based on history";
       discount := "0%"; timing := "ongoing" |});
   ("vip_incentive",
    {| title := "VIP Incentive";
       description := "Upgrade to VIP status with benefits";
       discount := "tier upgrade"; timing := "immediate" |});
   ("bundle_discount",
    {| title := "Bundle Discount";
       description := "Special pricing on product bundles";
       discount := "20%"; timing := "within 72 hours" |});
   ("payment_assistance",
    {| title := "Payment Assistance";
       description := "Help resolving payment issues";
       discount := "0%"; timing := "immediate" |});
   ("customer_support_outreach",
    {| title := "Support Outreach";
       description := "Proactive customer support contact";
       discount := "0%"; timing := "within 24 hours" |});
   ("loyalty_upgrade_offer",
    {| title := "Loyalty Tier Upgrade";
       description := "Special offer to upgrade loyalty status";
       discount := "tier benefits"; timing := "within 48 hours" |});
   ("welcome_campaign",
    {| title := "Welcome Campaign";
       description := "New customer onboarding series";
       discount := "15%"; timing := "immediate" |});
   ("first_purchase_incentive",
    {| title := "First Purchase Incentive";
       description := "Special discount for first order";
       discount := "20%"; timing := "immediate" |});
   ("maintain_engagement",
    {| title := "Maintain Engagement";
       description := "Regular updates and exclusive content";
       discount := "0%"; timing := "ongoing" |})].

(** [strategies[strategyKey]] on the object literal's own keys. *)
Definition lookupStrategy (strategyKey : string) : option StrategyDetails :=
  option_map snd
    (List.find (fun kv => String.eqb (fst kv) strategyKey) strategies).

(** [getPreventionStrategyDetails(strategyKey)] *)
Definition getPreventionStrategyDetails (strategyKey : string)
  : StrategyDetails :=
  match lookupStrategy strategyKey with
  | Some details => details
  | None =>
      {| title := strategyKey;
         description := "Custom retention strategy";
         discount := "varies";
         timing := "as needed" |}
  end.

(** *** The batch run *)

Section WithFaults.

(** As for the RFM and CLV runs: [listFails] is the rejection of
    [Customer.findAll], [computeFails id] the rejection of a read made for
    customer [id], [persistFails id] the rejection of the update of that
    customer's row, [nowOf id] the instant at which the item runs. *)
Variable listFails : bool.
Variable computeFails persistFails : Z -> bool.
Variable nowOf : Z -> Z.

Record ChurnSummary : Type := {
  churn_total : Z;
  churn_processed : Z;
  churn_failed : Z;
  risk_distribution : gmap string Z
}.

Definition initialDistribution : gmap string Z :=
  list_to_map [("critical", 0); ("high", 0); ("medium", 0); ("low", 0)].

(** The [try] block of one iteration. *)
Definition churnItem (db : Database) (rows : list AnalyticsRow) (id : Z)
  : result Churn.Risk * list AnalyticsRow :=
  if computeFails id then (Err Upstream, rows)
  else
    match Churn.calculateChurnRisk db (nowOf id) id with
    | Err e => (Err e, rows)
    | Ok churnData =>
        if persistFails id then (Err Upstream, rows)
        else (Ok churnData, updateChurn rows id churnData)
    end.

(** The loop state: the analytics table, the local [processed] and
    [results]. *)
Definition churnStep (db : Database)
  (s : list AnalyticsRow * Z * ChurnSummary) (customer : Customer)
  : list AnalyticsRow * Z * ChurnSummary :=
  let '(rows, processed, results) := s in
  match churnItem db rows (cust_id customer) with
  | (Ok churnData, rows1) =>
      (rows1, processed + 1,
       {| churn_total := churn_total results;
          churn_processed := churn_processed results;
          churn_failed := churn_failed results;
          risk_distribution :=
            alter (fun n => n + 1) (Churn.churn_risk_level churnData)
                  (risk_distribution results) |})
  | (Err _, rows1) =>
      (rows1, processed,
       {| churn_total := churn_total results;
          churn_processed := churn_processed results;
          churn_failed := churn_failed results + 1;
          risk_distribution := risk_distribution results |})
  end.

Definition calculateAllCustomersChurnRisk (db : Database)
  (rows : list AnalyticsRow) : result ChurnSummary * list AnalyticsRow :=
  if listFails then (Err Upstream, rows)
  else
    let all := customers db in
    let results := {| churn_total := len all; churn_processed := 0;
                      churn_failed := 0;
                      risk_distribution := initialDistribution |} in
    let '(rows1, processed, results) :=
      fold_left (churnStep db) all (rows, 0, results) in
    (Ok {| churn_total := churn_total results;
           churn_processed := processed;
           churn_failed := churn_failed results;
           risk_distribution := risk_distribution results |},
     rows1).

End WithFaults.

End ChurnService.

(** ** Recommendation engine: cross-sell and the batch run *)

Module CrossSell.

Record Entry : Type := {
  product : Product;
  cross_sell_count : Z;
  affinity_score : Q
}.

(** The customers with a completed transaction on the product, one row
    each ([group: ['customer_id']]). *)
Definition customersWhoBought (db : Database) (productId : Z) : list Z :=
  nodup Z.eq_dec
    (List.map tx_customer_id
       (List.filter
          (fun t => (tx_product_id t =? productId) && isCompleted (tx_status t))
          (transactions db))).

(** The completed transactions of those customers on other products. *)
Definition otherRows (db : Database) (customerIds : list Z) (productId : Z)
  : list Transaction :=
  List.filter
    (fun t => Recommend.memberZ (tx_customer_id t) customerIds
              && negb (tx_product_id t =? productId)
              && isCompleted (tx_status t))
    (transactions db).

(** [getProductCrossSell(productId, limit)]: whatever is thrown inside is
    thrown again, the store's rejection of a negative limit in particular.
    Reading the count of a product that has no group would throw as well. *)
Definition getProductCrossSell (db : Database) (productId : Z) (limit : Z)
  : result (list Entry) :=
  let customerIds := customersWhoBought db productId in
  match customerIds with
  | [] => Ok []
  | _ =>
      match Recommend.topByCount limit
              (Recommend.countByProduct (otherRows db customerIds productId))
      with
      | None => Err Upstream
      | Some otherProducts =>
          let productIds := List.map fst otherProducts in
          let products := Recommend.inStockProducts db productIds in
          match
            Recommend.traverse
              (fun product =>
                 match List.find (fun g => fst g =? prod_id product)
                                 otherProducts with
                 | Some crossSellData =>
                     Some {| product := product;
                             cross_sell_count := snd crossSellData;
                             affinity_score :=
                               (inject_Z (snd crossSellData)
                                / inject_Z (len customerIds) * 100)%Q |}
                 | None => None
                 end)
              products
          with
          | Some entries => Ok entries
          | None => Err Invalid
          end
      end
  end.

End CrossSell.

Module RecommendBatch.

Section WithFaults.

(** [listFails] is the rejection of [Customer.findAll]; [readFails id] the
    rejection of [Customer.findByPk] for customer [id], the first thing
    [generatePersonalizedRecommendations] awaits; [nowOf id] is the instant
    at which the item runs. *)
Variable listFails : bool.
Variable readFails : Z -> bool.
Variable nowOf : Z -> Z.

Record Summary : Type := {
  total : Z;
  processed : Z;
  failed : Z
}.

(** The [try] block of one iteration. *)
Definition item (st : Recommend.State) (id : Z)
  : result (list Recommend.Recommendation) * Recommend.State :=
  if readFails id then (Err Upstream, st)
  else Recommend.generatePersonalizedRecommendations st (nowOf id) id 10.

(** The loop state: the store and cache, the local [processed] and
    [results.failed]. *)
Definition step (s : Recommend.State * Z * Z) (customer : Customer)
  : Recommend.State * Z * Z :=
  let '(st, processed, nfailed) := s in
  match item st (cust_id customer) with
  | (Ok _, st1) => (st1, processed + 1, nfailed)
  | (Err _, st1) => (st1, processed, nfailed + 1)
  end.

Definition generateAllRecommendations (st : Recommend.State)
  : result Summary * Recommend.State :=
  if listFails then (Err Upstream, st)
  else
    let all := customers (Recommend.db st) in
    let '(st1, processed, nfailed) := fold_left step all (st, 0, 0) in
    (Ok {| total := len all; processed := processed; failed := nfailed |},
     st1).

End WithFaults.

End RecommendBatch.

(** ** Inventory service: the stock operations of the order flow *)

Module Inventory.

Record Availability : Type := {
  product_id : Z;
  requested_quantity : Z;
  available_quantity : Z;
  is_available : bool;
  shortage : Z;
  can_fulfill : bool
}.

(** [checkStockAvailability(productId, requestedQuantity)] *)
Definition checkStockAvailability (db : Database)
  (productId requestedQuantity : Z) : result Availability :=
  match findProductByPk db productId with
  | None => Err NotFound
  | Some product =>
      let available := requestedQuantity <=? prod_stock_quantity product in
      let shortage :=
        if available then 0
        else requestedQuantity - prod_stock_quantity product in
      Ok {| product_id := productId;
            requested_quantity := requestedQuantity;
            available_quantity := prod_stock_quantity product;
            is_available := available;
            shortage := shortage;
            can_fulfill := available |}
  end.

Record StockUpdate : Type := {
  su_product_id : Z;
  previous_stock : Z;
  new_stock : Z;
  quantity_changed : Z;
  operation : string
}.

(** [product.save()] after [product.stock_quantity = newStock]: the row of
    the product's key takes the new quantity. *)
Definition saveStock (db : Database) (productId newStock : Z) : Database :=
  {| customers := customers db;
     products :=
       List.map
         (fun p => if prod_id p =? productId
                   then {| prod_id := prod_id p;
                           prod_price := prod_price p;
                           prod_stock_quantity := newStock |}
                   else p)
         (products db);
     transactions := transactions db;
     customer_analytics := customer_analytics db;
     product_recommendations := product_recommendations db |}.

(** [updateStockQuantity(productId, quantity, operation)].  [product.save()]
    validates the quantity it is to store: the Product model refuses a
    negative [stock_quantity], and the row is left as it was. *)
Definition updateStockQuantity (db : Database) (productId quantity : Z)
  (operation : string) : result StockUpdate * Database :=
  match findProductByPk db productId with
  | None => (Err NotFound, db)
  | Some product =>
      let currentStock := prod_stock_quantity product in
      let save newStock :=
        if newStock <? 0 then (Err Invalid, db)
        else
          (Ok {| su_product_id := productId;
                 previous_stock := currentStock;
                 new_stock := newStock;
                 quantity_changed := quantity;
                 operation := operation |},
           saveStock db productId newStock) in
      if String.eqb operation "add" then save (currentStock + quantity)
      else if String.eqb operation "subtract" then
        let newStock := currentStock - quantity in
        if newStock <? 0 then (Err Invalid, db) else save newStock
      else (Err Invalid, db)
  end.

(** [getUrgencyLevel(daysUntilStockout, currentStock)] *)
Definition getUrgencyLevel (daysUntilStockout currentStock : Z) : string :=
  if currentStock =? 0 then "critical"
  else if daysUntilStockout <=? 3 then "critical"
  else if daysUntilStockout <=? 7 then "high"
  else if daysUntilStockout <=? 14 then "medium"
  else "low".

End Inventory.

(** * Vocabulary of the further properties *)

(** No character of the string is a colon. *)
Fixpoint colonFree (s : string) : bool :=
  match s with
  | EmptyString => true
  | String a s' => negb (String.eqb (String a "") ":") && colonFree s'
  end.

(** The five kinds of per-customer entries that [invalidateCustomerCache]
    names. *)
Definition customerEntryTypes : list string :=
  ["rfm"; "clv"; "churn"; "recommendations"; "complete"].

(** A row read back from product_recommendations carries the entry [rec]:
    its score, its product looked up in the catalogue, its types joined by
    commas and its first reason. *)
Definition readsBack (db : Database) (rec : Recommend.Combined)
  (row : Recommend.Persisted) : Prop :=
  Recommend.p_recommendation_score row = Recommend.recommendation_score rec
  /\ Recommend.p_product row
     = findProductByPk db (prod_id (Recommend.c_product rec))
  /\ Recommend.recommendation_type row
     = String.concat "," (Recommend.recommendation_types rec)
  /\ Recommend.p_reason row = List.hd "" (Recommend.reasons rec).

(** Entries in descending order of score, equal scores in their given
    order. *)
Definition byScore (recs : list Recommend.Combined) : list Recommend.Combined :=
  sortBy (fun a b => Qle_bool (Recommend.recommendation_score b)
                              (Recommend.recommendation_score a))
         recs.

(** The completed purchases of [candidate] made by the customers who have a
    completed purchase of [productId]. *)
Definition crossPurchases (db : Database) (productId candidate : Z)
  : list Transaction :=
  List.filter
    (fun t => isCompleted (tx_status t)
              && (tx_product_id t =? candidate)
              && Recommend.boughtAnyOf db [productId] (tx_customer_id t))
    (transactions db).

(** Neither cache tier holds an RFM analysis of the customer at [now]. *)
Definition rfmCacheMiss (st : RfmService.State) (now customerId : Z) : Prop :=
  fst (CacheService.get true now
         (CacheService.generateCustomerKey customerId "rfm")
         (RfmService.cache st)) = None
  \/ fst (CacheService.get true now
            (CacheService.generateCustomerKey customerId "rfm")
            (RfmService.cache st)) = Some None.

(** The stored analysis of the customer, if there is one, is older than 24
    hours or carries no date. *)
Definition rfmRowStale (st : RfmService.State) (now customerId : Z) : Prop :=
  forall v,
    RfmService.findOneWithCustomer (RfmService.db st) customerId = Some v ->
    RfmService.isDataStale now
      (ca_last_calculated (RfmService.av_analytics v)) 24 = true.

(** The analytics row carries the RFM result [a], computed at [now]. *)
Definition carriesRFM (row : CustomerAnalytics) (a : RFM.Analysis) (now : Z)
  : Prop :=
  ca_customer_id row = RFM.customer_id a
  /\ ca_recency_score row = RFM.recency_score a
  /\ ca_frequency_score row = RFM.frequency_score a
  /\ ca_monetary_score row = RFM.monetary_score a
  /\ ca_rfm_score row = RFM.rfm_score a
  /\ ca_rfm_segment row = Some (RFM.rfm_segment a)
  /\ ca_recency_days row = Some (RFM.recency_days a)
  /\ ca_frequency_count row = Some (RFM.frequency_count a)
  /\ ca_monetary_value row = Some (RFM.monetary_value a)
  /\ ca_last_calculated row = Some now.

(** A small store whose only analytics row was computed at instant 0. *)
Module SampleRfm.

Definition stored : CustomerAnalytics :=
  {| ca_customer_id := 1; ca_recency_score := 5; ca_frequency_score := 1;
     ca_monetary_score := 1; ca_rfm_score := 7; ca_rfm_segment := Some "Lost";
     ca_recency_days := Some 10; ca_frequency_count := Some 1;
     ca_monetary_value := Some 32%Q; ca_clv_predicted := 0;
     ca_clv_confidence := None; ca_last_calculated := Some 0 |}.

Definition store : Database :=
  {| customers := customers Sample.shop;
     products := products Sample.shop;
     transactions := transactions Sample.shop;
     customer_analytics := [stored];
     product_recommendations := [] |}.

Definition start : RfmService.State :=
  {| RfmService.db := store; RfmService.cache := CacheService.empty |}.

(** The shop itself, which has no analytics row yet. *)
Definition fresh : RfmService.State :=
  {| RfmService.db := Sample.shop; RfmService.cache := CacheService.empty |}.

End SampleRfm.

(** The columns of an analytics row other than the two CLV columns. *)
Definition besidesCLV (a : CustomerAnalytics)
  : Z * Z * Z * Z * Z * option string * option Z * option Z * option Q
    * option Z :=
  (ca_customer_id a, ca_recency_score a, ca_frequency_score a,
   ca_monetary_score a, ca_rfm_score a, ca_rfm_segment a, ca_recency_days a,
   ca_frequency_count a, ca_monetary_value a, ca_last_calculated a).

(** Two stores differ at most in the CLV columns of their analytics rows. *)
Definition sameBesidesCLV (db db' : Database) : Prop :=
  customers db' = customers db
  /\ products db' = products db
  /\ transactions db' = transactions db
  /\ product_recommendations db' = product_recommendations db
  /\ List.map besidesCLV (customer_analytics db')
     = List.map besidesCLV (customer_analytics db).

(** The catalogue of strategies has an entry of its own under the key, so
    that [getPreventionStrategyDetails] does not fall back on the generic
    description. *)
Definition hasOwnEntry (strategyKey : string) : Prop :=
  ChurnService.lookupStrategy strategyKey
  = Some (ChurnService.getPreventionStrategyDetails strategyKey).

(** The values of the [loyalty_tier] column that the schema allows. *)
Definition schemaTiers : list string := ["bronze"; "silver"; "gold"; "platinum"].

(** The four risk levels, and the sum of the counters that a distribution
    holds for them. *)
Definition riskLevels : list string := ["critical"; "high"; "medium"; "low"].

Definition distributionTotal (d : gmap string Z) : Z :=
  fold_right Z.add 0 (List.map (fun level => default 0 (d !! level)) riskLevels).

(** The outcome of a customer's item of the churn run over the store [db];
    the run changes neither the customers nor the ledger, which is all the
    outcome depends on. *)
Definition churnItemOk (computeFails persistFails : Z -> bool) (nowOf : Z -> Z)
  (db : Database) (c : Customer) : bool :=
  isOk (fst (ChurnService.churnItem computeFails persistFails nowOf db []
               (cust_id c))).


(** A ledger entry with its status replaced, as [updateTransactionStatus]
    saves it. *)
Definition withStatus (t : Transaction) (s : TxStatus) : Transaction :=
  {| tx_id := tx_id t;
     tx_customer_id := tx_customer_id t;
     tx_product_id := tx_product_id t;
     tx_quantity := tx_quantity t;
     tx_total_amount := tx_total_amount t;
     tx_status := s;
     tx_timestamp := tx_timestamp t |}.
(** * Properties *)

(** ** Lists, sorting and sums *)


Lemma findCustomerByPk_exists (db : Database) (customerId : Z) :
  customerExists db customerId ->
  exists c, findCustomerByPk db customerId = Some c.
Proof.
  intros [c [Hin Hid]]. unfold findCustomerByPk.
  destruct (List.find (fun c0 => cust_id c0 =? customerId) (customers db))
    as [c'|] eqn:Hf.
  - now exists c'.
  - apply (find_none _ _ Hf) in Hin. lia.
Qed.

Lemma len_cons {A : Type} (x : A) (l : list A) : len (x :: l) = 1 + len l.
Proof. unfold len. cbn [length]. lia. Qed.

Lemma len_nonneg {A : Type} (l : list A) : 0 <= len l.
Proof. unfold len. lia. Qed.

Lemma Qltb_lt (a b : Q) : Qltb a b = true <-> (a < b)%Q.
Proof.
  unfold Qltb. rewrite negb_true_iff. split.
  - intros H. apply Qnot_le_lt. intros Hle. apply Qle_bool_iff in Hle. congruence.
  - intros H. destruct (Qle_bool b a) eqn:E; [|reflexivity].
    apply Qle_bool_iff in E. exfalso. eapply Qlt_not_le; eassumption.
Qed.

Lemma insertBy_perm {A : Type} (before : A -> A -> bool) (x : A) (l : list A) :
  Permutation (insertBy before x l) (x :: l).
Proof.
  induction l as [|y l IH]; simpl.
  - reflexivity.
  - destruct (before x y).
    + reflexivity.
    + rewrite IH. apply perm_swap.
Qed.

Lemma sortBy_perm {A : Type} (before : A -> A -> bool) (l : list A) :
  Permutation (sortBy before l) l.
Proof.
  induction l as [|x l IH]; simpl.
  - reflexivity.
  - unfold sortBy in *. simpl. rewrite insertBy_perm. now constructor.
Qed.

Lemma sortBy_nil_inv {A : Type} (before : A -> A -> bool) (l : list A) :
  sortBy before l = [] -> l = [].
Proof.
  intros H. pose proof (sortBy_perm before l) as P. rewrite H in P.
  now apply Permutation_nil in P.
Qed.

Lemma sortBy_length {A : Type} (before : A -> A -> bool) (l : list A) :
  length (sortBy before l) = length l.
Proof. apply Permutation_length, sortBy_perm. Qed.


Lemma insertBy_head {A : Type} (before : A -> A -> bool) (x : A) (l : list A) :
  (forall a b, before a b = false -> before b a = true) ->
  (forall a b c, before a b = true -> before b c = true -> before a c = true) ->
  headDominates before l -> headDominates before (insertBy before x l).
Proof.
  intros Htot Htrans Hl. destruct l as [|y l]; simpl.
  - intros y [].
  - destruct (before x y) eqn:E.
    + intros z [<-|Hz]; [exact E|]. eapply Htrans; [exact E|]. now apply Hl.
    + intros z Hz. apply (Permutation_in _ (insertBy_perm before x l)) in Hz.
      destruct Hz as [<-|Hz]; [now apply Htot | now apply Hl].
Qed.

Lemma sortBy_head {A : Type} (before : A -> A -> bool) (l : list A) :
  (forall a b, before a b = false -> before b a = true) ->
  (forall a b c, before a b = true -> before b c = true -> before a c = true) ->
  headDominates before (sortBy before l).
Proof.
  intros Htot Htrans. induction l as [|x l IH].
  - exact I.
  - unfold sortBy in *. simpl. now apply insertBy_head.
Qed.


Lemma fold_left_amounts (l : list Transaction) (acc : Q) :
  (fold_left (fun sum t => sum + tx_total_amount t) l acc == acc + sumQ l)%Q.
Proof.
  revert acc. induction l as [|t l IH]; intros acc; simpl.
  - ring.
  - rewrite IH. ring.
Qed.

Lemma sumAmounts_sumQ (l : list Transaction) : (sumAmounts l == sumQ l)%Q.
Proof. unfold sumAmounts. rewrite fold_left_amounts. ring. Qed.

Lemma sumQ_perm (l l' : list Transaction) :
  Permutation l l' -> (sumQ l == sumQ l')%Q.
Proof.
  induction 1; simpl.
  - reflexivity.
  - now rewrite IHPermutation.
  - ring.
  - now rewrite IHPermutation1.
Qed.

Lemma sumAmounts_perm (l l' : list Transaction) :
  Permutation l l' -> (sumAmounts l == sumAmounts l')%Q.
Proof. intros P. rewrite !sumAmounts_sumQ. now apply sumQ_perm. Qed.

(** ** The scorers *)

Lemma calculateRecencyScore_range (days : Z) :
  1 <= RFM.calculateRecencyScore days <= 5.
Proof.
  unfold RFM.calculateRecencyScore.
  repeat match goal with |- context [if ?b then _ else _] => destruct b end; lia.
Qed.

Lemma calculateFrequencyScore_range (count : Z) :
  1 <= RFM.calculateFrequencyScore count <= 5.
Proof.
  unfold RFM.calculateFrequencyScore.
  repeat match goal with |- context [if ?b then _ else _] => destruct b end; lia.
Qed.

Lemma calculateMonetaryScore_range (amount : Q) :
  1 <= RFM.calculateMonetaryScore amount <= 5.
Proof.
  unfold RFM.calculateMonetaryScore.
  repeat match goal with |- context [if ?b then _ else _] => destruct b end; lia.
Qed.

Lemma calculateCLVConfidence_range (orders : Z) (months : Q) (days : Z) :
  0 <= CLV.calculateCLVConfidence orders months days <= 100.
Proof. unfold CLV.calculateCLVConfidence. lia. Qed.

(** Every factor of the churn score leaves the score where it is or raises
    it. *)
Lemma bump_score (a : Churn.Acc) (delta : Z) (i : string) (s : list string) :
  Churn.churnScore (Churn.bump a delta i s) = Churn.churnScore a + delta.
Proof. reflexivity. Qed.

Ltac factor_cases :=
  repeat match goal with
         | |- context [if ?b then _ else _] => destruct b
         end;
  rewrite ?bump_score; lia.

Lemma recencyFactor_mono (days : Z) (a : Churn.Acc) :
  Churn.churnScore a <= Churn.churnScore (Churn.recencyFactor days a).
Proof. unfold Churn.recencyFactor. factor_cases. Qed.

Lemma frequencyFactor_mono (txs : list Transaction) (a : Churn.Acc) :
  Churn.churnScore a <= Churn.churnScore (Churn.frequencyFactor txs a).
Proof. unfold Churn.frequencyFactor. cbv zeta. factor_cases. Qed.

Lemma spendingFactor_mono (txs : list Transaction) (a : Churn.Acc) :
  Churn.churnScore a <= Churn.churnScore (Churn.spendingFactor txs a).
Proof. unfold Churn.spendingFactor. cbv zeta. factor_cases. Qed.

Lemma failedFactor_mono (n : Z) (a : Churn.Acc) :
  Churn.churnScore a <= Churn.churnScore (Churn.failedFactor n a).
Proof. unfold Churn.failedFactor. factor_cases. Qed.

Lemma orderValueFactor_mono (txs : list Transaction) (a : Churn.Acc) :
  Churn.churnScore a <= Churn.churnScore (Churn.orderValueFactor txs a).
Proof.
  unfold Churn.orderValueFactor. destruct txs; [lia|]. cbv zeta. factor_cases.
Qed.

Lemma loyaltyFactor_mono (c : Customer) (a : Churn.Acc) :
  Churn.churnScore a <= Churn.churnScore (Churn.loyaltyFactor c a).
Proof. unfold Churn.loyaltyFactor. factor_cases. Qed.

Lemma completedTransactionsDesc_nil (db : Database) (customerId : Z) :
  completedTransactions db customerId = [] ->
  completedTransactionsDesc db customerId = [].
Proof. unfold completedTransactionsDesc. now intros ->. Qed.

Lemma completedTransactionsAsc_nil (db : Database) (customerId : Z) :
  completedTransactions db customerId = [] ->
  completedTransactionsAsc db customerId = [].
Proof. unfold completedTransactionsAsc. now intros ->. Qed.

(** C1.  A customer that exists and has no completed transaction gets the
    sentinel results: RFM recency of 9999 days, the three sub-scores at 1,
    an RFM score of 3 and the segment "Lost"; a predicted CLV of 0 with
    confidence 0; a churn score of 100 at level "critical" with the
    indicator "no_purchase_history". *)
Theorem zero_transaction_customer (db : Database) (now customerId : Z) :
  customerExists db customerId ->
  completedTransactions db customerId = [] ->
  (exists r, RFM.calculateCustomerRFM db now customerId = Ok r
             /\ RFM.recency_days r = 9999
             /\ RFM.recency_score r = 1
             /\ RFM.frequency_score r = 1
             /\ RFM.monetary_score r = 1
             /\ RFM.rfm_score r = 3
             /\ RFM.rfm_segment r = "Lost")
  /\ (exists p, CLV.calculateCustomerCLV db now customerId = Ok p
                /\ CLV.clv_predicted p = 0%Q
                /\ CLV.clv_confidence p = 0)
  /\ (exists k, Churn.calculateChurnRisk db now customerId = Ok k
                /\ Churn.churn_risk_score k = 100
                /\ Churn.churn_risk_level k = "critical"
                /\ In "no_purchase_history" (Churn.churn_indicators k)).
Proof.
  intros Hex Hnone.
  destruct (findCustomerByPk_exists _ _ Hex) as [c Hc].
  unfold RFM.calculateCustomerRFM, CLV.calculateCustomerCLV,
    Churn.calculateChurnRisk.
  rewrite Hc, (completedTransactionsDesc_nil _ _ Hnone),
    (completedTransactionsAsc_nil _ _ Hnone).
  split; [|split]; eexists; (split; [reflexivity|]); simpl; intuition.
Qed.

(** C2.  For a customer that exists, whatever the ledger holds: each RFM
    sub-score lies in 1..5, the RFM score is their sum and lies in 3..15;
    the CLV confidence lies in 0..100; the churn score lies in 0..100. *)
Theorem scorer_ranges (db : Database) (now customerId : Z) :
  customerExists db customerId ->
  (exists r, RFM.calculateCustomerRFM db now customerId = Ok r
             /\ 1 <= RFM.recency_score r <= 5
             /\ 1 <= RFM.frequency_score r <= 5
             /\ 1 <= RFM.monetary_score r <= 5
             /\ RFM.rfm_score r
                = RFM.recency_score r + RFM.frequency_score r
                  + RFM.monetary_score r
             /\ 3 <= RFM.rfm_score r <= 15)
  /\ (exists p, CLV.calculateCustomerCLV db now customerId = Ok p
                /\ 0 <= CLV.clv_confidence p <= 100)
  /\ (exists k, Churn.calculateChurnRisk db now customerId = Ok k
                /\ 0 <= Churn.churn_risk_score k <= 100).
Proof.
  intros Hex. destruct (findCustomerByPk_exists _ _ Hex) as [c Hc].
  unfold RFM.calculateCustomerRFM, CLV.calculateCustomerCLV,
    Churn.calculateChurnRisk.
  rewrite Hc. split; [|split].
  - destruct (completedTransactionsDesc db customerId) as [|t0 txs];
      eexists; (split; [reflexivity|]); simpl; [lia|].
    pose proof (calculateRecencyScore_range (daysBetween now (tx_timestamp t0))).
    pose proof (calculateFrequencyScore_range (len (t0 :: txs))).
    pose proof (calculateMonetaryScore_range (sumAmounts (t0 :: txs))).
    lia.
  - destruct (completedTransactionsAsc db customerId) as [|t0 txs];
      eexists; (split; [reflexivity|]); cbv zeta;
      cbn [CLV.clv_confidence]; [lia|].
    apply calculateCLVConfidence_range.
  - destruct (completedTransactionsDesc db customerId) as [|t0 txs];
      eexists; (split; [reflexivity|]); cbv zeta;
      cbn [Churn.churn_risk_score]; [lia|].
    match goal with
    | |- context [Churn.loyaltyFactor c ?a5] =>
        pose proof (loyaltyFactor_mono c a5) as H6;
        match a5 with
        | Churn.orderValueFactor ?l ?a4 =>
            pose proof (orderValueFactor_mono l a4) as H5;
            match a4 with
            | Churn.failedFactor ?n ?a3 =>
                pose proof (failedFactor_mono n a3) as H4;
                match a3 with
                | Churn.spendingFactor ?l2 ?a2 =>
                    pose proof (spendingFactor_mono l2 a2) as H3;
                    match a2 with
                    | Churn.frequencyFactor ?l1 ?a1 =>
                        pose proof (frequencyFactor_mono l1 a1) as H2;
                        match a1 with
                        | Churn.recencyFactor ?d ?a0 =>
                            pose proof (recencyFactor_mono d a0) as H1
                        end
                    end
                end
            end
        end
    end.
    cbn [Churn.churnScore] in H1. lia.
Qed.

(** ** Segments *)


Lemma determineSegment_first_match (r f m : Z) :
  FirstMatch r f m (RFM.determineSegment (r + f + m) r f m).
Proof.
  unfold RFM.determineSegment.
  destruct ((r + f + m >=? 13) && (r >=? 4) && (f >=? 4) && (m >=? 4)) eqn:E1.
  { apply match_champions. unfold championsRule. lia. }
  assert (~ championsRule r f m) by (unfold championsRule; lia).
  destruct ((r + f + m >=? 10) && (f >=? 3) && (m >=? 3)) eqn:E2.
  { apply match_loyal; [assumption|]. unfold loyalRule. lia. }
  assert (~ loyalRule r f m) by (unfold loyalRule; lia).
  destruct ((r + f + m >=? 8) && (r <=? 2) && ((f >=? 3) || (m >=? 3))) eqn:E3.
  { apply match_at_risk; try assumption. unfold atRiskRule. lia. }
  assert (~ atRiskRule r f m) by (unfold atRiskRule; lia).
  destruct ((r + f + m <=? 7) || (r =? 1)) eqn:E4.
  { apply match_lost; try assumption. unfold lostRule. lia. }
  apply match_potential; try assumption. unfold lostRule. lia.
Qed.

(** The rules name one segment only. *)
Lemma FirstMatch_functional (r f m : Z) (s s' : string) :
  FirstMatch r f m s -> FirstMatch r f m s' -> s = s'.
Proof. intros H H'. destruct H; destruct H'; tauto. Qed.


Lemma completedTransactionsDesc_head (db : Database) (customerId ts : Z)
  (t0 : Transaction) (rest : list Transaction) :
  completedTransactionsDesc db customerId = t0 :: rest ->
  latestPurchaseAt db customerId ts ->
  tx_timestamp t0 = ts.
Proof.
  intros Hd [[t [Hin Hts]] Hmax].
  pose proof (sortBy_perm (fun a b => tx_timestamp b <=? tx_timestamp a)
                (completedTransactions db customerId)) as P.
  pose proof (sortBy_head (fun a b => tx_timestamp b <=? tx_timestamp a)
                (completedTransactions db customerId)) as Hh.
  fold (completedTransactionsDesc db customerId) in P, Hh. rewrite Hd in P, Hh.
  assert (In t0 (completedTransactions db customerId)) as H0
      by (apply (Permutation_in _ P); now left).
  apply Hmax in H0.
  apply (Permutation_in _ (Permutation_sym P)) in Hin.
  destruct Hin as [<-|Hin]; [assumption|].
  cbn in Hh.
  assert ((tx_timestamp t <=? tx_timestamp t0) = true) as Hle.
  { apply Hh; [ intros a b E; lia | intros a b c E1 E2; lia | assumption ]. }
  lia.
Qed.

(** C5.  [determineSegment] on a score triple and its sum answers with the
    first rule that matches, in the order Champions, Loyal, At Risk, Lost,
    Potential.  A customer with 25 completed transactions that total 12000,
    the newest of them 5 days old, is scored (5, 5, 5), has RFM score 15 and
    the segment "Champions". *)
Theorem segment_rules_and_champion_scenario :
  (forall r f m : Z,
      1 <= r <= 5 -> 1 <= f <= 5 -> 1 <= m <= 5 ->
      FirstMatch r f m (RFM.determineSegment (r + f + m) r f m))
  /\ (forall (db : Database) (now customerId latest : Z),
         customerExists db customerId ->
         length (completedTransactions db customerId) = 25%nat ->
         (sumAmounts (completedTransactions db customerId) == 12000)%Q ->
         latestPurchaseAt db customerId latest ->
         daysBetween now latest = 5 ->
         exists a, RFM.calculateCustomerRFM db now customerId = Ok a
                   /\ RFM.recency_score a = 5
                   /\ RFM.frequency_score a = 5
                   /\ RFM.monetary_score a = 5
                   /\ RFM.rfm_score a = 15
                   /\ RFM.rfm_segment a = "Champions").
Proof.
  split.
  { intros r f m _ _ _. apply determineSegment_first_match. }
  intros db now customerId latest Hex Hlen Hsum Hlatest Hdays.
  destruct (findCustomerByPk_exists _ _ Hex) as [c Hc].
  unfold RFM.calculateCustomerRFM. rewrite Hc.
  pose proof (sortBy_perm (fun a b => tx_timestamp b <=? tx_timestamp a)
                (completedTransactions db customerId)) as P.
  fold (completedTransactionsDesc db customerId) in P.
  destruct (completedTransactionsDesc db customerId) as [|t0 rest] eqn:Hd.
  { apply Permutation_length in P. rewrite Hlen in P. discriminate. }
  rewrite (completedTransactionsDesc_head _ _ _ _ _ Hd Hlatest), Hdays.
  assert (len (t0 :: rest) = 25) as ->.
  { unfold len. apply Permutation_length in P. rewrite P, Hlen. reflexivity. }
  assert (RFM.calculateMonetaryScore (sumAmounts (t0 :: rest)) = 5) as Hm.
  { unfold RFM.calculateMonetaryScore.
    assert (Qle_bool 10000 (sumAmounts (t0 :: rest)) = true) as ->; [|reflexivity].
    apply Qle_bool_iff. rewrite (sumAmounts_perm _ _ P), Hsum. discriminate. }
  eexists. split; [reflexivity|]. cbn -[sumAmounts]. rewrite Hm.
  repeat split; reflexivity.
Qed.

Lemma all_before (ts : Z) (l : list Transaction) :
  forallb (fun t => tx_timestamp t <=? ts) l = true ->
  forall t, In t l -> tx_timestamp t <= ts.
Proof.
  intros H t Hin. rewrite forallb_forall in H. apply H in Hin. lia.
Qed.

Lemma zero_transaction_customer_witness :
  customerExists Sample.newcomer 1
  /\ completedTransactions Sample.newcomer 1 = []
  /\ exists r, RFM.calculateCustomerRFM Sample.newcomer 0 1 = Ok r
               /\ RFM.rfm_segment r = "Lost".
Proof.
  assert (customerExists Sample.newcomer 1) as Hex.
  { exists (Sample.customer 1). split; [left|]; reflexivity. }
  split; [exact Hex|]. split; [reflexivity|].
  destruct (zero_transaction_customer Sample.newcomer 0 1 Hex eq_refl)
    as [[r [Hr Hfields]] _].
  exists r. split; [exact Hr | apply Hfields].
Defined.

Lemma scorer_ranges_witness :
  customerExists Sample.regular 1
  /\ exists k, Churn.calculateChurnRisk Sample.regular (30 * Sample.day) 1 = Ok k
               /\ 0 <= Churn.churn_risk_score k <= 100.
Proof.
  assert (customerExists Sample.regular 1) as Hex.
  { exists (Sample.customer 1). split; [left|]; reflexivity. }
  split; [exact Hex|].
  exact (proj2 (proj2 (scorer_ranges Sample.regular (30 * Sample.day) 1 Hex))).
Defined.

Lemma segment_rules_and_champion_scenario_witness :
  FirstMatch 5 5 5 (RFM.determineSegment (5 + 5 + 5) 5 5 5)
  /\ exists a, RFM.calculateCustomerRFM Sample.regular (30 * Sample.day) 1 = Ok a
               /\ RFM.recency_score a = 5
               /\ RFM.frequency_score a = 5
               /\ RFM.monetary_score a = 5
               /\ RFM.rfm_score a = 15
               /\ RFM.rfm_segment a = "Champions".
Proof.
  destruct segment_rules_and_champion_scenario as [Hrules Hscenario].
  split.
  - apply Hrules; lia.
  - apply (Hscenario Sample.regular (30 * Sample.day) 1 (25 * Sample.day)).
    + exists (Sample.customer 1). split; [left|]; reflexivity.
    + reflexivity.
    + vm_compute. reflexivity.
    + split.
      * exists (Sample.purchase 25 1 10 480 (25 * Sample.day)).
        split; [|reflexivity]. vm_compute. tauto.
      * apply all_before. vm_compute. reflexivity.
    + reflexivity.
Defined.

(** ** The cache *)

Section CacheFacts.

Context {V : Type}.
Implicit Types (c : CacheService.Cache V) (m : gmap string (CacheService.MemEntry V)).

Lemma memSet_expiry_nonzero (now : Z) (ttl : Q) :
  0 <= now -> (0 < ttl)%Q ->
  Qeq_bool ttl 0 = false
  /\ Qeq_bool (inject_Z now + ttl * 1000) 0 = false.
Proof.
  intros Hnow Httl.
  assert ((0 < inject_Z now + ttl * 1000)%Q) as Hpos.
  { apply Qlt_le_trans with (ttl * 1000)%Q.
    - apply Qmult_lt_0_compat; [exact Httl | reflexivity].
    - rewrite <- (Qplus_0_l (ttl * 1000)) at 1.
      apply Qplus_le_compat; [|apply Qle_refl].
      change (inject_Z 0 <= inject_Z now)%Q. now rewrite <- Zle_Qle. }
  split.
  - destruct (Qeq_bool ttl 0) eqn:E; [|reflexivity].
    apply Qeq_bool_iff in E. rewrite E in Httl. now apply Qlt_irrefl in Httl.
  - destruct (Qeq_bool _ 0) eqn:E; [|reflexivity].
    apply Qeq_bool_iff in E. rewrite E in Hpos. now apply Qlt_irrefl in Hpos.
Qed.

Lemma memGet_memSet_live m (now t : Z) (ttl : Q) (key : string) (v : V) :
  0 <= now -> (0 < ttl)%Q -> (inject_Z t <= inject_Z now + ttl * 1000)%Q ->
  fst (CacheService.memGet t key (CacheService.memSet now key v ttl m)) = Some v.
Proof.
  intros Hnow Httl Ht. unfold CacheService.memGet, CacheService.memSet.
  rewrite lookup_insert_eq. unfold CacheService.expired. cbn.
  destruct (memSet_expiry_nonzero now ttl Hnow Httl) as [-> ->]. cbn.
  assert (Qltb (inject_Z now + ttl * 1000) (inject_Z t) = false) as ->.
  { destruct (Qltb _ _) eqn:E; [|reflexivity]. apply Qltb_lt in E.
    exfalso. eapply Qlt_not_le; eassumption. }
  reflexivity.
Qed.

Lemma memGet_memSet_expired m (now t : Z) (ttl : Q) (key : string) (v : V) :
  0 <= now -> (0 < ttl)%Q -> (inject_Z now + ttl * 1000 < inject_Z t)%Q ->
  CacheService.memGet t key (CacheService.memSet now key v ttl m)
  = (None, delete key m).
Proof.
  intros Hnow Httl Ht. unfold CacheService.memGet, CacheService.memSet.
  rewrite lookup_insert_eq. unfold CacheService.expired. cbn.
  destruct (memSet_expiry_nonzero now ttl Hnow Httl) as [-> ->]. cbn.
  rewrite (proj2 (Qltb_lt _ _) Ht). now rewrite delete_insert_eq.
Qed.

Lemma memoryCache_set (dbOk : bool) (now : Z) (key : string) (v : V)
  (ttlHours : Q) (ty : string) c :
  CacheService.memoryCache (snd (CacheService.set dbOk now key v ttlHours ty c))
  = CacheService.memSet now key v (ttlHours * 3600) (CacheService.memoryCache c).
Proof. unfold CacheService.set. now destruct dbOk. Qed.

Lemma analyticsCache_set_ok (now : Z) (key : string) (v : V)
  (ttlHours : Q) (ty : string) c :
  CacheService.analyticsCache
    (snd (CacheService.set true now key v ttlHours ty c)) !! key
  = Some {| CacheService.cache_value := v;
            CacheService.cache_type := ty;
            CacheService.expires_at :=
              CacheService.dateOf (inject_Z now + ttlHours * 3600 * 1000) |}.
Proof. unfold CacheService.set. cbn. apply lookup_insert_eq. Qed.

End CacheFacts.

(** The round trip in the state that [set] leaves.  After [set(k, v, ttl)]
    with a positive [ttl], a [get(k)] made before the entry's expiry, at once
    in particular, returns [v]; a [get(k)] made on that state after the [ttl]
    has elapsed returns nothing: the fast tier drops the entry and the
    durable tier's row is past its [expires_at]. *)
Theorem cache_round_trip {V : Type} (c : CacheService.Cache V)
  (k : string) (v : V) (ttlHours : Q) (now : Z) (ty : string) :
  (0 < ttlHours)%Q ->
  0 <= now ->
  (forall (setOk getOk : bool) (t : Z),
      (inject_Z t <= inject_Z now + ttlHours * 3600 * 1000)%Q ->
      fst (CacheService.get getOk t k
             (snd (CacheService.set setOk now k v ttlHours ty c)))
      = Some v)
  /\ (forall (getOk : bool) (t : Z),
         (inject_Z now + ttlHours * 3600 * 1000 < inject_Z t)%Q ->
         fst (CacheService.get getOk t k
                (snd (CacheService.set true now k v ttlHours ty c)))
         = None).
Proof.
  intros Httl Hnow.
  assert ((0 < ttlHours * 3600)%Q) as Hsec.
  { apply Qmult_lt_0_compat; [exact Httl | reflexivity]. }
  split.
  - intros setOk getOk t Ht. unfold CacheService.get.
    rewrite memoryCache_set.
    pose proof (memGet_memSet_live (CacheService.memoryCache c) now t
                  (ttlHours * 3600) k v Hnow Hsec Ht) as Hlive.
    destruct (CacheService.memGet t k _) as [[w|] m']; cbn in *.
    + now injection Hlive as ->.
    + discriminate.
  - intros getOk t Ht. unfold CacheService.get.
    rewrite memoryCache_set, memGet_memSet_expired by assumption.
    destruct getOk; [|reflexivity].
    rewrite analyticsCache_set_ok. cbn [CacheService.expires_at].
    assert ((t <=? CacheService.dateOf
                     (inject_Z now + ttlHours * 3600 * 1000)) = false) as ->;
      [|reflexivity].
    apply Z.leb_gt. unfold CacheService.dateOf.
    rewrite Zlt_Qlt. eapply Qle_lt_trans; [apply Qfloor_le | exact Ht].
Qed.

Lemma cache_round_trip_witness :
  fst (CacheService.get true 1000 "customer:7:rfm"
         (snd (CacheService.set true 1000 "customer:7:rfm" 42 24 "rfm"
                 CacheService.empty)))
  = Some 42
  /\ fst (CacheService.get true (1000 + 24 * 3600 * 1000 + 1) "customer:7:rfm"
            (snd (CacheService.set true 1000 "customer:7:rfm" 42 24 "rfm"
                    CacheService.empty)))
     = None.
Proof.
  destruct (cache_round_trip (V := Z) CacheService.empty "customer:7:rfm" 42
              24 1000 "rfm") as [Hlive Hgone]; [reflexivity | lia |].
  split.
  - apply Hlive. discriminate.
  - apply Hgone. reflexivity.
Defined.

(** C7.  An expired entry can be returned.  [get] gives the fast tier the
    remaining time of a durable row as [Math.floor(remaining / 1000)]
    seconds; within the last second that is 0, which the fast tier reads as
    "no expiry".  In the sample the entry is stored at instant 0 for 24
    hours and the fast tier is then flushed, the durable row staying; a
    [get] half a second before the expiry returns the value, as it should;
    and a [get] made a day after the expiry returns the value still,
    whether or not the durable tier can be reached. *)
Theorem expired_entry_returned_after_late_durable_hit :
  CacheService.memoryCache SampleCache.flushed !! SampleCache.key = None
  /\ CacheService.expires_at
       <$> CacheService.analyticsCache SampleCache.flushed !! SampleCache.key
     = Some SampleCache.expiry
  /\ fst SampleCache.lateHit = Some 42
  /\ fst (CacheService.get true (SampleCache.expiry + 24 * 3600 * 1000)
            SampleCache.key (snd SampleCache.lateHit))
     = Some 42
  /\ fst (CacheService.get false (SampleCache.expiry + 24 * 3600 * 1000)
            SampleCache.key (snd SampleCache.lateHit))
     = Some 42.
Proof. repeat split; vm_compute; reflexivity. Qed.

(** ** The batch runs *)

Section BatchFacts.

Variables (computeFails persistFails : Z -> bool) (nowOf : Z -> Z).

Local Abbreviation clvStep := (Batch.clvStep computeFails persistFails nowOf).
Local Abbreviation clvItem := (Batch.clvItem computeFails persistFails nowOf).

(** The loop never lowers [processed], and no value is added while nothing
    is processed. *)
Lemma clv_loop_processed (l : list Customer) (db : Database) (p nf : Z) (v : Q) :
  0 <= p ->
  (p = 0 -> v = 0%Q) ->
  let '(_, p', nf', v') := fold_left clvStep l (db, p, nf, v) in
  0 <= p' /\ (p' = 0 -> v' = 0%Q) /\ p' + nf' = p + nf + len l.
Proof.
  revert db p nf v. induction l as [|c l IH]; intros db p nf v Hp Hv.
  - cbn. unfold len. cbn. repeat split; [assumption.. | lia].
  - cbn [fold_left]. unfold Batch.clvStep at 2.
    destruct (clvItem db (cust_id c)) as [[clvData|e] db1].
    + specialize (IH db1 (p + 1) nf (v + CLV.clv_predicted clvData)%Q).
      destruct (fold_left clvStep l _) as [[[db' p'] nf'] v'].
      destruct IH as (H1 & H2 & H3); [lia | lia |].
      repeat split; try assumption. unfold len in *. cbn [length].
      rewrite Nat2Z.inj_succ. lia.
    + specialize (IH db1 p (nf + 1) v).
      destruct (fold_left clvStep l _) as [[[db' p'] nf'] v'].
      destruct IH as (H1 & H2 & H3); [assumption | assumption |].
      repeat split; try assumption. unfold len in *. cbn [length].
      rewrite Nat2Z.inj_succ. lia.
Qed.

Lemma clvItem_err_store (db : Database) (id : Z) (e : Error) :
  fst (clvItem db id) = Err e -> snd (clvItem db id) = db.
Proof.
  unfold Batch.clvItem. destruct (computeFails id); [reflexivity|].
  destruct (CLV.calculateCustomerCLV db (nowOf id) id); [|reflexivity].
  destruct (persistFails id); [reflexivity | discriminate].
Qed.

Lemma clv_loop_all_fail (l : list Customer) (db : Database) (p nf : Z) (v : Q) :
  (forall c, In c l -> exists e, fst (clvItem db (cust_id c)) = Err e) ->
  fold_left clvStep l (db, p, nf, v) = (db, p, nf + len l, v).
Proof.
  revert nf. induction l as [|c l IH]; intros nf Hall.
  - cbn. unfold len. cbn. now rewrite Z.add_0_r.
  - cbn [fold_left]. unfold Batch.clvStep at 2.
    destruct (Hall c (or_introl eq_refl)) as [e He].
    pose proof (clvItem_err_store _ _ _ He) as Hs.
    destruct (clvItem db (cust_id c)) as [[clvData|e'] db1]; cbn in He, Hs;
      [discriminate|]. subst db1.
    rewrite IH by (intros c' Hc'; apply Hall; now right).
    rewrite len_cons. now replace (nf + (1 + len l)) with (nf + 1 + len l) by lia.
Qed.

End BatchFacts.

(** C10.  [calculateAllCustomersCLV] divides [total_predicted_value] by
    [processed] without a guard.  When no customer was processed (an empty
    population, or every item failing) the division is 0 / 0 and [avg_clv] is
    not a number; [avg_clv] is the quotient exactly when at least one customer
    was processed. *)
Theorem avg_clv_division (computeFails persistFails : Z -> bool)
  (nowOf : Z -> Z) (db : Database) :
  exists summary db',
    Batch.calculateAllCustomersCLV false computeFails persistFails nowOf db
    = (Ok summary, db')
    /\ 0 <= Batch.clv_processed summary
    /\ (customers db = [] -> Batch.clv_processed summary = 0)
    /\ ((forall c, In c (customers db) ->
           exists e, fst (Batch.clvItem computeFails persistFails nowOf db
                            (cust_id c)) = Err e) ->
        Batch.clv_processed summary = 0)
    /\ (Batch.clv_processed summary = 0 ->
        Batch.total_predicted_value summary = 0%Q
        /\ Batch.avg_clv summary = NaN)
    /\ (0 < Batch.clv_processed summary ->
        Batch.avg_clv summary
        = Finite (Batch.total_predicted_value summary
                  / inject_Z (Batch.clv_processed summary))).
Proof.
  unfold Batch.calculateAllCustomersCLV.
  pose proof (clv_loop_processed computeFails persistFails nowOf
                (customers db) db 0 0 0%Q) as Hloop.
  pose proof (clv_loop_all_fail computeFails persistFails nowOf
                (customers db) db 0 0 0%Q) as Hfail.
  destruct (fold_left _ (customers db) _) as [[[db' p'] nf'] v'].
  destruct Hloop as (Hp & Hv & _); [lia | reflexivity |].
  do 2 eexists. split; [reflexivity|]. cbn.
  assert ((forall c, In c (customers db) ->
             exists e, fst (Batch.clvItem computeFails persistFails nowOf db
                              (cust_id c)) = Err e) -> p' = 0) as Hzero.
  { intros Hall. specialize (Hfail Hall). congruence. }
  split; [assumption|]. split.
  { intros E. apply Hzero. intros c Hin. rewrite E in Hin. destruct Hin. }
  split; [exact Hzero|]. split.
  { intros ->. rewrite (Hv eq_refl). split; reflexivity. }
  intros Hpos. unfold jsDivide. destruct (p' =? 0) eqn:E; [lia|]. reflexivity.
Qed.

Lemma avg_clv_division_witness :
  exists summary db',
    Batch.calculateAllCustomersCLV false (fun _ => true) (fun _ => false)
                                   (fun _ => 0) Sample.regular
    = (Ok summary, db')
    /\ Batch.clv_processed summary = 0
    /\ Batch.avg_clv summary = NaN.
Proof.
  destruct (avg_clv_division (fun _ => true) (fun _ => false) (fun _ => 0)
              Sample.regular)
    as (summary & db' & Hrun & _ & _ & Hfail & Hnan & _).
  exists summary, db'. split; [exact Hrun|].
  assert (Batch.clv_processed summary = 0) as Hzero.
  { apply Hfail. intros c _. exists Upstream. reflexivity. }
  split; [exact Hzero | apply Hnan, Hzero].
Defined.

Lemma countIf_cons {A : Type} (f : A -> bool) (x : A) (l : list A) :
  countIf f (x :: l) = (if f x then 1 else 0) + countIf f l.
Proof.
  unfold countIf, len. cbn [List.filter]. destruct (f x); cbn [length]; lia.
Qed.

Lemma countIf_nonneg {A : Type} (f : A -> bool) (l : list A) : 0 <= countIf f l.
Proof. unfold countIf, len. lia. Qed.

Lemma calculateCustomerRFM_ledger (db db' : Database) (now id : Z) :
  customers db' = customers db ->
  transactions db' = transactions db ->
  RFM.calculateCustomerRFM db' now id = RFM.calculateCustomerRFM db now id.
Proof.
  intros Hc Ht.
  unfold RFM.calculateCustomerRFM, findCustomerByPk, completedTransactionsDesc,
    completedTransactions.
  now rewrite Hc, Ht.
Qed.

Lemma calculateCustomerRFM_customer_id (db : Database) (now id : Z)
  (a : RFM.Analysis) :
  RFM.calculateCustomerRFM db now id = Ok a -> RFM.customer_id a = id.
Proof.
  unfold RFM.calculateCustomerRFM.
  destruct (findCustomerByPk db id); [|discriminate].
  destruct (completedTransactionsDesc db id); intros [= <-]; reflexivity.
Qed.

Lemma determineSegment_named (s r f m : Z) :
  In (RFM.determineSegment s r f m) segmentNames.
Proof.
  unfold RFM.determineSegment, segmentNames.
  repeat match goal with |- context [if ?b then _ else _] => destruct b end;
    cbn; tauto.
Qed.

Lemma calculateCustomerRFM_segment_named (db : Database) (now id : Z)
  (a : RFM.Analysis) :
  RFM.calculateCustomerRFM db now id = Ok a ->
  In (RFM.rfm_segment a) segmentNames.
Proof.
  unfold RFM.calculateCustomerRFM.
  destruct (findCustomerByPk db id); [|discriminate].
  destruct (completedTransactionsDesc db id); intros [= <-]; cbn [RFM.rfm_segment].
  - cbn. tauto.
  - apply determineSegment_named.
Qed.

(** *** Reading an analytics record back after an upsert *)

Lemma find_replace_same (id : Z) (g : CustomerAnalytics -> CustomerAnalytics)
  (l : list CustomerAnalytics) :
  (forall a, ca_customer_id (g a) = id) ->
  List.find (fun a => ca_customer_id a =? id)
            (List.map (fun a => if ca_customer_id a =? id then g a else a) l)
  = option_map g (List.find (fun a => ca_customer_id a =? id) l).
Proof.
  intros Hg. induction l as [|x l IH]; [reflexivity|]. cbn.
  destruct (ca_customer_id x =? id) eqn:E; cbn.
  - now rewrite Hg, Z.eqb_refl.
  - now rewrite E.
Qed.

Lemma find_replace_other (id id' : Z)
  (g : CustomerAnalytics -> CustomerAnalytics) (l : list CustomerAnalytics) :
  id <> id' ->
  (forall a, ca_customer_id (g a) = id) ->
  List.find (fun a => ca_customer_id a =? id')
            (List.map (fun a => if ca_customer_id a =? id then g a else a) l)
  = List.find (fun a => ca_customer_id a =? id') l.
Proof.
  intros Hne Hg. induction l as [|x l IH]; [reflexivity|]. cbn.
  destruct (ca_customer_id x =? id) eqn:E.
  - rewrite Hg. destruct (id =? id') eqn:E1; [lia|].
    destruct (ca_customer_id x =? id') eqn:E2; [lia|]. exact IH.
  - destruct (ca_customer_id x =? id'); [reflexivity | exact IH].
Qed.

Lemma find_app_last {A : Type} (f : A -> bool) (l : list A) (x : A) :
  List.find f (l ++ [x])
  = match List.find f l with
    | Some y => Some y
    | None => if f x then Some x else None
    end.
Proof.
  induction l as [|y l IH]; cbn.
  - reflexivity.
  - destruct (f y); [reflexivity | exact IH].
Qed.

Lemma upsertRFM_recorded (db : Database) (now : Z) (a : RFM.Analysis) :
  recorded (Batch.upsertRFM db now a) now a.
Proof.
  unfold recorded, Batch.upsertRFM. cbn. apply in_or_app. right. now left.
Qed.

Lemma upsertRFM_recorded_before (db : Database) (now t : Z)
  (a b : RFM.Analysis) :
  recorded db t a ->
  recorded (Batch.upsertRFM db now b) t a.
Proof.
  unfold recorded, Batch.upsertRFM. cbn. intros H. apply in_or_app. now left.
Qed.

Section RfmBatchFacts.

Variables (computeFails persistFails : Z -> bool) (nowOf : Z -> Z).
Variable db0 : Database.

Local Abbreviation rfmStep := (Batch.rfmStep computeFails persistFails nowOf).
Local Abbreviation rfmItem := (Batch.rfmItem computeFails persistFails nowOf).

Local Abbreviation outcome := (rfmOutcome computeFails persistFails nowOf db0).
Local Abbreviation okC := (itemOk computeFails persistFails nowOf db0).
Local Abbreviation errC := (itemFailed computeFails persistFails nowOf db0).
Local Abbreviation segC := (itemInSegment computeFails persistFails nowOf db0).

Lemma rfmItem_outcome (db : Database) (id : Z) :
  customers db = customers db0 ->
  transactions db = transactions db0 ->
  fst (rfmItem db id) = outcome id.
Proof.
  intros Hc Ht. unfold rfmOutcome, Batch.rfmItem.
  rewrite (calculateCustomerRFM_ledger db0 db _ _ Hc Ht).
  destruct (computeFails id); [reflexivity|].
  destruct (RFM.calculateCustomerRFM db0 (nowOf id) id); [|reflexivity].
  destruct (persistFails id); reflexivity.
Qed.

Lemma rfmItem_ledger (db : Database) (id : Z) :
  customers (snd (rfmItem db id)) = customers db
  /\ transactions (snd (rfmItem db id)) = transactions db.
Proof.
  unfold Batch.rfmItem. destruct (computeFails id); [now split|].
  destruct (RFM.calculateCustomerRFM db (nowOf id) id) as [a|]; [|now split].
  destruct (persistFails id); now split.
Qed.

Lemma rfmItem_store_err (db : Database) (id : Z) (e : Error) :
  fst (rfmItem db id) = Err e -> snd (rfmItem db id) = db.
Proof.
  unfold Batch.rfmItem. destruct (computeFails id); [reflexivity|].
  destruct (RFM.calculateCustomerRFM db (nowOf id) id); [|reflexivity].
  destruct (persistFails id); [reflexivity | discriminate].
Qed.

Lemma rfmItem_store_ok (db : Database) (id : Z) (a : RFM.Analysis) :
  fst (rfmItem db id) = Ok a ->
  snd (rfmItem db id) = Batch.upsertRFM db (nowOf id) a
  /\ RFM.customer_id a = id
  /\ In (RFM.rfm_segment a) segmentNames.
Proof.
  unfold Batch.rfmItem. destruct (computeFails id); [discriminate|].
  destruct (RFM.calculateCustomerRFM db (nowOf id) id) as [b|] eqn:Hb;
    [|discriminate].
  destruct (persistFails id); [discriminate|]. intros [= ->].
  split; [reflexivity|]. split.
  - eapply calculateCustomerRFM_customer_id; eassumption.
  - eapply calculateCustomerRFM_segment_named; eassumption.
Qed.

(** The counters after the loop, and the store it leaves. *)
Lemma rfm_loop (l : list Customer) :
  forall (db : Database) (p : Z) (res : Batch.RFMSummary) (P : Z -> Prop),
    customers db = customers db0 ->
    transactions db = transactions db0 ->
    (forall id a, P id -> outcome id = Ok a -> recorded db (nowOf id) a) ->
    exists db' p' res' added,
      fold_left rfmStep l (db, p, res) = (db', p', res')
      /\ p' = p + countIf okC l
      /\ Batch.rfm_failed res' = Batch.rfm_failed res + countIf errC l
      /\ Batch.rfm_total res' = Batch.rfm_total res
      /\ (forall s, Batch.segments res' !! s
                    = (fun n => n + countIf (segC s) l)
                        <$> Batch.segments res !! s)
      /\ (forall id a, P id \/ In id (List.map cust_id l) ->
                       outcome id = Ok a -> recorded db' (nowOf id) a)
      /\ customer_analytics db' = customer_analytics db ++ added
      /\ len added = countIf okC l.
Proof.
  induction l as [|c l IH]; intros db p res P Hc Ht Hrec.
  - exists db, p, res, []. cbn. unfold countIf, len. cbn.
    split; [reflexivity|]. split; [lia|]. split; [lia|]. split; [reflexivity|].
    split; [|split; [|split; [now rewrite app_nil_r | reflexivity]]].
    + intros s. destruct (Batch.segments res !! s); cbn; [f_equal; lia|reflexivity].
    + intros id a [HP|[]] Ho. now apply Hrec.
  - cbn [fold_left]. unfold Batch.rfmStep at 2.
    pose proof (rfmItem_outcome db (cust_id c) Hc Ht) as Hout.
    pose proof (rfmItem_ledger db (cust_id c)) as [Hc1 Ht1].
    pose proof (rfmItem_store_err db (cust_id c)) as Herr.
    pose proof (rfmItem_store_ok db (cust_id c)) as Hok.
    destruct (rfmItem db (cust_id c)) as [[a|e] db1]; cbn in Hout, Hc1, Ht1, Herr, Hok.
    + destruct (Hok a eq_refl) as (-> & Hid & Hnamed). clear Herr Hok.
      match goal with
      | |- context [fold_left _ l (?d, ?q, ?r)] =>
          destruct (IH d q r (fun id => P id \/ id = cust_id c)) as
            (db' & p' & res' & added & Hfold & Hp & Hf & Htot & Hseg & Hrec'
             & Hrows & Hadded)
      end; [congruence | congruence | |].
      { intros id b [HP| ->] Ho.
        - apply upsertRFM_recorded_before. now apply Hrec.
        - assert (b = a) as -> by congruence. apply upsertRFM_recorded. }
      exists db', p', res',
        (Batch.rfmRow (nowOf (cust_id c)) a :: added).
      split; [exact Hfold|].
      rewrite !countIf_cons. unfold itemOk at 1, itemFailed at 1. rewrite <- Hout. cbn.
      split; [lia|]. split; [cbn in Hf; lia|]. split; [exact Htot|].
      split; [|split; [|split]].
      * intros s. rewrite Hseg. cbn [Batch.segments].
        rewrite lookup_alter, countIf_cons.
        assert (segC s c = String.eqb (RFM.rfm_segment a) s) as ->
            by (unfold itemInSegment; now rewrite <- Hout).
        destruct (decide (RFM.rfm_segment a = s)) as [->|Hne].
        -- rewrite String.eqb_refl.
           destruct (Batch.segments res !! s); cbn; [f_equal; lia | reflexivity].
        -- apply String.eqb_neq in Hne. rewrite Hne.
           destruct (Batch.segments res !! s); cbn; [f_equal; lia | reflexivity].
      * intros id b [HP|[<-|Hin]] Ho; (apply Hrec'; [|exact Ho]).
        -- left. now left.
        -- left. now right.
        -- now right.
      * rewrite Hrows. unfold Batch.upsertRFM. cbn.
        now rewrite <- app_assoc.
      * rewrite len_cons, Hadded. unfold itemOk at 2. rewrite <- Hout. cbn.
        lia.
    + rewrite (Herr e eq_refl) in *. clear Herr Hok.
      match goal with
      | |- context [fold_left _ l (?d, ?q, ?r)] =>
          destruct (IH d q r P) as
            (db' & p' & res' & added & Hfold & Hp & Hf & Htot & Hseg & Hrec'
             & Hrows & Hadded)
      end; [assumption | assumption | assumption |].
      exists db', p', res', added. split; [exact Hfold|].
      rewrite !countIf_cons. unfold itemOk at 1, itemFailed at 1. rewrite <- Hout. cbn.
      split; [lia|]. split; [cbn in Hf; lia|]. split; [exact Htot|].
      split; [|split; [|split]].
      * intros s. rewrite Hseg. cbn [Batch.segments]. rewrite countIf_cons.
        assert (segC s c = false) as ->
            by (unfold itemInSegment; now rewrite <- Hout).
        destruct (Batch.segments res !! s); cbn; [f_equal; lia | reflexivity].
      * intros id b [HP|[<-|Hin]] Ho.
        -- apply Hrec'; [now left | assumption].
        -- congruence.
        -- apply Hrec'; [now right | assumption].
      * exact Hrows.
      * rewrite Hadded. unfold itemOk at 2. rewrite <- Hout. cbn. lia.
Qed.

(** Every processed customer is counted in exactly one segment. *)
Lemma okC_by_segment (l : list Customer) :
  countIf okC l
  = countIf (segC "Champions") l + countIf (segC "Loyal") l
    + countIf (segC "Potential") l + countIf (segC "At Risk") l
    + countIf (segC "Lost") l.
Proof.
  induction l as [|c l IH]; [reflexivity|].
  rewrite !countIf_cons, IH.
  assert (forall s, segC s c = inSegment s (fst (rfmItem db0 (cust_id c))))
    as Hs by reflexivity.
  assert (okC c = isOk (fst (rfmItem db0 (cust_id c)))) as Ho by reflexivity.
  rewrite !Hs, Ho.
  destruct (fst (rfmItem db0 (cust_id c))) as [a|e] eqn:E;
    cbn [isOk inSegment]; [|lia].
  destruct (rfmItem_store_ok db0 (cust_id c) a E) as (_ & _ & Hnamed).
  unfold segmentNames in Hnamed. cbn in Hnamed.
  destruct Hnamed as [<-|[<-|[<-|[<-|[<-|[]]]]]]; cbn; lia.
Qed.

End RfmBatchFacts.

Lemma countIf_negb {A : Type} (f : A -> bool) (l : list A) :
  countIf f l + countIf (fun x => negb (f x)) l = len l.
Proof.
  induction l as [|x l IH]; [reflexivity|].
  rewrite !countIf_cons. unfold len in *. cbn [length].
  rewrite Nat2Z.inj_succ. destruct (f x); cbn; lia.
Qed.

Lemma initialSegments_named (s : string) :
  In s segmentNames -> Batch.initialSegments !! s = Some 0.
Proof.
  unfold segmentNames. cbn.
  intros [<-|[<-|[<-|[<-|[<-|[]]]]]]; reflexivity.
Qed.

Lemma initialSegments_other (s : string) :
  ~ In s segmentNames -> Batch.initialSegments !! s = None.
Proof.
  intros Hs. apply not_elem_of_list_to_map_1. rewrite list_elem_of_In. exact Hs.
Qed.


(** ** The aggregate queries of the recommendation engine *)

Lemma firstn_In_incl {A : Type} (n : nat) (l : list A) (x : A) :
  In x (firstn n l) -> In x l.
Proof.
  revert l. induction n as [|n IH]; intros [|y l]; cbn; try tauto.
  intros [->|H]; [now left | right; now apply IH].
Qed.

Lemma firstn_NoDup {A : Type} (n : nat) (l : list A) :
  List.NoDup l -> List.NoDup (firstn n l).
Proof.
  revert l. induction n as [|n IH]; intros [|y l] H; cbn; try constructor.
  - inversion H; subst. intros Hin. apply firstn_In_incl in Hin. contradiction.
  - inversion H; subst. now apply IH.
Qed.

Lemma firstn_length_le {A : Type} (n : nat) (l : list A) :
  (length (firstn n l) <= n)%nat.
Proof.
  revert l. induction n as [|n IH]; intros [|y l]; cbn; try lia.
  specialize (IH l). lia.
Qed.

Lemma NoDup_map_filter {A B : Type} (f : A -> B) (p : A -> bool) (l : list A) :
  List.NoDup (List.map f l) -> List.NoDup (List.map f (List.filter p l)).
Proof.
  induction l as [|x l IH]; cbn; intros H; [constructor|].
  inversion H; subst. destruct (p x); cbn; [|now apply IH].
  constructor; [|now apply IH].
  intros Hin. apply in_map_iff in Hin. destruct Hin as (y & Hy & Hin).
  apply filter_In in Hin. destruct Hin as [Hin _].
  match goal with H : ~ In (f x) _ |- _ => apply H end.
  apply in_map_iff. now exists y.
Qed.

Lemma NoDup_map_eq {A B : Type} (f : A -> B) (l : list A) (x y : A) :
  List.NoDup (List.map f l) -> In x l -> In y l -> f x = f y -> x = y.
Proof.
  induction l as [|z l IH]; cbn; [tauto|].
  intros H Hx Hy E. inversion H; subst.
  destruct Hx as [->|Hx], Hy as [->|Hy]; try reflexivity.
  - exfalso. match goal with H : ~ In _ _ |- _ => apply H end.
    rewrite E. now apply in_map.
  - exfalso. match goal with H : ~ In _ _ |- _ => apply H end.
    rewrite <- E. now apply in_map.
  - now apply IH.
Qed.

Lemma memberZ_In (x : Z) (l : list Z) : Recommend.memberZ x l = true <-> In x l.
Proof.
  unfold Recommend.memberZ. rewrite existsb_exists. split.
  - intros (y & Hy & E). apply Z.eqb_eq in E. now subst.
  - intros H. exists x. split; [assumption | apply Z.eqb_refl].
Qed.

Lemma memberZ_not_In (x : Z) (l : list Z) :
  Recommend.memberZ x l = false <-> ~ In x l.
Proof.
  rewrite <- memberZ_In. destruct (Recommend.memberZ x l); split; congruence.
Qed.

(** *** [GROUP BY] with [COUNT] *)

Lemma bumpCount_keys (pid p : Z) (groups : list (Z * Z)) :
  In p (List.map fst (Recommend.bumpCount pid groups))
  <-> p = pid \/ In p (List.map fst groups).
Proof.
  induction groups as [|[q n] groups IH]; cbn.
  - intuition.
  - destruct (q =? pid) eqn:E; cbn.
    + apply Z.eqb_eq in E. subst. intuition.
    + rewrite IH. intuition.
Qed.

Lemma bumpCount_good (pid : Z) (groups : list (Z * Z)) :
  goodGroups groups -> goodGroups (Recommend.bumpCount pid groups).
Proof.
  unfold goodGroups. induction groups as [|[q n] groups IH]; cbn.
  - intros _. split; [repeat constructor; tauto|].
    intros g [<-|[]]. cbn. lia.
  - intros [Hnd Hpos]. inversion Hnd; subst.
    destruct (q =? pid) eqn:E; cbn.
    + split; [assumption|]. intros g [<-|Hg]; cbn.
      * specialize (Hpos (q, n) (or_introl eq_refl)). cbn in Hpos. lia.
      * apply Hpos. now right.
    + destruct IH as [IH1 IH2].
      { split; [assumption|]. intros g Hg. apply Hpos. now right. }
      split.
      * constructor; [|assumption]. rewrite bumpCount_keys.
        intros [->|Hin]; [lia | contradiction].
      * intros g [<-|Hg]; [apply (Hpos (q, n)); now left | now apply IH2].
Qed.

Lemma countOf_bumpCount (pid p : Z) (groups : list (Z * Z)) :
  countOf p (Recommend.bumpCount pid groups)
  = countOf p groups + (if p =? pid then 1 else 0).
Proof.
  unfold countOf. induction groups as [|[q n] groups IH]; cbn.
  - rewrite (Z.eqb_sym pid p). destruct (p =? pid); reflexivity.
  - destruct (q =? pid) eqn:E; cbn.
    + apply Z.eqb_eq in E. subst q. rewrite (Z.eqb_sym pid p).
      destruct (p =? pid); cbn; lia.
    + destruct (q =? p) eqn:E1; cbn.
      * apply Z.eqb_eq in E1. subst q. rewrite E. lia.
      * exact IH.
Qed.

Lemma rowsOf_cons (p : Z) (t : Transaction) (rows : list Transaction) :
  rowsOf p (t :: rows)
  = if tx_product_id t =? p then t :: rowsOf p rows else rowsOf p rows.
Proof. reflexivity. Qed.

Lemma countByProduct_from (rows : list Transaction) (groups : list (Z * Z)) :
  goodGroups groups ->
  goodGroups (fold_left (fun g t => Recommend.bumpCount (tx_product_id t) g)
                        rows groups)
  /\ forall p,
      countOf p (fold_left (fun g t => Recommend.bumpCount (tx_product_id t) g)
                           rows groups)
      = countOf p groups + len (rowsOf p rows).
Proof.
  revert groups. induction rows as [|t rows IH]; intros groups Hg;
    cbn [fold_left].
  - split; [assumption|]. intros p. unfold len. cbn. lia.
  - destruct (IH _ (bumpCount_good (tx_product_id t) _ Hg)) as [H1 H2].
    split; [assumption|]. intros p.
    rewrite H2, countOf_bumpCount, rowsOf_cons, (Z.eqb_sym p).
    destruct (tx_product_id t =? p); [rewrite len_cons|]; lia.
Qed.

Lemma countOf_In (groups : list (Z * Z)) (g : Z * Z) :
  List.NoDup (List.map fst groups) -> In g groups -> countOf (fst g) groups = snd g.
Proof.
  intros Hnd Hin. unfold countOf.
  destruct (List.find (fun x => fst x =? fst g) groups) as [g'|] eqn:Hf.
  - apply find_some in Hf. destruct Hf as [Hin' E]. apply Z.eqb_eq in E.
    now rewrite (NoDup_map_eq fst groups g' g Hnd Hin' Hin E).
  - apply (find_none _ _ Hf) in Hin. rewrite Z.eqb_refl in Hin. discriminate.
Qed.

(** A group of [countByProduct] holds the number of rows of its product,
    which is at least one. *)
Lemma countByProduct_spec (rows : list Transaction) (g : Z * Z) :
  In g (Recommend.countByProduct rows) ->
  snd g = len (rowsOf (fst g) rows) /\ 1 <= snd g.
Proof.
  intros Hin. unfold Recommend.countByProduct in *.
  destruct (countByProduct_from rows []) as [[Hnd Hpos] Hcount].
  { split; [constructor | intros ? []]. }
  split; [|now apply Hpos].
  rewrite <- (countOf_In _ g Hnd Hin), Hcount. reflexivity.
Qed.

Lemma countByProduct_NoDup (rows : list Transaction) :
  List.NoDup (List.map fst (Recommend.countByProduct rows)).
Proof.
  unfold Recommend.countByProduct.
  destruct (countByProduct_from rows []) as [[Hnd _] _]; [|assumption].
  split; [constructor | intros ? []].
Qed.

(** *** [ORDER BY ... LIMIT] *)

Lemma topByCount_spec (limit : Z) (groups top : list (Z * Z)) :
  Recommend.topByCount limit groups = Some top ->
  0 <= limit
  /\ (forall g, In g top -> In g groups)
  /\ (List.NoDup (List.map fst groups) -> List.NoDup (List.map fst top))
  /\ len top <= limit.
Proof.
  unfold Recommend.topByCount. destruct (limit <? 0) eqn:E; [discriminate|].
  intros [= <-]. split; [lia|]. split; [|split].
  - intros g Hin. apply firstn_In_incl in Hin.
    eapply Permutation_in; [apply sortBy_perm | exact Hin].
  - intros Hnd. rewrite <- firstn_map. apply firstn_NoDup.
    eapply Permutation_NoDup; [|exact Hnd].
    apply Permutation_map, Permutation_sym, sortBy_perm.
  - unfold len. pose proof (firstn_length_le (Z.to_nat limit)
                              (sortBy (fun a b => snd b <=? snd a) groups)). lia.
Qed.

(** *** Scoring the products that are in stock *)

Lemma traverse_spec {A B : Type} (f : A -> option B) (l : list A) (r : list B) :
  Recommend.traverse f l = Some r ->
  Forall2 (fun x y => f x = Some y) l r.
Proof.
  revert r. induction l as [|x l IH]; cbn; intros r.
  - intros [= <-]. constructor.
  - destruct (f x) as [y|] eqn:E; [|discriminate].
    destruct (Recommend.traverse f l) as [ys|]; [|discriminate].
    intros [= <-]. constructor; [assumption | now apply IH].
Qed.

Lemma Forall2_In_r {A B : Type} (R : A -> B -> Prop) (l : list A) (r : list B)
  (y : B) :
  Forall2 R l r -> In y r -> exists x, In x l /\ R x y.
Proof.
  induction 1 as [|x y' l r HR _ IH]; cbn; [tauto|].
  intros [->|Hin].
  - exists x. split; [now left | assumption].
  - destruct (IH Hin) as (x' & Hx' & HR'). exists x'. split; [now right | assumption].
Qed.

Lemma scoreProducts_products (counts : list (Z * Z)) (ty why : string)
  (ps : list Product) (recs : list Recommend.Scored) :
  Recommend.scoreProducts counts ty why ps = Some recs ->
  List.map Recommend.product recs = ps.
Proof.
  intros H. apply traverse_spec in H.
  induction H as [|p rec ps recs Hp _ IH]; cbn; [reflexivity|].
  rewrite IH. f_equal.
  destruct (List.find _ counts); [|discriminate]. now injection Hp as <-.
Qed.

Lemma inStockProducts_spec (db : Database) (ids : list Z) (p : Product) :
  In p (Recommend.inStockProducts db ids) <->
  In p (products db) /\ In (prod_id p) ids /\ 0 < prod_stock_quantity p.
Proof.
  unfold Recommend.inStockProducts. rewrite filter_In, andb_true_iff, memberZ_In.
  rewrite Z.ltb_lt. tauto.
Qed.

(** What the common tail of the three sub-algorithms returns: products of the
    catalogue that are in stock, each with the number of [rows] of that
    product as its score. *)
Lemma rankCandidates_spec (db : Database) (rows : list Transaction)
  (limit : Z) (ty why : string) (rec : Recommend.Scored) :
  In rec (Recommend.rankCandidates db rows limit ty why) ->
  In (Recommend.product rec) (products db)
  /\ 0 < prod_stock_quantity (Recommend.product rec)
  /\ Recommend.score rec
     = inject_Z (len (rowsOf (prod_id (Recommend.product rec)) rows))
  /\ 1 <= len (rowsOf (prod_id (Recommend.product rec)) rows)
  /\ Recommend.type rec = ty.
Proof.
  unfold Recommend.rankCandidates.
  destruct (Recommend.topByCount limit _) as [top|] eqn:Htop; [|intros []].
  destruct (Recommend.scoreProducts top ty why _) as [recs|] eqn:Hrecs;
    [|intros []].
  intros Hin. apply topByCount_spec in Htop. destruct Htop as (_ & Hsub & _ & _).
  pose proof (scoreProducts_products _ _ _ _ _ Hrecs) as Hps.
  apply traverse_spec in Hrecs.
  destruct (Forall2_In_r _ _ _ _ Hrecs Hin) as (p & Hp & Hf).
  apply inStockProducts_spec in Hp. destruct Hp as (Hcat & _ & Hstock).
  destruct (List.find (fun g => fst g =? prod_id p) top) as [g|] eqn:Hg;
    [|discriminate].
  injection Hf as <-. cbn.
  apply find_some in Hg. destruct Hg as [Hg E]. apply Z.eqb_eq in E.
  apply Hsub, countByProduct_spec in Hg. destruct Hg as [Hn Hpos].
  rewrite E in Hn. rewrite <- Hn.
  repeat split; try assumption.
  destruct (snd g =? 0) eqn:E0; [lia | reflexivity].
Qed.

Lemma rankCandidates_products (db : Database) (rows : list Transaction)
  (limit : Z) (ty why : string) :
  uniqueProductIds db ->
  List.NoDup (List.map (fun r => prod_id (Recommend.product r))
                  (Recommend.rankCandidates db rows limit ty why))
  /\ (0 <= limit ->
      len (Recommend.rankCandidates db rows limit ty why) <= limit).
Proof.
  intros Huniq. unfold Recommend.rankCandidates.
  destruct (Recommend.topByCount limit _) as [top|] eqn:Htop;
    [|split; [constructor | unfold len; cbn; lia]].
  destruct (Recommend.scoreProducts top ty why _) as [recs|] eqn:Hrecs;
    [|split; [constructor | unfold len; cbn; lia]].
  apply scoreProducts_products in Hrecs.
  apply topByCount_spec in Htop. destruct Htop as (_ & _ & Hnd & Hlen).
  specialize (Hnd (countByProduct_NoDup rows)).
  assert (List.map (fun r => prod_id (Recommend.product r)) recs
          = List.map prod_id (Recommend.inStockProducts db (List.map fst top)))
    as Hids by (rewrite <- Hrecs, map_map; reflexivity).
  split.
  - rewrite Hids. now apply NoDup_map_filter.
  - intros _. unfold len in *.
    rewrite <- (length_map (fun r => prod_id (Recommend.product r))), Hids.
    assert (length (List.map prod_id
                      (Recommend.inStockProducts db (List.map fst top)))
            <= length (List.map fst top))%nat as Hle.
    { apply NoDup_incl_length; [now apply NoDup_map_filter|].
      intros id Hid. apply in_map_iff in Hid. destruct Hid as (p & <- & Hp).
      now apply inStockProducts_spec in Hp. }
    rewrite (length_map fst top) in Hle. lia.
Qed.

(** ** Product affinity *)

Lemma alreadyPurchased_iff (db : Database) (customerId pid : Z) :
  alreadyPurchased db customerId pid
  <-> In pid (Recommend.purchasedProductIdsOf db customerId).
Proof.
  unfold alreadyPurchased, Recommend.purchasedProductIdsOf, completedTransactions.
  rewrite in_map_iff. split.
  - intros (t & Hin & Hc & Hs & Hp). exists t. split; [assumption|].
    apply filter_In. split; [assumption|]. rewrite Hc, Hs, Z.eqb_refl. reflexivity.
  - intros (t & Hp & Hin). apply filter_In in Hin. destruct Hin as [Hin Hf].
    apply andb_true_iff in Hf. destruct Hf as [Hc Hs]. apply Z.eqb_eq in Hc.
    exists t. repeat split; try assumption.
    destruct (tx_status t); try discriminate. reflexivity.
Qed.

Lemma in_stock_not_outOfStock (db : Database) (p : Product) :
  uniqueProductIds db ->
  In p (products db) ->
  0 < prod_stock_quantity p ->
  ~ outOfStock db (prod_id p).
Proof.
  intros Huniq Hin Hstock (p' & Hin' & Hid & Hzero).
  rewrite (NoDup_map_eq prod_id (products db) p' p Huniq Hin' Hin Hid) in Hzero.
  lia.
Qed.

Lemma len_pos_In {A : Type} (l : list A) : 1 <= len l -> exists x, In x l.
Proof.
  destruct l as [|x l]; unfold len; cbn; [lia|]. intros _. exists x. now left.
Qed.

Lemma filter_filter_and {A : Type} (f g : A -> bool) (l : list A) :
  List.filter f (List.filter g l) = List.filter (fun x => g x && f x) l.
Proof.
  induction l as [|x l IH]; cbn; [reflexivity|].
  destruct (g x); cbn; [destruct (f x)|]; now rewrite IH.
Qed.

(** The rows the affinity query counts for a candidate are the completed
    purchases of the candidate by the other customers who bought one of the
    target's products. *)
Lemma affinityRows_coPurchases (db : Database) (target pid : Z) :
  ~ In pid (Recommend.purchasedProductIdsOf db target) ->
  rowsOf pid (Recommend.affinityRows db
                (Recommend.purchasedProductIdsOf db target))
  = coPurchases db target (Recommend.purchasedProductIdsOf db target) pid.
Proof.
  intros Hnot. unfold rowsOf, Recommend.affinityRows, coPurchases.
  rewrite filter_filter_and. apply filter_ext_in. intros t Hin.
  destruct (isCompleted (tx_status t)) eqn:Hs; cbn; [|reflexivity].
  destruct (tx_product_id t =? pid) eqn:Hp; cbn;
    [|now rewrite andb_false_r].
  apply Z.eqb_eq in Hp.
  assert (Recommend.memberZ (tx_product_id t)
            (Recommend.purchasedProductIdsOf db target) = false) as ->
      by (apply memberZ_not_In; now rewrite Hp).
  assert ((tx_customer_id t =? target) = false) as ->.
  { apply Z.eqb_neq. intros Hc. apply Hnot, alreadyPurchased_iff.
    exists t. repeat split; try assumption.
    destruct (tx_status t); try discriminate. reflexivity. }
  cbn. now destruct (Recommend.boughtAnyOf db _ _).
Qed.

Lemma affinityRows_not_purchased (db : Database) (purchased : list Z)
  (t : Transaction) :
  In t (Recommend.affinityRows db purchased) ->
  ~ In (tx_product_id t) purchased.
Proof.
  unfold Recommend.affinityRows. rewrite filter_In.
  intros [_ Hf]. apply andb_true_iff in Hf. destruct Hf as [_ Hf].
  apply memberZ_not_In. now destruct (Recommend.memberZ _ _).
Qed.

Lemma rowsOf_In (pid : Z) (rows : list Transaction) (t : Transaction) :
  In t (rowsOf pid rows) <-> In t rows /\ tx_product_id t = pid.
Proof. unfold rowsOf. rewrite filter_In, Z.eqb_eq. tauto. Qed.

Lemma affinity_candidates (db : Database) (purchased : list Z) (limit : Z)
  (rec : Recommend.Scored) :
  In rec (Recommend.getProductAffinityRecommendations db purchased limit) ->
  In rec (Recommend.rankCandidates db (Recommend.affinityRows db purchased)
            limit "affinity"
            "Frequently bought together with your previous purchases").
Proof.
  unfold Recommend.getProductAffinityRecommendations.
  destruct purchased; [intros [] | tauto].
Qed.

(** C4, as the engine computes it.  In the affinity stage of a recompute for
    a customer, the score of a candidate is the number of completed purchases
    of the candidate made by other customers who bought one of the customer's
    products: a co-purchaser counts once for each purchase.  No candidate is a
    product the customer bought or a product out of stock, and at most
    2 x limit candidates are kept. *)
Theorem affinity_score_counts_purchases (db : Database) (target limit : Z) :
  uniqueProductIds db ->
  0 <= limit ->
  (forall rec,
      In rec (Recommend.getProductAffinityRecommendations db
                (Recommend.purchasedProductIdsOf db target) (limit * 2)) ->
      Recommend.score rec
      = inject_Z (len (coPurchases db target
                         (Recommend.purchasedProductIdsOf db target)
                         (prod_id (Recommend.product rec))))
      /\ 1 <= len (coPurchases db target
                     (Recommend.purchasedProductIdsOf db target)
                     (prod_id (Recommend.product rec)))
      /\ ~ alreadyPurchased db target (prod_id (Recommend.product rec))
      /\ ~ outOfStock db (prod_id (Recommend.product rec))
      /\ In (Recommend.product rec) (products db))
  /\ len (Recommend.getProductAffinityRecommendations db
            (Recommend.purchasedProductIdsOf db target) (limit * 2))
     <= 2 * limit.
Proof.
  intros Huniq Hlimit. split.
  - intros rec Hin. apply affinity_candidates, rankCandidates_spec in Hin.
    destruct Hin as (Hcat & Hstock & Hscore & Hpos & _).
    assert (~ In (prod_id (Recommend.product rec))
              (Recommend.purchasedProductIdsOf db target)) as Hnot.
    { destruct (len_pos_In _ Hpos) as [t Ht]. apply rowsOf_In in Ht.
      destruct Ht as [Ht <-]. now apply affinityRows_not_purchased in Ht. }
    rewrite affinityRows_coPurchases in Hscore, Hpos by assumption.
    repeat split; try assumption.
    + now rewrite alreadyPurchased_iff.
    + now apply in_stock_not_outOfStock.
  - unfold Recommend.getProductAffinityRecommendations.
    destruct (Recommend.purchasedProductIdsOf db target);
      [unfold len; cbn; lia|].
    rewrite (Z.mul_comm 2 limit).
    apply rankCandidates_products; [assumption | lia].
Qed.

Lemma affinity_score_counts_purchases_witness :
  uniqueProductIds Sample.shop
  /\ forall rec,
      In rec (Recommend.getProductAffinityRecommendations Sample.shop
                (Recommend.purchasedProductIdsOf Sample.shop 1) (5 * 2)) ->
      Recommend.score rec
      = inject_Z (len (coPurchases Sample.shop 1
                         (Recommend.purchasedProductIdsOf Sample.shop 1)
                         (prod_id (Recommend.product rec)))).
Proof.
  assert (uniqueProductIds Sample.shop) as Huniq.
  { unfold uniqueProductIds. cbn.
    repeat (constructor; [cbn; intuition discriminate|]). constructor. }
  split; [exact Huniq|].
  intros rec Hin.
  apply (proj1 (affinity_score_counts_purchases Sample.shop 1 5 Huniq
                  ltac:(lia)) rec Hin).
Defined.

(** C4 as the specification words it fails: customer 2 is the only
    co-purchaser of product 11 but bought it twice, and the affinity score of
    product 11 for customer 1 is 2. *)
Lemma affinity_score_co_purchasers_counterexample :
  exists rec,
    In rec (Recommend.getProductAffinityRecommendations Sample.shop
              (Recommend.purchasedProductIdsOf Sample.shop 1) (5 * 2))
    /\ prod_id (Recommend.product rec) = 11
    /\ Recommend.score rec = 2%Q
    /\ coPurchasers Sample.shop 1
         (Recommend.purchasedProductIdsOf Sample.shop 1) 11 = [2]
    /\ ~ (Recommend.score rec
          == inject_Z (len (coPurchasers Sample.shop 1
                              (Recommend.purchasedProductIdsOf Sample.shop 1)
                              (prod_id (Recommend.product rec)))))%Q.
Proof.
  eexists. split; [left; reflexivity|]. cbn [Recommend.product Recommend.score].
  split; [reflexivity|]. split; [reflexivity|]. split; [reflexivity|].
  vm_compute. discriminate.
Qed.

(** ** Combining the three candidate lists *)

Lemma mapGet_In (key : Z) (m : list (Z * Recommend.Entry)) (e : Recommend.Entry) :
  Recommend.mapGet key m = Some e -> In (key, e) m.
Proof.
  induction m as [|[k e0] m IH]; cbn; [discriminate|].
  destruct (k =? key) eqn:E.
  - intros [= <-]. apply Z.eqb_eq in E. subst. now left.
  - intros H. right. now apply IH.
Qed.

Lemma mapSet_In (key : Z) (e : Recommend.Entry) (m : list (Z * Recommend.Entry))
  (kv : Z * Recommend.Entry) :
  In kv (Recommend.mapSet key e m) -> kv = (key, e) \/ In kv m.
Proof.
  induction m as [|[k e0] m IH]; cbn.
  - intros [<-|[]]. now left.
  - destruct (k =? key) eqn:E; cbn.
    + apply Z.eqb_eq in E. subst. intros [<-|H]; [now left | right; now right].
    + intros [<-|H]; [right; now left|].
      destruct (IH H) as [->|H']; [now left | right; now right].
Qed.

Lemma putFirst_fromCandidates (recs src part : list Recommend.Scored) (w : Q)
  (m : list (Z * Recommend.Entry)) :
  incl part recs ->
  Forall (fromCandidates recs) m ->
  Forall (fromCandidates recs) (fold_left (Recommend.putFirst src w) part m).
Proof.
  revert m. induction part as [|rec part IH]; intros m Hincl Hm; cbn;
    [assumption|].
  apply IH; [intros x Hx; apply Hincl; now right|].
  apply List.Forall_forall. intros kv Hkv. unfold Recommend.putFirst in Hkv.
  apply mapSet_In in Hkv. destruct Hkv as [->|Hkv].
  - exists rec. split; [apply Hincl; now left|]. split; reflexivity.
  - rewrite List.Forall_forall in Hm. now apply Hm.
Qed.

Lemma accumulate_fromCandidates (recs src part : list Recommend.Scored) (w : Q)
  (m : list (Z * Recommend.Entry)) :
  incl part recs ->
  Forall (fromCandidates recs) m ->
  Forall (fromCandidates recs) (fold_left (Recommend.accumulate src w) part m).
Proof.
  revert m. induction part as [|rec part IH]; intros m Hincl Hm; cbn;
    [assumption|].
  apply IH; [intros x Hx; apply Hincl; now right|].
  apply List.Forall_forall. intros kv Hkv. unfold Recommend.accumulate in Hkv.
  rewrite List.Forall_forall in Hm.
  destruct (Recommend.mapGet (prod_id (Recommend.product rec)) m)
    as [existing|] eqn:Hget; apply mapSet_In in Hkv;
    destruct Hkv as [->|Hkv]; try (now apply Hm).
  - apply mapGet_In, Hm in Hget. destruct Hget as (rec0 & H0 & Hprod & Hkey).
    exists rec0. cbn in *. repeat split; assumption.
  - exists rec. split; [apply Hincl; now left|]. split; reflexivity.
Qed.

Lemma productScores_fromCandidates (aff col seg : list Recommend.Scored)
  (w : Recommend.Weights) :
  Forall (fromCandidates (aff ++ col ++ seg))
         (Recommend.productScores aff col seg w).
Proof.
  unfold Recommend.productScores.
  apply accumulate_fromCandidates;
    [intros x Hx; apply in_or_app; right; apply in_or_app; now right|].
  apply accumulate_fromCandidates;
    [intros x Hx; apply in_or_app; right; apply in_or_app; now left|].
  apply putFirst_fromCandidates;
    [intros x Hx; apply in_or_app; now left | constructor].
Qed.

Lemma combineRecommendations_products (aff col seg : list Recommend.Scored)
  (w : Recommend.Weights) (c : Recommend.Combined) :
  In c (Recommend.combineRecommendations aff col seg w) ->
  exists rec, In rec (aff ++ col ++ seg)
              /\ Recommend.c_product c = Recommend.product rec.
Proof.
  unfold Recommend.combineRecommendations. intros Hin.
  eapply Permutation_in in Hin; [|apply sortBy_perm].
  apply in_map_iff in Hin. destruct Hin as (kv & <- & Hkv).
  pose proof (productScores_fromCandidates aff col seg w) as H.
  rewrite List.Forall_forall in H. destruct (H kv Hkv) as (rec & Hrec & Hp & _).
  exists rec. split; assumption.
Qed.

Lemma slice0_In {A : Type} (limit : Z) (l : list A) (x : A) :
  In x (Recommend.slice0 limit l) -> In x l.
Proof.
  unfold Recommend.slice0. destruct (limit <? 0); apply firstn_In_incl.
Qed.

(** ** Recomputed recommendations *)

Lemma cohortRows_not_purchased (db : Database) (ids purchased : list Z)
  (t : Transaction) :
  In t (Recommend.cohortRows db ids purchased) ->
  ~ In (tx_product_id t) purchased.
Proof.
  unfold Recommend.cohortRows. rewrite filter_In.
  intros [_ Hf]. apply andb_true_iff in Hf. destruct Hf as [Hf _].
  apply andb_true_iff in Hf. destruct Hf as [_ Hf].
  apply memberZ_not_In. now destruct (Recommend.memberZ _ _).
Qed.

Lemma rankCandidates_eligible (db : Database) (rows : list Transaction)
  (purchased : list Z) (limit : Z) (ty why : string) (rec : Recommend.Scored) :
  (forall t, In t rows -> ~ In (tx_product_id t) purchased) ->
  In rec (Recommend.rankCandidates db rows limit ty why) ->
  eligible db purchased (Recommend.product rec).
Proof.
  intros Hrows Hin. apply rankCandidates_spec in Hin.
  destruct Hin as (Hcat & Hstock & _ & Hpos & _).
  repeat split; try assumption.
  destruct (len_pos_In _ Hpos) as [t Ht]. apply rowsOf_In in Ht.
  destruct Ht as [Ht <-]. now apply Hrows.
Qed.

Lemma affinity_eligible (db : Database) (purchased : list Z) (limit : Z)
  (rec : Recommend.Scored) :
  In rec (Recommend.getProductAffinityRecommendations db purchased limit) ->
  eligible db purchased (Recommend.product rec).
Proof.
  intros Hin. apply affinity_candidates in Hin.
  eapply rankCandidates_eligible; [|exact Hin].
  intros t. apply affinityRows_not_purchased.
Qed.

Lemma collaborative_eligible (db : Database) (customerId : Z)
  (purchased : list Z) (limit : Z) (rec : Recommend.Scored) :
  In rec (Recommend.getCollaborativeFilteringRecommendations
            db customerId purchased limit) ->
  eligible db purchased (Recommend.product rec).
Proof.
  unfold Recommend.getCollaborativeFilteringRecommendations.
  destruct (Recommend.findAnalytics db customerId) as [analytics|]; [|intros []].
  destruct (Recommend.noSegment _); [intros []|].
  destruct (List.map ca_customer_id _) as [|id ids] eqn:E; [intros []|].
  apply rankCandidates_eligible. intros t. apply cohortRows_not_purchased.
Qed.

Lemma segment_eligible (db : Database) (customerId : Z)
  (purchased : list Z) (limit : Z) (rec : Recommend.Scored) :
  In rec (Recommend.getSegmentBasedRecommendations
            db customerId purchased limit) ->
  eligible db purchased (Recommend.product rec).
Proof.
  unfold Recommend.getSegmentBasedRecommendations.
  destruct (Recommend.findAnalytics db customerId) as [analytics|]; [|intros []].
  apply rankCandidates_eligible. intros t. apply cohortRows_not_purchased.
Qed.

Lemma recompute_eligible (db : Database) (customerId limit : Z)
  (c : Recommend.Combined) :
  In c (Recommend.recompute db customerId limit) ->
  eligible db (Recommend.purchasedProductIdsOf db customerId)
           (Recommend.c_product c).
Proof.
  unfold Recommend.recompute. intros Hin. apply slice0_In in Hin.
  apply combineRecommendations_products in Hin.
  destruct Hin as (rec & Hrec & ->).
  apply in_app_or in Hrec. destruct Hrec as [H|H];
    [now apply affinity_eligible in H|].
  apply in_app_or in H. destruct H as [H|H].
  - now apply collaborative_eligible in H.
  - now apply segment_eligible in H.
Qed.

(** With nothing cached the engine answers with the recompute. *)
Lemma generate_recomputes (st : Recommend.State) (now customerId limit : Z) :
  customerExists (Recommend.db st) customerId ->
  nothingCached st now customerId ->
  fst (Recommend.generatePersonalizedRecommendations st now customerId limit)
  = Ok (List.map Recommend.FromCombine
          (Recommend.recompute (Recommend.db st) customerId limit)).
Proof.
  intros Hex [Hfast Hrows].
  destruct (findCustomerByPk_exists _ _ Hex) as [c Hc].
  unfold Recommend.generatePersonalizedRecommendations. rewrite Hc, Hrows.
  destruct (CacheService.get true now _ (Recommend.cache st)) as [cached cache1].
  cbn in Hfast. destruct Hfast as [-> | ->]; reflexivity.
Qed.

(** C3, as the engine guarantees it.  When neither cache tier nor the
    persisted rows hold recommendations for the customer, the call recomputes,
    and no entry of its result refers to a product the customer has purchased
    in a completed transaction or to a product without stock. *)
Theorem recomputed_recommendations_exclude (st : Recommend.State)
  (now customerId limit : Z) :
  uniqueProductIds (Recommend.db st) ->
  customerExists (Recommend.db st) customerId ->
  nothingCached st now customerId ->
  exists recs,
    fst (Recommend.generatePersonalizedRecommendations st now customerId limit)
    = Ok recs
    /\ forall r pid,
        In r recs -> refersTo r pid ->
        ~ alreadyPurchased (Recommend.db st) customerId pid
        /\ ~ outOfStock (Recommend.db st) pid.
Proof.
  intros Huniq Hex Hmiss. eexists. split; [now apply generate_recomputes|].
  intros r pid Hin (p & Hp & <-).
  apply in_map_iff in Hin. destruct Hin as (c & <- & Hc).
  cbn in Hp. injection Hp as <-.
  apply recompute_eligible in Hc. destruct Hc as (Hcat & Hstock & Hnot).
  split.
  - now rewrite alreadyPurchased_iff.
  - now apply in_stock_not_outOfStock.
Qed.

Lemma shop_unique : uniqueProductIds Sample.shop.
Proof.
  unfold uniqueProductIds. cbn.
  repeat (constructor; [cbn; intuition discriminate|]). constructor.
Defined.

Lemma shop_customer_1 : customerExists Sample.shop 1.
Proof. exists (Sample.customer 1). split; [left|]; reflexivity. Defined.

Lemma recomputed_recommendations_exclude_witness :
  exists recs,
    fst (Recommend.generatePersonalizedRecommendations
           Sample.shopStart (110 * Sample.day) 1 5) = Ok recs
    /\ forall r pid,
        In r recs -> refersTo r pid ->
        ~ alreadyPurchased Sample.shop 1 pid /\ ~ outOfStock Sample.shop pid.
Proof.
  apply (recomputed_recommendations_exclude Sample.shopStart
           (110 * Sample.day) 1 5 shop_unique shop_customer_1).
  split; [left|]; reflexivity.
Defined.

(** C3 as the specification words it fails on the cached paths.
    Recommendations for customer 1
    are generated and cached; an hour later the customer buys the last two
    units of the recommended product 11; another hour later the call still
    answers with product 11, which the customer has purchased and which is
    out of stock. *)
Lemma cached_recommendations_stale_counterexample :
  exists r,
    fst (Recommend.generatePersonalizedRecommendations
           Sample.shopAfterOrder (110 * Sample.day + 7200000) 1 5) = Ok [r]
    /\ refersTo r 11
    /\ alreadyPurchased (Recommend.db Sample.shopAfterOrder) 1 11
    /\ outOfStock (Recommend.db Sample.shopAfterOrder) 11.
Proof.
  eexists. split; [vm_compute; reflexivity|]. split; [|split].
  - eexists. split; reflexivity.
  - eexists. split; [vm_compute; do 5 right; left; reflexivity|].
    repeat split; reflexivity.
  - exists (Sample.item 11 30 0). split; [|split; reflexivity].
    vm_compute. right. left. reflexivity.
Qed.

(** ** Customers without history *)

Lemma slice0_nil {A : Type} (limit : Z) : Recommend.slice0 limit (@nil A) = [].
Proof. unfold Recommend.slice0. destruct (limit <? 0); apply firstn_nil. Qed.

(** C9, as the engine guarantees it.  For a customer that exists, has no
    completed purchase and no analytics record, the three sub-algorithms
    return no candidate; when in addition nothing is cached for the customer,
    [generatePersonalizedRecommendations] returns the empty list. *)
Theorem no_history_no_recommendations (st : Recommend.State)
  (now customerId limit : Z) :
  customerExists (Recommend.db st) customerId ->
  completedTransactions (Recommend.db st) customerId = [] ->
  Recommend.findAnalytics (Recommend.db st) customerId = None ->
  (forall n,
      Recommend.getProductAffinityRecommendations (Recommend.db st)
        (Recommend.purchasedProductIdsOf (Recommend.db st) customerId) n = []
      /\ Recommend.getCollaborativeFilteringRecommendations (Recommend.db st)
           customerId
           (Recommend.purchasedProductIdsOf (Recommend.db st) customerId) n = []
      /\ Recommend.getSegmentBasedRecommendations (Recommend.db st)
           customerId
           (Recommend.purchasedProductIdsOf (Recommend.db st) customerId) n = [])
  /\ (nothingCached st now customerId ->
      fst (Recommend.generatePersonalizedRecommendations st now customerId limit)
      = Ok []).
Proof.
  intros Hex Hnone Hrow.
  assert (forall n,
      Recommend.getProductAffinityRecommendations (Recommend.db st)
        (Recommend.purchasedProductIdsOf (Recommend.db st) customerId) n = []
      /\ Recommend.getCollaborativeFilteringRecommendations (Recommend.db st)
           customerId
           (Recommend.purchasedProductIdsOf (Recommend.db st) customerId) n = []
      /\ Recommend.getSegmentBasedRecommendations (Recommend.db st)
           customerId
           (Recommend.purchasedProductIdsOf (Recommend.db st) customerId) n = [])
    as Hsub.
  { intros n. unfold Recommend.purchasedProductIdsOf. rewrite Hnone. cbn.
    unfold Recommend.getCollaborativeFilteringRecommendations,
      Recommend.getSegmentBasedRecommendations.
    rewrite Hrow. repeat split; reflexivity. }
  split; [exact Hsub|].
  intros Hmiss. rewrite generate_recomputes by assumption.
  unfold Recommend.recompute.
  destruct (Hsub (limit * 2)) as (-> & -> & ->). cbn.
  now rewrite slice0_nil.
Qed.

Lemma no_history_no_recommendations_witness :
  fst (Recommend.generatePersonalizedRecommendations
         {| Recommend.db := Sample.newcomer;
            Recommend.cache := CacheService.empty |} 0 1 5)
  = Ok [].
Proof.
  apply (no_history_no_recommendations
           {| Recommend.db := Sample.newcomer;
              Recommend.cache := CacheService.empty |} 0 1 5).
  - exists (Sample.customer 1). split; [left|]; reflexivity.
  - reflexivity.
  - reflexivity.
  - split; [left|]; reflexivity.
Defined.

(** C9 as the specification words it fails when recommendations are still
    cached.  Customer 1's only purchase is refunded an hour after recommendations were generated:
    the customer then has no completed purchase and no analytics record, and
    the call still answers with the cached product 11. *)
Lemma cached_recommendations_after_refund_counterexample :
  customerExists (Recommend.db Sample.shopAfterRefund) 1
  /\ completedTransactions (Recommend.db Sample.shopAfterRefund) 1 = []
  /\ Recommend.findAnalytics (Recommend.db Sample.shopAfterRefund) 1 = None
  /\ exists r,
      fst (Recommend.generatePersonalizedRecommendations
             Sample.shopAfterRefund (110 * Sample.day + 7200000) 1 5) = Ok [r]
      /\ refersTo r 11.
Proof.
  split; [exists (Sample.customer 1); split; [left|]; reflexivity|].
  split; [reflexivity|]. split; [reflexivity|].
  eexists. split; [vm_compute; reflexivity|].
  eexists. split; reflexivity.
Qed.

(** An analytics record without a segment stops the collaborative
    sub-algorithm but not the segment one, which then ranks the purchases of
    all customers whose record has no segment. *)
Lemma segment_stage_without_segment :
  Recommend.getCollaborativeFilteringRecommendations
    SampleBatch.noSegments 1 [] 10 = []
  /\ List.map (fun r => prod_id (Recommend.product r))
       (Recommend.getSegmentBasedRecommendations
          SampleBatch.noSegments 1 [] 10) = [10].
Proof. split; reflexivity. Qed.

(** ** Normalized scores *)

Lemma maxQ_ge_l (a b : Q) : (a <= maxQ a b)%Q.
Proof.
  unfold maxQ. destruct (Qle_bool a b) eqn:E; [now apply Qle_bool_iff | apply Qle_refl].
Qed.

Lemma maxQ_ge_r (a b : Q) : (b <= maxQ a b)%Q.
Proof.
  unfold maxQ. destruct (Qle_bool a b) eqn:E; [apply Qle_refl|].
  apply Qlt_le_weak, Qnot_le_lt. intros H. apply Qle_bool_iff in H. congruence.
Qed.

Lemma minQ_le_l (a b : Q) : (minQ a b <= a)%Q.
Proof.
  unfold minQ. destruct (Qle_bool a b) eqn:E; [apply Qle_refl|].
  apply Qlt_le_weak, Qnot_le_lt. intros H. apply Qle_bool_iff in H. congruence.
Qed.

Lemma minQ_le_r (a b : Q) : (minQ a b <= b)%Q.
Proof.
  unfold minQ. destruct (Qle_bool a b) eqn:E; [now apply Qle_bool_iff | apply Qle_refl].
Qed.

Lemma fold_maxQ_ge (l : list Q) (a : Q) :
  (a <= fold_left maxQ l a)%Q
  /\ forall x, In x l -> (x <= fold_left maxQ l a)%Q.
Proof.
  revert a. induction l as [|y l IH]; intros a; cbn.
  - split; [apply Qle_refl | intros x []].
  - destruct (IH (maxQ a y)) as [H1 H2]. split.
    + eapply Qle_trans; [apply maxQ_ge_l | exact H1].
    + intros x [<-|Hx]; [|now apply H2].
      eapply Qle_trans; [apply maxQ_ge_r | exact H1].
Qed.

Lemma fold_minQ_le (l : list Q) (a : Q) :
  (fold_left minQ l a <= a)%Q
  /\ forall x, In x l -> (fold_left minQ l a <= x)%Q.
Proof.
  revert a. induction l as [|y l IH]; intros a; cbn.
  - split; [apply Qle_refl | intros x []].
  - destruct (IH (minQ a y)) as [H1 H2]. split.
    + eapply Qle_trans; [exact H1 | apply minQ_le_l].
    + intros x [<-|Hx]; [|now apply H2].
      eapply Qle_trans; [exact H1 | apply minQ_le_r].
Qed.

Lemma maxOf_ge (scores : list Q) (x : Q) :
  In x scores -> (x <= Recommend.maxOf scores)%Q.
Proof.
  destruct scores as [|s rest]; [intros []|]. cbn.
  intros [<-|Hx];
    [apply (proj1 (fold_maxQ_ge _ _)) | now apply (proj2 (fold_maxQ_ge _ _))].
Qed.

Lemma minOf_le (scores : list Q) (x : Q) :
  In x scores -> (Recommend.minOf scores <= x)%Q.
Proof.
  destruct scores as [|s rest]; [intros []|]. cbn.
  intros [<-|Hx];
    [apply (proj1 (fold_minQ_le _ _)) | now apply (proj2 (fold_minQ_le _ _))].
Qed.

(** A candidate's normalized score within its own list is not negative. *)
Lemma normalizeScore_nonneg (src : list Recommend.Scored) (rec : Recommend.Scored) :
  In rec src ->
  (0 <= Recommend.normalizeScore (Recommend.score rec) src)%Q.
Proof.
  intros Hin. unfold Recommend.normalizeScore.
  destruct src as [|r0 src0] eqn:Hsrc; [destruct Hin|]. rewrite <- Hsrc in *.
  clear Hsrc r0 src0.
  assert (In (Recommend.score rec) (List.map Recommend.score src)) as Hs
      by now apply in_map.
  pose proof (maxOf_ge _ _ Hs) as Hmax. pose proof (minOf_le _ _ Hs) as Hmin.
  destruct (Qeq_bool _ _) eqn:E; [discriminate|].
  assert (~ (Recommend.maxOf (List.map Recommend.score src)
             == Recommend.minOf (List.map Recommend.score src))%Q) as Hne.
  { intros H. apply Qeq_bool_iff in H. congruence. }
  apply Qle_shift_div_l.
  - unfold Qminus. apply -> Qlt_minus_iff.
    destruct (Qlt_le_dec (Recommend.minOf (List.map Recommend.score src))
                         (Recommend.maxOf (List.map Recommend.score src)))
      as [Hlt|Hle]; [assumption|].
    exfalso. apply Hne. apply Qle_antisym; [assumption|].
    eapply Qle_trans; eassumption.
  - rewrite Qmult_0_l. unfold Qminus. now apply -> Qle_minus_iff.
Qed.

(** ** The [productScores] map *)

Lemma mapGet_mapSet (p k : Z) (e : Recommend.Entry)
  (m : list (Z * Recommend.Entry)) :
  Recommend.mapGet p (Recommend.mapSet k e m)
  = if k =? p then Some e else Recommend.mapGet p m.
Proof.
  induction m as [|[k0 e0] m IH]; cbn.
  - reflexivity.
  - destruct (k0 =? k) eqn:E0; cbn.
    + apply Z.eqb_eq in E0. subst k0. destruct (k =? p); reflexivity.
    + rewrite IH. destruct (k0 =? p) eqn:E1; [|reflexivity].
      destruct (k =? p) eqn:E2; [lia | reflexivity].
Qed.

Lemma mapSet_keys (x k : Z) (e : Recommend.Entry)
  (m : list (Z * Recommend.Entry)) :
  In x (List.map fst (Recommend.mapSet k e m))
  <-> x = k \/ In x (List.map fst m).
Proof.
  induction m as [|[k0 e0] m IH]; cbn.
  - intuition.
  - destruct (k0 =? k) eqn:E0; cbn.
    + apply Z.eqb_eq in E0. subst k0. intuition.
    + rewrite IH. intuition.
Qed.

Lemma mapSet_keyed (k : Z) (e : Recommend.Entry)
  (m : list (Z * Recommend.Entry)) :
  k = prod_id (Recommend.e_product e) ->
  keyedByProduct m -> keyedByProduct (Recommend.mapSet k e m).
Proof.
  intros Hk [Hnd Hkeys]. split.
  - clear Hkeys. induction m as [|[k0 e0] m IH]; cbn.
    + repeat constructor. intros [].
    + apply List.NoDup_cons_iff in Hnd. destruct Hnd as [Hnot Hrest].
      destruct (k0 =? k) eqn:E0; cbn.
      * constructor; assumption.
      * constructor; [|now apply IH]. rewrite mapSet_keys.
        intros [E|Hin]; [lia | contradiction].
  - intros kv Hin. apply mapSet_In in Hin. destruct Hin as [->|Hin];
      [exact Hk | now apply Hkeys].
Qed.

Lemma putFirst_keyed (src part : list Recommend.Scored) (w : Q)
  (m : list (Z * Recommend.Entry)) :
  keyedByProduct m ->
  keyedByProduct (fold_left (Recommend.putFirst src w) part m).
Proof.
  revert m. induction part as [|rec part IH]; intros m Hm; cbn; [assumption|].
  apply IH. unfold Recommend.putFirst. now apply mapSet_keyed.
Qed.

Lemma accumulate_keyed (src part : list Recommend.Scored) (w : Q)
  (m : list (Z * Recommend.Entry)) :
  keyedByProduct m ->
  keyedByProduct (fold_left (Recommend.accumulate src w) part m).
Proof.
  revert m. induction part as [|rec part IH]; intros m Hm; cbn; [assumption|].
  apply IH. unfold Recommend.accumulate.
  destruct (Recommend.mapGet _ m) as [existing|] eqn:Hget;
    apply mapSet_keyed; try assumption; try reflexivity.
  cbn. apply mapGet_In in Hget. destruct Hm as [_ Hkeys].
  exact (Hkeys _ Hget).
Qed.

Lemma productScores_keyed (aff col seg : list Recommend.Scored)
  (w : Recommend.Weights) :
  keyedByProduct (Recommend.productScores aff col seg w).
Proof.
  unfold Recommend.productScores.
  apply accumulate_keyed, accumulate_keyed, putFirst_keyed.
  split; [constructor | intros kv []].
Qed.

Lemma findCandidate_None (p : Z) (src : list Recommend.Scored) :
  findCandidate p src = None <-> ~ In p (productIds src).
Proof.
  unfold findCandidate, productIds. split.
  - intros Hf Hin. apply in_map_iff in Hin. destruct Hin as (r & Hr & Hin).
    apply (find_none _ _ Hf) in Hin. lia.
  - intros Hnot. destruct (List.find _ src) as [r|] eqn:Hf; [|reflexivity].
    apply find_some in Hf. destruct Hf as [Hin E]. apply Z.eqb_eq in E.
    exfalso. apply Hnot. apply in_map_iff. now exists r.
Qed.

Lemma findCandidate_Some (p : Z) (src : list Recommend.Scored)
  (r : Recommend.Scored) :
  findCandidate p src = Some r ->
  In r src /\ prod_id (Recommend.product r) = p /\ In p (productIds src).
Proof.
  unfold findCandidate, productIds. intros Hf. apply find_some in Hf.
  destruct Hf as [Hin E]. apply Z.eqb_eq in E.
  repeat split; try assumption. apply in_map_iff. now exists r.
Qed.

Lemma findCandidate_cons (p : Z) (rec : Recommend.Scored)
  (src : list Recommend.Scored) :
  findCandidate p (rec :: src)
  = if prod_id (Recommend.product rec) =? p then Some rec
    else findCandidate p src.
Proof. reflexivity. Qed.

(** After the first loop a product has the entry of its candidate. *)
Lemma fold_putFirst_get (src part : list Recommend.Scored) (w : Q) (p : Z)
  (m : list (Z * Recommend.Entry)) :
  List.NoDup (productIds part) ->
  Recommend.mapGet p (fold_left (Recommend.putFirst src w) part m)
  = match findCandidate p part with
    | Some rec =>
        Some (Recommend.freshEntry rec
                (Recommend.normalizeScore (Recommend.score rec) src * w))
    | None => Recommend.mapGet p m
    end.
Proof.
  revert m. induction part as [|rec part IH]; intros m Hnd; [reflexivity|].
  cbn [fold_left]. cbn in Hnd. inversion Hnd as [|? ? Hnot Hnd']; subst.
  rewrite (IH _ Hnd'), findCandidate_cons. unfold Recommend.putFirst at 1.
  rewrite mapGet_mapSet.
  destruct (prod_id (Recommend.product rec) =? p) eqn:E.
  - apply Z.eqb_eq in E. subst p.
    now rewrite (proj2 (findCandidate_None _ _) Hnot).
  - reflexivity.
Qed.

(** After a later loop the total of a product is what it was, plus the
    contribution of its candidate in that loop's list. *)
Lemma fold_accumulate_total (src part : list Recommend.Scored) (w : Q) (p : Z)
  (m : list (Z * Recommend.Entry)) :
  List.NoDup (productIds part) ->
  option_map Recommend.totalScore
    (Recommend.mapGet p (fold_left (Recommend.accumulate src w) part m))
  = match findCandidate p part with
    | Some rec =>
        let add :=
          (Recommend.normalizeScore (Recommend.score rec) src * w)%Q in
        Some (match option_map Recommend.totalScore (Recommend.mapGet p m) with
              | Some t => (t + add)%Q
              | None => add
              end)
    | None => option_map Recommend.totalScore (Recommend.mapGet p m)
    end.
Proof.
  revert m. induction part as [|rec part IH]; intros m Hnd; [reflexivity|].
  cbn [fold_left]. cbn in Hnd. inversion Hnd as [|? ? Hnot Hnd']; subst.
  rewrite (IH _ Hnd'), findCandidate_cons. unfold Recommend.accumulate.
  destruct (prod_id (Recommend.product rec) =? p) eqn:E.
  - apply Z.eqb_eq in E. subst p.
    rewrite (proj2 (findCandidate_None _ _) Hnot).
    destruct (Recommend.mapGet _ m) as [existing|];
      rewrite mapGet_mapSet, Z.eqb_refl; reflexivity.
  - destruct (Recommend.mapGet (prod_id (Recommend.product rec)) m)
      as [existing|]; rewrite mapGet_mapSet, E; reflexivity.
Qed.

(** The total the map holds for a product is the sum of the contributions of
    the lists that hold the product. *)
Lemma productScores_total (aff col seg : list Recommend.Scored)
  (w : Recommend.Weights) (p : Z) :
  List.NoDup (productIds aff) ->
  List.NoDup (productIds col) ->
  List.NoDup (productIds seg) ->
  match option_map Recommend.totalScore
          (Recommend.mapGet p (Recommend.productScores aff col seg w)) with
  | Some t =>
      (t == combinedTotal aff col seg w p)%Q
      /\ (In p (productIds aff) \/ In p (productIds col)
          \/ In p (productIds seg))
  | None =>
      ~ In p (productIds aff) /\ ~ In p (productIds col)
      /\ ~ In p (productIds seg)
  end.
Proof.
  intros Ha Hc Hs. unfold Recommend.productScores.
  rewrite (fold_accumulate_total seg seg _ p _ Hs).
  rewrite (fold_accumulate_total col col _ p _ Hc).
  rewrite (fold_putFirst_get aff aff _ p _ Ha).
  unfold combinedTotal, contribution, normalizedIn.
  pose proof (findCandidate_Some p aff) as Sa.
  pose proof (findCandidate_Some p col) as Sc.
  pose proof (findCandidate_Some p seg) as Ss.
  pose proof (proj1 (findCandidate_None p aff)) as Na.
  pose proof (proj1 (findCandidate_None p col)) as Nc.
  pose proof (proj1 (findCandidate_None p seg)) as Ns.
  destruct (findCandidate p aff) as [ra|];
    destruct (findCandidate p col) as [rc|];
    destruct (findCandidate p seg) as [rs|]; cbn;
    try (split; [ring|]);
    try (left; now apply (Sa _ eq_refl));
    try (right; left; now apply (Sc _ eq_refl));
    try (right; right; now apply (Ss _ eq_refl)).
  repeat split; auto.
Qed.

Lemma find_perm_unique {A : Type} (key : A -> Z) (p : Z) (l l' : list A) :
  Permutation l l' ->
  List.NoDup (List.map key l) ->
  List.find (fun x => key x =? p) l' = List.find (fun x => key x =? p) l.
Proof.
  intros P Hnd.
  destruct (List.find (fun x => key x =? p) l) as [x|] eqn:Hl;
    destruct (List.find (fun x => key x =? p) l') as [y|] eqn:Hl';
    try reflexivity.
  - apply find_some in Hl, Hl'. destruct Hl as [Hx Ex], Hl' as [Hy Ey].
    apply Z.eqb_eq in Ex, Ey.
    apply (Permutation_in _ (Permutation_sym P)) in Hy.
    f_equal. apply (NoDup_map_eq key l y x Hnd Hy Hx). congruence.
  - apply find_some in Hl. destruct Hl as [Hx Ex].
    apply (Permutation_in _ P) in Hx.
    apply (find_none _ _ Hl') in Hx. congruence.
  - apply find_some in Hl'. destruct Hl' as [Hy Ey].
    apply (Permutation_in _ (Permutation_sym P)) in Hy.
    apply (find_none _ _ Hl) in Hy. congruence.
Qed.

Lemma find_toCombined (p : Z) (m : list (Z * Recommend.Entry)) :
  (forall kv, In kv m -> fst kv = prod_id (Recommend.e_product (snd kv))) ->
  List.find (fun c => prod_id (Recommend.c_product c) =? p)
            (List.map (fun kv => Recommend.toCombined (snd kv)) m)
  = option_map Recommend.toCombined (Recommend.mapGet p m).
Proof.
  induction m as [|[k e] m IH]; intros Hkeys; [reflexivity|]. cbn.
  pose proof (Hkeys (k, e) (or_introl eq_refl)) as Hk. cbn in Hk.
  rewrite <- Hk. destruct (k =? p); [reflexivity|].
  apply IH. intros kv Hin. apply Hkeys. now right.
Qed.

Lemma keys_toCombined (m : list (Z * Recommend.Entry)) :
  (forall kv, In kv m -> fst kv = prod_id (Recommend.e_product (snd kv))) ->
  List.map (fun c => prod_id (Recommend.c_product c))
           (List.map (fun kv => Recommend.toCombined (snd kv)) m)
  = List.map fst m.
Proof.
  intros Hkeys. rewrite map_map. apply map_ext_in. intros kv Hin.
  cbn. symmetry. now apply Hkeys.
Qed.

(** The ids of a combined result are distinct. *)
Lemma combineRecommendations_NoDup (aff col seg : list Recommend.Scored)
  (w : Recommend.Weights) :
  List.NoDup (List.map (fun c => prod_id (Recommend.c_product c))
                       (Recommend.combineRecommendations aff col seg w)).
Proof.
  destruct (productScores_keyed aff col seg w) as [Hnd Hkeys].
  unfold Recommend.combineRecommendations.
  eapply Permutation_NoDup.
  - apply Permutation_map, Permutation_sym, sortBy_perm.
  - now rewrite keys_toCombined.
Qed.

(** The displayed score of a product: its total, times 100, to two
    decimals. *)
Lemma scoreIn_combine (aff col seg : list Recommend.Scored)
  (w : Recommend.Weights) (p : Z) :
  scoreIn (Recommend.combineRecommendations aff col seg w) p
  = option_map (fun t => toFixed2 (t * 100))
      (option_map Recommend.totalScore
         (Recommend.mapGet p (Recommend.productScores aff col seg w))).
Proof.
  destruct (productScores_keyed aff col seg w) as [Hnd Hkeys].
  unfold scoreIn, Recommend.combineRecommendations.
  rewrite (find_perm_unique (fun c => prod_id (Recommend.c_product c)) p
             (List.map (fun kv => Recommend.toCombined (snd kv))
                       (Recommend.productScores aff col seg w))).
  - rewrite find_toCombined by assumption.
    now destruct (Recommend.mapGet p _).
  - apply Permutation_sym, sortBy_perm.
  - now rewrite keys_toCombined.
Qed.

Lemma Qfloor_half_nonneg (x : Q) : (0 <= x)%Q -> 0 <= Qfloor (x * 100 + (1 # 2)).
Proof.
  intros Hx. change 0 with (Qfloor 0). apply Qfloor_resp_le.
  change 0%Q with (0 + 0)%Q. apply Qplus_le_compat; [|discriminate].
  apply Qmult_le_0_compat; [exact Hx | discriminate].
Qed.

Lemma Qfloor_half_le (x y : Q) :
  (x <= y)%Q -> Qfloor (x * 100 + (1 # 2)) <= Qfloor (y * 100 + (1 # 2)).
Proof.
  intros H. apply Qfloor_resp_le. apply Qplus_le_compat; [|apply Qle_refl].
  apply Qmult_le_compat_r; [assumption | discriminate].
Qed.

Lemma toFixed2_le (x y : Q) : (x <= y)%Q -> (toFixed2 x <= toFixed2 y)%Q.
Proof.
  intros H. unfold toFixed2.
  destruct (Qltb x 0) eqn:Hx, (Qltb y 0) eqn:Hy.
  - apply Qopp_le_compat.
    pose proof (Qfloor_half_le (- y) (- x) (Qopp_le_compat _ _ H)).
    unfold Qle. cbn [Qnum Qden]. lia.
  - apply Qltb_lt in Hx.
    assert ((0 <= y)%Q) as Hy'.
    { destruct (Qlt_le_dec y 0) as [F | F]; [|exact F].
      apply Qltb_lt in F. congruence. }
    pose proof (Qfloor_half_nonneg (- x)) as Hfx.
    pose proof (Qfloor_half_nonneg y Hy') as Hfy.
    assert ((0 <= - x)%Q) as Hnx.
    { apply Qlt_le_weak in Hx. apply Qopp_le_compat in Hx. exact Hx. }
    specialize (Hfx Hnx).
    generalize dependent (Qfloor (- x * 100 + (1 # 2))).
    generalize dependent (Qfloor (y * 100 + (1 # 2))).
    intros b Hb a Ha. unfold Qle, Qopp. cbn. lia.
  - apply Qltb_lt in Hy. exfalso.
    assert ((x < 0)%Q) as F by (eapply Qle_lt_trans; eassumption).
    apply Qltb_lt in F. congruence.
  - pose proof (Qfloor_half_le x y H). unfold Qle. cbn [Qnum Qden]. lia.
Qed.

Lemma normalizedIn_nonneg (src : list Recommend.Scored) (p : Z) (n : Q) :
  normalizedIn src p = Some n -> (0 <= n)%Q.
Proof.
  unfold normalizedIn. destruct (findCandidate p src) as [r|] eqn:Hf;
    [|discriminate].
  intros [= <-]. apply normalizeScore_nonneg.
  now apply findCandidate_Some in Hf.
Qed.

Lemma contribution_nonneg (src : list Recommend.Scored) (w : Q) (p : Z) :
  (0 <= w)%Q -> (0 <= contribution src w p)%Q.
Proof.
  intros Hw. unfold contribution.
  destruct (normalizedIn src p) as [n|] eqn:Hn; [|apply Qle_refl].
  apply Qmult_le_0_compat; [|assumption].
  eapply normalizedIn_nonneg; eassumption.
Qed.

(** A list that keeps the product's normalized score contributes at least
    as much as the list it is compared with. *)
Lemma contribution_mono (src src1 : list Recommend.Scored) (w : Q) (p : Z) :
  (0 <= w)%Q ->
  keepsNormalized src src1 p ->
  (contribution src1 w p <= contribution src w p)%Q.
Proof.
  intros Hw Hkeep. unfold keepsNormalized in Hkeep.
  unfold contribution at 1.
  destruct (normalizedIn src1 p) as [n1|].
  - destruct Hkeep as (n & Hn & E). unfold contribution. rewrite Hn, E.
    apply Qle_refl.
  - now apply contribution_nonneg.
Qed.

(** ** Ranking *)

Lemma find_unique {A : Type} (key : A -> Z) (l : list A) (c : A) :
  List.NoDup (List.map key l) -> In c l ->
  List.find (fun x => key x =? key c) l = Some c.
Proof.
  intros Hnd Hin.
  destruct (List.find (fun x => key x =? key c) l) as [c'|] eqn:Hf.
  - apply find_some in Hf. destruct Hf as [Hin' E]. apply Z.eqb_eq in E.
    f_equal. now apply (NoDup_map_eq key l c' c Hnd Hin' Hin).
  - apply (find_none _ _ Hf) in Hin. rewrite Z.eqb_refl in Hin. discriminate.
Qed.

(** With the other products' scores fixed, a product whose score does not
    drop has no more entries ahead of it. *)
Lemma aheadOf_mono (out out1 : list Recommend.Combined) (p : Z) (s s1 : Q) :
  List.NoDup (List.map (fun c => prod_id (Recommend.c_product c)) out) ->
  scoreIn out p = Some s ->
  scoreIn out1 p = Some s1 ->
  (s1 <= s)%Q ->
  othersFixed out out1 p ->
  aheadOf s out <= aheadOf s1 out1.
Proof.
  intros Hnd Hs Hs1 Hle Hfix. unfold aheadOf, len.
  set (key := fun c => prod_id (Recommend.c_product c)) in *.
  set (F := List.filter (fun c => Qltb s (Recommend.recommendation_score c)) out).
  set (F1 := List.filter
               (fun c => Qltb s1 (Recommend.recommendation_score c)) out1).
  rewrite <- (length_map key F), <- (length_map key F1).
  apply inj_le, NoDup_incl_length; [now apply NoDup_map_filter|].
  intros q Hq. apply in_map_iff in Hq. destruct Hq as (c & Hkey & Hc).
  apply filter_In in Hc. destruct Hc as [Hc Hahead]. apply Qltb_lt in Hahead.
  pose proof (find_unique key out c Hnd Hc) as Hu.
  unfold key in Hu, Hkey. cbn beta in Hu. rewrite Hkey in Hu.
  assert (q <> p) as Hqp.
  { intros ->. unfold scoreIn in Hs. rewrite Hu in Hs. cbn in Hs.
    injection Hs as Hs. rewrite Hs in Hahead. now apply Qlt_irrefl in Hahead. }
  specialize (Hfix q Hqp). unfold scoreIn in Hfix. rewrite Hu in Hfix.
  cbn in Hfix.
  destruct (List.find (fun c0 => prod_id (Recommend.c_product c0) =? q) out1)
    as [c1|] eqn:Hf1; cbn in Hfix; [|contradiction].
  apply find_some in Hf1. destruct Hf1 as [Hc1 E]. apply Z.eqb_eq in E.
  apply in_map_iff. exists c1. split; [exact E|].
  apply filter_In. split; [assumption|]. apply Qltb_lt.
  rewrite <- Hfix. eapply Qle_lt_trans; eassumption.
Qed.

(** C6.  With the weights 0.4, 0.3 and 0.3, take two runs of the combiner in
    which a product has, in every list of the second run that holds it, the
    normalized score it has in the same list of the first run: the first run
    has the product in k of its lists, the second in some of these, in one
    only in particular.  The combined score of the product in the first run
    is then at least its score in the second; and with the scores of the other
    products the same in both results, no more entries score strictly higher
    than the product in the first result than in the second, so that it ranks
    at least as high. *)
Theorem combine_monotone_in_sources
  (aff col seg aff1 col1 seg1 : list Recommend.Scored) (p : Z) :
  List.NoDup (productIds aff) -> List.NoDup (productIds col) ->
  List.NoDup (productIds seg) ->
  List.NoDup (productIds aff1) -> List.NoDup (productIds col1) ->
  List.NoDup (productIds seg1) ->
  keepsNormalized aff aff1 p ->
  keepsNormalized col col1 p ->
  keepsNormalized seg seg1 p ->
  In p (productIds aff1) \/ In p (productIds col1) \/ In p (productIds seg1) ->
  exists s s1,
    scoreIn (Recommend.combineRecommendations aff col seg Recommend.weights) p
    = Some s
    /\ scoreIn (Recommend.combineRecommendations aff1 col1 seg1
                  Recommend.weights) p
       = Some s1
    /\ (s1 <= s)%Q
    /\ rankOf (Recommend.combineRecommendations aff col seg Recommend.weights) p
       = Some (aheadOf s (Recommend.combineRecommendations aff col seg
                            Recommend.weights))
    /\ rankOf (Recommend.combineRecommendations aff1 col1 seg1
                 Recommend.weights) p
       = Some (aheadOf s1 (Recommend.combineRecommendations aff1 col1 seg1
                             Recommend.weights))
    /\ (othersFixed
          (Recommend.combineRecommendations aff col seg Recommend.weights)
          (Recommend.combineRecommendations aff1 col1 seg1 Recommend.weights)
          p ->
        aheadOf s (Recommend.combineRecommendations aff col seg
                     Recommend.weights)
        <= aheadOf s1 (Recommend.combineRecommendations aff1 col1 seg1
                         Recommend.weights)).
Proof.
  intros Ha Hc Hs Ha1 Hc1 Hs1 Ka Kc Ks Hin1.
  pose proof (productScores_total aff col seg Recommend.weights p Ha Hc Hs) as T.
  pose proof (productScores_total aff1 col1 seg1 Recommend.weights p
                Ha1 Hc1 Hs1) as T1.
  pose proof (scoreIn_combine aff col seg Recommend.weights p) as S.
  pose proof (scoreIn_combine aff1 col1 seg1 Recommend.weights p) as S1.
  assert ((combinedTotal aff1 col1 seg1 Recommend.weights p
           <= combinedTotal aff col seg Recommend.weights p)%Q) as Hmono.
  { unfold combinedTotal.
    repeat apply Qplus_le_compat; apply contribution_mono;
      try assumption; discriminate. }
  destruct (option_map Recommend.totalScore
              (Recommend.mapGet p
                 (Recommend.productScores aff1 col1 seg1 Recommend.weights)))
    as [t1|]; [|tauto].
  destruct T1 as [E1 _].
  assert ((0 <= combinedTotal aff1 col1 seg1 Recommend.weights p)%Q) as Hpos1.
  { unfold combinedTotal.
    rewrite <- (Qplus_0_r 0), <- (Qplus_0_r (0 + 0)).
    repeat apply Qplus_le_compat; apply contribution_nonneg; discriminate. }
  destruct (option_map Recommend.totalScore
              (Recommend.mapGet p
                 (Recommend.productScores aff col seg Recommend.weights)))
    as [t|].
  - destruct T as [E _]. cbn in S, S1.
    exists (toFixed2 (t * 100)), (toFixed2 (t1 * 100)).
    assert ((toFixed2 (t1 * 100) <= toFixed2 (t * 100))%Q) as Hle.
    { apply toFixed2_le. apply Qmult_le_compat_r; [|discriminate].
      rewrite E, E1. exact Hmono. }
    split; [exact S|]. split; [exact S1|]. split; [exact Hle|].
    unfold rankOf. rewrite S, S1. cbn. split; [reflexivity|].
    split; [reflexivity|].
    intros Hfix. eapply aheadOf_mono; try eassumption.
    apply combineRecommendations_NoDup.
  - exfalso. destruct T as (Na & Nc & Ns).
    assert (forall src src1, keepsNormalized src src1 p ->
                             ~ In p (productIds src) ->
                             ~ In p (productIds src1)) as Hnone.
    { intros src src1 K Hnot Hin. unfold keepsNormalized, normalizedIn in K.
      apply findCandidate_None in Hnot. rewrite Hnot in K. cbn in K.
      destruct (findCandidate p src1) as [r|] eqn:Hf; cbn in K.
      - destruct K as (n & Hn & _). discriminate.
      - apply findCandidate_None in Hf. contradiction. }
    destruct Hin1 as [H|[H|H]];
      [apply (Hnone _ _ Ka Na H) | apply (Hnone _ _ Kc Nc H)
       | apply (Hnone _ _ Ks Ns H)].
Qed.

Lemma combine_samples_others_fixed :
  othersFixed Combine.bothLists Combine.oneList 7.
Proof.
  intros q Hq. unfold scoreIn.
  remember Combine.bothLists as out eqn:E. vm_compute in E. subst out.
  remember Combine.oneList as out1 eqn:E1. vm_compute in E1. subst out1.
  cbn [List.find Recommend.c_product prod_id].
  destruct (7 =? q) eqn:E7; [lia|].
  destruct (8 =? q) eqn:E8; cbn; [reflexivity | exact I].
Defined.

Lemma combine_monotone_in_sources_witness :
  exists s s1,
    scoreIn Combine.bothLists 7 = Some s
    /\ scoreIn Combine.oneList 7 = Some s1
    /\ (s1 <= s)%Q
    /\ aheadOf s Combine.bothLists <= aheadOf s1 Combine.oneList.
Proof.
  destruct (combine_monotone_in_sources
              Combine.affinityList Combine.collaborativeWith []
              Combine.affinityList Combine.collaborativeWithout [] 7)
    as (s & s1 & Hs & Hs1 & Hle & _ & _ & Hrank).
  - repeat (constructor; [cbn; intuition discriminate|]). constructor.
  - repeat (constructor; [cbn; intuition discriminate|]). constructor.
  - constructor.
  - repeat (constructor; [cbn; intuition discriminate|]). constructor.
  - repeat (constructor; [cbn; intuition discriminate|]). constructor.
  - constructor.
  - exists 1%Q. split; reflexivity.
  - exact I.
  - exact I.
  - left. cbn. tauto.
  - exists s, s1. repeat split; try assumption.
    apply Hrank, combine_samples_others_fixed.
Defined.

(** The combined result is in descending order of score. *)
Lemma insertBy_sorted {A : Type} (before : A -> A -> bool) (x : A) (l : list A) :
  (forall a b, before a b = false -> before b a = true) ->
  (forall a b c, before a b = true -> before b c = true -> before a c = true) ->
  StronglySorted (fun a b => before a b = true) l ->
  StronglySorted (fun a b => before a b = true) (insertBy before x l).
Proof.
  intros Htot Htrans. induction 1 as [|y l Hl IH Hy]; cbn.
  - repeat constructor.
  - destruct (before x y) eqn:E.
    + constructor; [now constructor|]. constructor; [exact E|].
      rewrite List.Forall_forall in *. intros z Hz. eapply Htrans; eauto.
    + constructor; [exact IH|]. rewrite List.Forall_forall in *.
      intros z Hz. apply (Permutation_in _ (insertBy_perm before x l)) in Hz.
      destruct Hz as [<-|Hz]; [now apply Htot | now apply Hy].
Qed.

Lemma sortBy_sorted {A : Type} (before : A -> A -> bool) (l : list A) :
  (forall a b, before a b = false -> before b a = true) ->
  (forall a b c, before a b = true -> before b c = true -> before a c = true) ->
  StronglySorted (fun a b => before a b = true) (sortBy before l).
Proof.
  intros Htot Htrans. induction l as [|x l IH]; [constructor|].
  unfold sortBy in *. cbn. now apply insertBy_sorted.
Qed.

Lemma StronglySorted_weaken {A : Type} (R R' : A -> A -> Prop) (l : list A) :
  (forall a b, R a b -> R' a b) ->
  StronglySorted R l -> StronglySorted R' l.
Proof.
  intros Himp. induction 1 as [|x l Hl IH Hx]; constructor; [assumption|].
  rewrite List.Forall_forall in *. intros b Hb. now apply Himp, Hx.
Qed.

Lemma combineRecommendations_sorted (aff col seg : list Recommend.Scored)
  (w : Recommend.Weights) :
  StronglySorted
    (fun a b => (Recommend.recommendation_score b
                 <= Recommend.recommendation_score a)%Q)
    (Recommend.combineRecommendations aff col seg w).
Proof.
  unfold Recommend.combineRecommendations.
  eapply StronglySorted_weaken; [|apply sortBy_sorted].
  - intros a b H. now apply Qle_bool_iff.
  - intros a b H. apply Qle_bool_iff, Qlt_le_weak, Qnot_le_lt.
    intros Hle. apply Qle_bool_iff in Hle. congruence.
  - intros a b c H1 H2. apply Qle_bool_iff in H1, H2. apply Qle_bool_iff.
    eapply Qle_trans; eassumption.
Qed.


(** * Properties of the other operations *)

(** ** Cache service *)

Section CacheReads.

Context {V : Type}.
Implicit Types (c : CacheService.Cache V).

(** What [get] returns depends on the two entries under the key only. *)
Lemma get_by_entries c c' (ok : bool) (now : Z) (k : string) :
  CacheService.memoryCache c !! k = CacheService.memoryCache c' !! k ->
  CacheService.analyticsCache c !! k = CacheService.analyticsCache c' !! k ->
  fst (CacheService.get ok now k c) = fst (CacheService.get ok now k c').
Proof.
  intros Hm Hd. unfold CacheService.get, CacheService.memGet.
  rewrite Hm, Hd.
  destruct (CacheService.memoryCache c' !! k) as [e|];
    [destruct (CacheService.expired now e)|]; cbn; try reflexivity;
    destruct ok; try reflexivity;
    destruct (CacheService.analyticsCache c' !! k) as [d|]; try reflexivity;
    destruct (now <=? CacheService.expires_at d); reflexivity.
Qed.

Lemma get_no_entry c (ok : bool) (now : Z) (k : string) :
  CacheService.memoryCache c !! k = None ->
  CacheService.analyticsCache c !! k = None ->
  fst (CacheService.get ok now k c) = None.
Proof.
  intros Hm Hd. unfold CacheService.get, CacheService.memGet.
  rewrite Hm, Hd. now destruct ok.
Qed.

(** With nothing under the key in the fast tier, [get] answers from the
    durable tier. *)
Lemma get_from_durable c (now : Z) (k : string)
  (e : CacheService.AnalyticsCache V) :
  CacheService.memoryCache c !! k = None ->
  CacheService.analyticsCache c !! k = Some e ->
  fst (CacheService.get true now k c)
  = if now <=? CacheService.expires_at e
    then Some (CacheService.cache_value e) else None.
Proof.
  intros Hm Hd. unfold CacheService.get, CacheService.memGet.
  rewrite Hm, Hd. now destruct (now <=? CacheService.expires_at e).
Qed.

Lemma get_fast_only c (ok : bool) (now : Z) (k : string) :
  CacheService.analyticsCache c !! k = None ->
  fst (CacheService.get ok now k c)
  = fst (CacheService.memGet now k (CacheService.memoryCache c)).
Proof.
  intros Hd. unfold CacheService.get.
  destruct (CacheService.memGet now k (CacheService.memoryCache c))
    as [[v|] m]; cbn; [reflexivity|].
  rewrite Hd. now destruct ok.
Qed.

End CacheReads.

(** X1.  [del(k)] that reaches the durable tier reports success; after it a
    [get(k)] finds nothing in either tier, at whatever instant, and the
    answer to a [get] of any other key is what it was. *)
Theorem cache_del_removes {V : Type} (c : CacheService.Cache V) (k : string) :
  fst (CacheService.del true k c) = true
  /\ (forall (getOk : bool) (now : Z),
         fst (CacheService.get getOk now k (snd (CacheService.del true k c)))
         = None)
  /\ (forall (getOk : bool) (now : Z) (k' : string),
         k' <> k ->
         fst (CacheService.get getOk now k' (snd (CacheService.del true k c)))
         = fst (CacheService.get getOk now k' c)).
Proof.
  split; [reflexivity|]. split.
  - intros getOk now. apply get_no_entry; cbn; apply lookup_delete_eq.
  - intros getOk now k' Hk. apply get_by_entries; cbn;
      now rewrite lookup_delete_ne by congruence.
Qed.

(** X2.  When the durable tier rejects the deletion, [del(k)] reports failure
    having emptied the fast tier only: the durable row is still there, and
    the next [get(k)] made before its expiry returns its value again. *)
Theorem cache_del_durable_failure {V : Type} (c : CacheService.Cache V)
  (k : string) (e : CacheService.AnalyticsCache V) (now : Z) :
  CacheService.analyticsCache c !! k = Some e ->
  now <= CacheService.expires_at e ->
  fst (CacheService.del false k c) = false
  /\ CacheService.memoryCache (snd (CacheService.del false k c)) !! k = None
  /\ fst (CacheService.get true now k (snd (CacheService.del false k c)))
     = Some (CacheService.cache_value e).
Proof.
  intros He Hnow. split; [reflexivity|]. split; [apply lookup_delete_eq|].
  rewrite (get_from_durable _ now k e); cbn;
    [|apply lookup_delete_eq|exact He].
  now rewrite (proj2 (Z.leb_le _ _) Hnow).
Qed.

Lemma cache_del_durable_failure_witness :
  fst (CacheService.del false "customer:7:clv"
         (snd (CacheService.set true 1000 "customer:7:clv" 42 168 "clv"
                 CacheService.empty))) = false
  /\ fst (CacheService.get true 2000 "customer:7:clv"
            (snd (CacheService.del false "customer:7:clv"
                    (snd (CacheService.set true 1000 "customer:7:clv" 42 168
                            "clv" CacheService.empty)))))
     = Some 42.
Proof.
  pose proof
    (cache_del_durable_failure
       (snd (CacheService.set true 1000 "customer:7:clv" 42 168 "clv"
               CacheService.empty))
       "customer:7:clv"
       {| CacheService.cache_value := 42; CacheService.cache_type := "clv";
          CacheService.expires_at := 604801000 |}
       2000) as H.
  destruct H as (Hf & _ & Hg); [vm_compute; reflexivity | cbn; lia |].
  split; [exact Hf | exact Hg].
Defined.

(** X3.  [clear(type)] empties the fast tier whatever the type: afterwards a
    key is found only through a durable row of another type.  A [get] finds
    nothing under a key whose durable row has the cleared type or that has
    no durable row, and it finds the durable value, up to the row's expiry,
    under a key whose row has another type.  [clear()] with no type, or with
    the empty string, leaves nothing. *)
Theorem cache_clear_by_type {V : Type} (c : CacheService.Cache V)
  (ty : string) :
  (forall (cacheType : option string) (getOk : bool) (now : Z) (k : string),
      cacheType = None \/ cacheType = Some "" ->
      fst (CacheService.get getOk now k
             (snd (CacheService.clear true cacheType c))) = None)
  /\ (forall (getOk : bool) (now : Z) (k : string),
         CacheService.analyticsCache c !! k = None
         \/ (exists e, CacheService.analyticsCache c !! k = Some e
                       /\ CacheService.cache_type e = ty) ->
         fst (CacheService.get getOk now k
                (snd (CacheService.clear true (Some ty) c))) = None)
  /\ (forall (now : Z) (k : string) (e : CacheService.AnalyticsCache V),
         ty <> "" ->
         CacheService.analyticsCache c !! k = Some e ->
         CacheService.cache_type e <> ty ->
         fst (CacheService.get true now k
                (snd (CacheService.clear true (Some ty) c)))
         = if now <=? CacheService.expires_at e
           then Some (CacheService.cache_value e) else None).
Proof.
  split; [|split].
  - intros cacheType getOk now k [-> | ->];
      apply get_no_entry; cbn; apply lookup_empty.
  - intros getOk now k Hk. apply get_no_entry; cbn; [apply lookup_empty|].
    destruct (String.eqb ty ""); [apply lookup_empty|].
    apply map_lookup_filter_None. destruct Hk as [Hk | (e & Hk & Hty)].
    + left. exact Hk.
    + right. intros x Hx. cbn. rewrite Hk in Hx. injection Hx as <-.
      intros Hne. now apply Hne.
  - intros now k e Hty Hk Hne. apply get_from_durable; cbn;
      [apply lookup_empty|].
    destruct (String.eqb ty "") eqn:E; [apply String.eqb_eq in E; contradiction|].
    apply map_lookup_filter_Some. split; [exact Hk | exact Hne].
Qed.

(** X4.  [cleanExpired()] removes from the durable tier exactly the rows whose
    expiry is past, returns their number, and leaves the fast tier alone; no
    [get] made from then on is answered differently.  When the store rejects
    the deletion it returns 0 and nothing has changed. *)
Theorem clean_expired_keeps_answers {V : Type} (c : CacheService.Cache V)
  (now : Z) :
  (forall (getOk : bool) (t : Z) (k : string),
      now <= t ->
      fst (CacheService.get getOk t k (snd (CacheAdmin.cleanExpired true now c)))
      = fst (CacheService.get getOk t k c))
  /\ CacheService.memoryCache (snd (CacheAdmin.cleanExpired true now c))
     = CacheService.memoryCache c
  /\ (forall (k : string) (e : CacheService.AnalyticsCache V),
         CacheService.analyticsCache
           (snd (CacheAdmin.cleanExpired true now c)) !! k = Some e
         <-> CacheService.analyticsCache c !! k = Some e
             /\ now <= CacheService.expires_at e)
  /\ fst (CacheAdmin.cleanExpired true now c)
     + Z.of_nat (size (CacheService.analyticsCache
                         (snd (CacheAdmin.cleanExpired true now c))))
     = Z.of_nat (size (CacheService.analyticsCache c))
  /\ CacheAdmin.cleanExpired false now c = (0, c).
Proof.
  assert (forall (k : string) (e : CacheService.AnalyticsCache V),
             CacheService.analyticsCache
               (snd (CacheAdmin.cleanExpired true now c)) !! k = Some e
             <-> CacheService.analyticsCache c !! k = Some e
                 /\ now <= CacheService.expires_at e) as Hrows.
  { intros k e. cbn. rewrite map_lookup_filter_Some. cbn. intuition lia. }
  split; [|split; [reflexivity|split; [exact Hrows|split; [|reflexivity]]]].
  - intros getOk t k Ht.
    unfold CacheService.get.
    change (CacheService.memoryCache (snd (CacheAdmin.cleanExpired true now c)))
      with (CacheService.memoryCache c).
    destruct (CacheService.memGet t k (CacheService.memoryCache c))
      as [[v|] m]; cbn -[CacheAdmin.cleanExpired]; [reflexivity|].
    destruct getOk; [|reflexivity].
    destruct (CacheService.analyticsCache c !! k) as [e|] eqn:Hk.
    + destruct (now <=? CacheService.expires_at e) eqn:Hlive.
      * apply Z.leb_le in Hlive.
        rewrite (proj2 (Hrows k e) (conj Hk Hlive)).
        now destruct (t <=? CacheService.expires_at e).
      * apply Z.leb_gt in Hlive.
        assert ((t <=? CacheService.expires_at e) = false) as Hdead
            by (apply Z.leb_gt; lia).
        rewrite Hdead.
        destruct (CacheService.analyticsCache
                    (snd (CacheAdmin.cleanExpired true now c)) !! k)
          as [e'|] eqn:Hk'; [|reflexivity].
        apply Hrows in Hk' as [Hk' Hlive']. rewrite Hk in Hk'.
        injection Hk' as <-. lia.
    + destruct (CacheService.analyticsCache
                  (snd (CacheAdmin.cleanExpired true now c)) !! k)
        as [e'|] eqn:Hk'; [|reflexivity].
      apply Hrows in Hk' as [Hk' _]. rewrite Hk in Hk'. discriminate.
  - cbn.
    rewrite <- (map_filter_union_complement
                  (fun kv => CacheService.expires_at (snd kv) < now)
                  (CacheService.analyticsCache c)) at 3.
    rewrite map_size_disj_union by apply map_disjoint_filter_complement.
    lia.
Qed.

Section CacheComposition.

Context {V : Type}.
Implicit Types (c : CacheService.Cache V).

(** A [get] made up to the expiry of what [set] has just stored returns it. *)
Lemma get_after_set_live c (setOk getOk : bool) (now t : Z) (k : string)
  (v : V) (ttlHours : Q) (ty : string) :
  (0 < ttlHours)%Q -> 0 <= now ->
  (inject_Z t <= inject_Z now + ttlHours * 3600 * 1000)%Q ->
  fst (CacheService.get getOk t k
         (snd (CacheService.set setOk now k v ttlHours ty c))) = Some v.
Proof.
  intros Httl Hnow Ht. unfold CacheService.get. rewrite memoryCache_set.
  assert ((0 < ttlHours * 3600)%Q) as Hsec
      by (apply Qmult_lt_0_compat; [exact Httl | reflexivity]).
  assert ((inject_Z t <= inject_Z now + ttlHours * 3600 * 1000)%Q) as Ht'
      by exact Ht.
  pose proof (memGet_memSet_live (CacheService.memoryCache c) now t
                (ttlHours * 3600) k v Hnow Hsec Ht') as Hlive.
  destruct (CacheService.memGet t k _) as [[x|] m]; cbn in Hlive;
    [|discriminate].
  injection Hlive as ->. reflexivity.
Qed.

(** A [get] that found nothing finds nothing when it is repeated at once. *)
Lemma get_miss_again c (ok : bool) (now : Z) (k : string) :
  fst (CacheService.get ok now k c) = None ->
  fst (CacheService.get ok now k (snd (CacheService.get ok now k c))) = None.
Proof.
  unfold CacheService.get at 1 3. unfold CacheService.memGet.
  destruct (CacheService.memoryCache c !! k) as [e|] eqn:Hm;
    [destruct (CacheService.expired now e) eqn:He|]; cbn;
    try discriminate.
  - destruct ok; cbn.
    + destruct (CacheService.analyticsCache c !! k) as [d|] eqn:Hd;
        [destruct (now <=? CacheService.expires_at d) eqn:Hl|]; cbn;
        try discriminate; intros _.
      * rewrite (get_from_durable _ now k d); cbn;
          [now rewrite Hl | apply lookup_delete_eq | exact Hd].
      * apply get_no_entry; cbn; [apply lookup_delete_eq | exact Hd].
    + intros _. unfold CacheService.get, CacheService.memGet. cbn.
      now rewrite lookup_delete_eq.
  - destruct ok; cbn.
    + destruct (CacheService.analyticsCache c !! k) as [d|] eqn:Hd;
        [destruct (now <=? CacheService.expires_at d) eqn:Hl|]; cbn;
        try discriminate; intros _.
      * rewrite (get_from_durable _ now k d); cbn;
          [now rewrite Hl | exact Hm | exact Hd].
      * apply get_no_entry; cbn; [exact Hm | exact Hd].
    + intros _. unfold CacheService.get, CacheService.memGet. cbn.
      now rewrite Hm.
Qed.

End CacheComposition.

(** X5.  [getOrSet] computes once: after a miss it returns the value that
    [computeFn] produced and stores it, and every [getOrSet] of the key made
    up to the expiry returns that value again without using what its own
    [computeFn] would produce, be it another value or a failure. *)
Theorem getOrSet_computes_once {V : Type} (c : CacheService.Cache V)
  (k : string) (v : V) (ttlHours : Q) (now : Z) (ty : string)
  (getOk setOk : bool) :
  (0 < ttlHours)%Q ->
  0 <= now ->
  fst (CacheService.get getOk now k c) = None ->
  fst (CacheService.getOrSet getOk setOk now k (Ok v) ttlHours ty c) = Ok v
  /\ forall (getOk' setOk' : bool) (t : Z) (computed' : result V)
            (ttlHours' : Q) (ty' : string),
      (inject_Z t <= inject_Z now + ttlHours * 3600 * 1000)%Q ->
      fst (CacheService.getOrSet getOk' setOk' t k computed' ttlHours' ty'
             (snd (CacheService.getOrSet getOk setOk now k (Ok v) ttlHours
                     ty c)))
      = Ok v.
Proof.
  intros Httl Hnow Hmiss. unfold CacheService.getOrSet at 1 3.
  destruct (CacheService.get getOk now k c) as [[x|] c1]; cbn in Hmiss;
    [discriminate|].
  split; [reflexivity|].
  intros getOk' setOk' t computed' ttlHours' ty' Ht.
  cbn [snd]. unfold CacheService.getOrSet.
  pose proof (get_after_set_live c1 setOk getOk' now t k v ttlHours ty
                Httl Hnow Ht) as Hhit.
  destruct (CacheService.get getOk' t k _) as [[x|] c2]; cbn in Hhit;
    [|discriminate].
  injection Hhit as ->. reflexivity.
Qed.

Lemma getOrSet_computes_once_witness :
  fst (CacheService.getOrSet true true 1000 "segments:overview" (Ok 42) 6
         "segments" CacheService.empty) = Ok 42
  /\ fst (CacheService.getOrSet true true 5000 "segments:overview"
            (Err Upstream) 6 "segments"
            (snd (CacheService.getOrSet true true 1000 "segments:overview"
                    (Ok 42) 6 "segments" CacheService.empty))) = Ok 42.
Proof.
  destruct (getOrSet_computes_once CacheService.empty "segments:overview" 42
              6 1000 "segments" true true) as [H1 H2];
    [reflexivity | lia | reflexivity |].
  split; [exact H1|].
  apply (H2 true true 5000 (Err Upstream) 6%Q "segments").
  vm_compute. discriminate.
Defined.

(** X6.  A failed computation is not cached: on a miss, [getOrSet] hands on
    the failure of [computeFn], leaves the cache as the lookup left it, and
    a retry whose computation succeeds returns the new value. *)
Theorem getOrSet_failure_not_cached {V : Type} (c : CacheService.Cache V)
  (k : string) (e : Error) (ttlHours : Q) (now : Z) (ty : string)
  (getOk setOk : bool) :
  fst (CacheService.get getOk now k c) = None ->
  CacheService.getOrSet getOk setOk now k (Err e) ttlHours ty c
  = (Err e, snd (CacheService.get getOk now k c))
  /\ fst (CacheService.get getOk now k
            (snd (CacheService.getOrSet getOk setOk now k (Err e) ttlHours
                    ty c))) = None
  /\ forall v : V,
      fst (CacheService.getOrSet getOk setOk now k (Ok v) ttlHours ty
             (snd (CacheService.getOrSet getOk setOk now k (Err e) ttlHours
                     ty c))) = Ok v.
Proof.
  intros Hmiss.
  assert (CacheService.getOrSet getOk setOk now k (Err e) ttlHours ty c
          = (Err e, snd (CacheService.get getOk now k c))) as Hfail.
  { unfold CacheService.getOrSet.
    destruct (CacheService.get getOk now k c) as [[x|] c1]; cbn in Hmiss;
      [discriminate | reflexivity]. }
  split; [exact Hfail|]. rewrite Hfail. cbn [snd].
  pose proof (get_miss_again c getOk now k Hmiss) as Hagain.
  split; [exact Hagain|].
  intros v. unfold CacheService.getOrSet.
  destruct (CacheService.get getOk now k (snd (CacheService.get getOk now k c)))
    as [[x|] c2]; cbn in Hagain; [discriminate | reflexivity].
Qed.

Lemma getOrSet_failure_not_cached_witness :
  CacheService.getOrSet true true 1000 "top-clv:limit-5"
    (@Err nat Upstream) 12 "clv" CacheService.empty
  = (Err Upstream,
     snd (CacheService.get true 1000 "top-clv:limit-5" CacheService.empty))
  /\ fst (CacheService.getOrSet true true 1000 "top-clv:limit-5" (Ok 7%nat) 12
            "clv"
            (snd (CacheService.getOrSet true true 1000 "top-clv:limit-5"
                    (@Err nat Upstream) 12 "clv" CacheService.empty)))
     = Ok 7%nat.
Proof.
  destruct (getOrSet_failure_not_cached (@CacheService.empty nat)
              "top-clv:limit-5" Upstream 12 1000 "clv" true true)
    as (H1 & _ & H2); [reflexivity|].
  split; [exact H1 | exact (H2 7%nat)].
Defined.

(** *** Keys *)

Lemma colonFree_app (s t : string) :
  colonFree (s +:+ t) = colonFree s && colonFree t.
Proof.
  induction s as [|a s IH]; [reflexivity|].
  change (colonFree (String a (s +:+ t))
          = colonFree (String a s) && colonFree t).
  cbn [colonFree]. rewrite IH. now rewrite andb_assoc.
Qed.

Lemma pretty_N_go_colonFree (x : N) (s : string) :
  colonFree s = true -> colonFree (pretty_N_go x s) = true.
Proof.
  revert s. induction (N.lt_wf_0 x) as [x _ IH]. intros s Hs.
  assert (x = 0 \/ 0 < x)%N as [-> | Hpos] by lia.
  - now rewrite pretty_N_go_0.
  - rewrite pretty_N_go_step by exact Hpos. apply IH.
    + now apply N.div_lt.
    + cbn. rewrite Hs. unfold pretty_N_char.
      now repeat case_match.
Qed.

Lemma pretty_N_colonFree (x : N) : colonFree (pretty x) = true.
Proof.
  unfold pretty, pretty_N. destruct (decide (x = 0%N)); [reflexivity|].
  now apply pretty_N_go_colonFree.
Qed.

Lemma pretty_Z_colonFree (z : Z) : colonFree (pretty z) = true.
Proof.
  destruct z as [|p|p]; [reflexivity | apply pretty_N_colonFree |].
  unfold pretty, pretty_Z. rewrite colonFree_app.
  change (pretty p) with (pretty (Npos p)). now rewrite pretty_N_colonFree.
Qed.

Lemma string_app_cons (a : Ascii.ascii) (s t : string) :
  String a s +:+ t = String a (s +:+ t).
Proof. reflexivity. Qed.

Lemma string_app_nil (t : string) : "" +:+ t = t.
Proof. reflexivity. Qed.

(** Two strings that agree from a colon-free prefix and a colon on have the
    same prefix and the same rest. *)
Lemma split_at_first_colon (s1 s2 t1 t2 : string) :
  colonFree s1 = true -> colonFree s2 = true ->
  s1 +:+ ":" +:+ t1 = s2 +:+ ":" +:+ t2 ->
  s1 = s2 /\ t1 = t2.
Proof.
  revert s2. induction s1 as [|a s1 IH]; intros [|b s2] H1 H2 Heq;
    rewrite ?string_app_cons, ?string_app_nil in Heq.
  - injection Heq as ->. now split.
  - injection Heq as <- _. cbn in H2. discriminate.
  - injection Heq as -> _. cbn in H1. discriminate.
  - injection Heq as -> Heq. cbn [colonFree] in H1, H2.
    apply andb_prop in H1 as [_ H1].
    apply andb_prop in H2 as [_ H2].
    destruct (IH s2 H1 H2 Heq) as [-> ->]. now split.
Qed.

Lemma generateCustomerKey_inj (a b : Z) (t t' : string) :
  CacheService.generateCustomerKey a t = CacheService.generateCustomerKey b t' ->
  a = b /\ t = t'.
Proof.
  unfold CacheService.generateCustomerKey. intros H.
  rewrite !string_app_cons, !string_app_nil in H.
  injection H as H.
  apply split_at_first_colon in H as [Hid Ht];
    [|apply pretty_Z_colonFree..].
  split; [|exact Ht]. now apply (inj pretty).
Qed.

(** X7.  The keys of per-customer entries never collide: two keys made by
    [generateCustomerKey] are the same string only for the same customer and
    the same kind of entry, whatever the kind's name. *)
Theorem customer_keys_do_not_collide (a b : Z) (t t' : string) :
  CacheService.generateCustomerKey a t = CacheService.generateCustomerKey b t' ->
  a = b /\ t = t'.
Proof. apply generateCustomerKey_inj. Qed.

Lemma customer_keys_do_not_collide_witness :
  CacheService.generateCustomerKey 12 "rfm" = "customer:12:rfm"
  /\ (12 = 12 /\ "rfm" = "rfm").
Proof.
  split; [reflexivity|].
  apply (customer_keys_do_not_collide 12 12 "rfm" "rfm"). reflexivity.
Defined.

Section Invalidation.

Context {V : Type}.
Implicit Types (c : CacheService.Cache V).

Lemma del_each_entries (keys : list string) c (k : string) :
  let c' := fold_left (fun c key => snd (CacheService.del true key c)) keys c in
  (In k keys ->
   CacheService.memoryCache c' !! k = None
   /\ CacheService.analyticsCache c' !! k = None)
  /\ (~ In k keys ->
      CacheService.memoryCache c' !! k = CacheService.memoryCache c !! k
      /\ CacheService.analyticsCache c' !! k
         = CacheService.analyticsCache c !! k).
Proof.
  revert c. induction keys as [|key keys IH]; intros c; cbn.
  - split; [intros []|]. now intros _.
  - specialize (IH (snd (CacheService.del true key c))). cbn in IH.
    destruct IH as [IHin IHout].
    destruct (in_dec String.string_dec k keys) as [Hin | Hout].
    + split; [intros _; now apply IHin | intros Hn; exfalso; apply Hn; now right].
    + destruct (IHout Hout) as [Hm Hd]. rewrite Hm, Hd. cbn.
      split.
      * intros [-> | Hin]; [|contradiction].
        split; apply lookup_delete_eq.
      * intros Hn.
        assert (key <> k) as Hne by (intros ->; apply Hn; now left).
        split; now apply lookup_delete_ne.
Qed.

End Invalidation.

(** X8.  [invalidateCustomerCache(id)] removes the customer's five kinds of
    entries from both tiers, so that a [get] of any of them finds nothing,
    and the answer to a [get] of any other key, an entry of another customer
    in particular, is what it was. *)
Theorem invalidate_customer_cache_isolated {V : Type}
  (c : CacheService.Cache V) (customerId : Z) :
  (forall (ty : string) (getOk : bool) (now : Z),
      In ty customerEntryTypes ->
      fst (CacheService.get getOk now
             (CacheService.generateCustomerKey customerId ty)
             (CacheService.invalidateCustomerCache true customerId c))
      = None)
  /\ (forall (other : Z) (ty : string) (getOk : bool) (now : Z),
         other <> customerId ->
         fst (CacheService.get getOk now
                (CacheService.generateCustomerKey other ty)
                (CacheService.invalidateCustomerCache true customerId c))
         = fst (CacheService.get getOk now
                  (CacheService.generateCustomerKey other ty) c))
  /\ (forall (k : string) (getOk : bool) (now : Z),
         (forall ty, In ty customerEntryTypes ->
                     k <> CacheService.generateCustomerKey customerId ty) ->
         fst (CacheService.get getOk now k
                (CacheService.invalidateCustomerCache true customerId c))
         = fst (CacheService.get getOk now k c)).
Proof.
  assert (forall (k : string) (getOk : bool) (now : Z),
             (forall ty, In ty customerEntryTypes ->
                         k <> CacheService.generateCustomerKey customerId ty) ->
             fst (CacheService.get getOk now k
                    (CacheService.invalidateCustomerCache true customerId c))
             = fst (CacheService.get getOk now k c)) as Hother.
  { intros k getOk now Hk. unfold CacheService.invalidateCustomerCache.
    apply get_by_entries;
      apply (del_each_entries
               (List.map (CacheService.generateCustomerKey customerId)
                         customerEntryTypes) c k);
      intros Hin; apply in_map_iff in Hin as (ty & Hty & Hin);
      now apply (Hk ty Hin). }
  split; [|split; [|exact Hother]].
  - intros ty getOk now Hty. unfold CacheService.invalidateCustomerCache.
    apply get_no_entry;
      apply (del_each_entries
               (List.map (CacheService.generateCustomerKey customerId)
                         customerEntryTypes) c);
      apply in_map; exact Hty.
  - intros other ty getOk now Hne. apply Hother. intros ty' _ Heq.
    apply generateCustomerKey_inj in Heq as [Heq _]. contradiction.
Qed.

(** X9.  A durable-tier hit less than a second before the row's expiry puts
    the value back into the fast tier with a time-to-live of
    [Math.floor(remaining / 1000) = 0] seconds, which the fast tier takes as
    "never expires": from then on every [get] of the key returns the value,
    however long after the expiry and whether or not the durable tier can be
    reached. *)
Theorem durable_hit_in_last_second_outlives_expiry {V : Type}
  (c : CacheService.Cache V) (k : string)
  (e : CacheService.AnalyticsCache V) (now : Z) :
  CacheService.memoryCache c !! k = None ->
  CacheService.analyticsCache c !! k = Some e ->
  now <= CacheService.expires_at e < now + 1000 ->
  fst (CacheService.get true now k c) = Some (CacheService.cache_value e)
  /\ forall (getOk : bool) (t : Z),
      fst (CacheService.get getOk t k (snd (CacheService.get true now k c)))
      = Some (CacheService.cache_value e).
Proof.
  intros Hm Hd [Hlo Hhi].
  unfold CacheService.get at 1 3. unfold CacheService.memGet at 1 2.
  rewrite Hm, Hd. rewrite (proj2 (Z.leb_le _ _) Hlo). cbn [fst snd].
  split; [reflexivity|].
  intros getOk t.
  assert ((CacheService.expires_at e - now) / 1000 = 0) as ->
      by (apply Z.div_small; lia).
  unfold CacheService.get, CacheService.memGet, CacheService.memSet. cbn.
  rewrite lookup_insert_eq. reflexivity.
Qed.

Lemma durable_hit_in_last_second_outlives_expiry_witness :
  fst (CacheService.get false (1000 + 24 * 3600 * 1000 + 86400000)
         "customer:7:rfm"
         (snd (CacheService.get true (1000 + 24 * 3600 * 1000 - 500)
                 "customer:7:rfm"
                 (snd (CacheService.clear false None
                         (snd (CacheService.set true 1000 "customer:7:rfm" 42
                                 24 "rfm" CacheService.empty)))))))
  = Some 42.
Proof.
  destruct (durable_hit_in_last_second_outlives_expiry
              (snd (CacheService.clear false None
                      (snd (CacheService.set true 1000 "customer:7:rfm" 42
                              24 "rfm" CacheService.empty))))
              "customer:7:rfm"
              {| CacheService.cache_value := 42;
                 CacheService.cache_type := "rfm";
                 CacheService.expires_at := 1000 + 24 * 3600 * 1000 |}
              (1000 + 24 * 3600 * 1000 - 500)) as [_ H];
    [reflexivity | vm_compute; reflexivity | cbn; lia |].
  apply (H false (1000 + 24 * 3600 * 1000 + 86400000)).
Defined.

(** ** Recommendation engine *)

Lemma normalizeScore_le_1 (src : list Recommend.Scored) (rec : Recommend.Scored) :
  In rec src ->
  (Recommend.normalizeScore (Recommend.score rec) src <= 1)%Q.
Proof.
  intros Hin. unfold Recommend.normalizeScore.
  destruct src as [|r0 src0] eqn:Hsrc; [destruct Hin|]. rewrite <- Hsrc in *.
  clear Hsrc r0 src0.
  assert (In (Recommend.score rec) (List.map Recommend.score src)) as Hs
      by now apply in_map.
  pose proof (maxOf_ge _ _ Hs) as Hmax. pose proof (minOf_le _ _ Hs) as Hmin.
  destruct (Qeq_bool _ _) eqn:E; [apply Qle_refl|].
  assert (~ (Recommend.maxOf (List.map Recommend.score src)
             == Recommend.minOf (List.map Recommend.score src))%Q) as Hne.
  { intros H. apply Qeq_bool_iff in H. congruence. }
  apply Qle_shift_div_r.
  - unfold Qminus. apply -> Qlt_minus_iff.
    destruct (Qlt_le_dec (Recommend.minOf (List.map Recommend.score src))
                         (Recommend.maxOf (List.map Recommend.score src)))
      as [Hlt|Hle]; [assumption|].
    exfalso. apply Hne. apply Qle_antisym; [assumption|].
    eapply Qle_trans; eassumption.
  - rewrite Qmult_1_l. unfold Qminus.
    apply Qplus_le_compat; [assumption | apply Qle_refl].
Qed.

Lemma contribution_le (src : list Recommend.Scored) (w : Q) (p : Z) :
  (0 <= w)%Q -> (contribution src w p <= w)%Q.
Proof.
  intros Hw. unfold contribution, normalizedIn.
  destruct (findCandidate p src) as [rec|] eqn:Hrec; cbn; [|exact Hw].
  apply findCandidate_Some in Hrec as (Hin & _ & _).
  rewrite <- (Qmult_1_l w) at 2.
  apply Qmult_le_compat_r; [|exact Hw].
  now apply normalizeScore_le_1.
Qed.

Lemma combinedTotal_range (aff col seg : list Recommend.Scored) (p : Z) :
  (0 <= combinedTotal aff col seg Recommend.weights p <= 1)%Q.
Proof.
  unfold combinedTotal.
  assert ((0 <= 4 # 10)%Q) as H4 by discriminate.
  assert ((0 <= 3 # 10)%Q) as H3 by discriminate.
  pose proof (contribution_nonneg aff _ p H4) as Ha0.
  pose proof (contribution_nonneg col _ p H3) as Hc0.
  pose proof (contribution_nonneg seg _ p H3) as Hs0.
  pose proof (contribution_le aff _ p H4) as Ha1.
  pose proof (contribution_le col _ p H3) as Hc1.
  pose proof (contribution_le seg _ p H3) as Hs1.
  change (Recommend.affinity Recommend.weights) with (4 # 10)%Q.
  change (Recommend.collaborative Recommend.weights) with (3 # 10)%Q.
  change (Recommend.segment Recommend.weights) with (3 # 10)%Q.
  split.
  - apply Qle_trans with (0 + 0 + 0)%Q; [discriminate|].
    repeat apply Qplus_le_compat; assumption.
  - apply Qle_trans with ((4 # 10) + (3 # 10) + (3 # 10))%Q; [|discriminate].
    repeat apply Qplus_le_compat; assumption.
Qed.

(** X10.  Every score that [combineRecommendations] gives out lies between 0
    and 100 when the weights are the engine's (0.4, 0.3, 0.3) and no source
    list names a product twice: a normalized score is between 0 and 1 and the
    weights add up to 1. *)
Theorem combined_score_between_0_and_100
  (aff col seg : list Recommend.Scored) (c : Recommend.Combined) :
  List.NoDup (productIds aff) -> List.NoDup (productIds col) ->
  List.NoDup (productIds seg) ->
  In c (Recommend.combineRecommendations aff col seg Recommend.weights) ->
  (0 <= Recommend.recommendation_score c <= 100)%Q.
Proof.
  intros Ha Hc Hs Hin.
  pose proof (combineRecommendations_NoDup aff col seg Recommend.weights) as Hnd.
  pose proof (find_unique (fun x => prod_id (Recommend.c_product x)) _ c Hnd Hin)
    as Hfind.
  pose proof (scoreIn_combine aff col seg Recommend.weights
                (prod_id (Recommend.c_product c))) as Hscore.
  unfold scoreIn in Hscore at 1. rewrite Hfind in Hscore. cbn in Hscore.
  pose proof (productScores_total aff col seg Recommend.weights
                (prod_id (Recommend.c_product c)) Ha Hc Hs) as Htot.
  destruct (option_map Recommend.totalScore _) as [t|]; [|discriminate].
  cbn in Hscore. injection Hscore as ->.
  destruct Htot as [Ht _].
  destruct (combinedTotal_range aff col seg (prod_id (Recommend.c_product c)))
    as [H0 H1].
  rewrite <- Ht in H0, H1. split.
  - apply Qle_trans with (toFixed2 (0 * 100)); [discriminate|].
    apply toFixed2_le. apply Qmult_le_compat_r; [exact H0 | discriminate].
  - apply Qle_trans with (toFixed2 (1 * 100)); [|discriminate].
    apply toFixed2_le. apply Qmult_le_compat_r; [exact H1 | discriminate].
Qed.

Lemma combined_score_between_0_and_100_witness :
  Forall (fun c => (0 <= Recommend.recommendation_score c <= 100)%Q)
         Combine.bothLists.
Proof.
  apply List.Forall_forall. intros c Hin.
  apply (combined_score_between_0_and_100 Combine.affinityList
           Combine.collaborativeWith [] c);
    [repeat constructor; cbn; intuition discriminate..|exact Hin].
Defined.

Section MapKeys.

Variable step : list (Z * Recommend.Entry) -> Recommend.Scored
                -> list (Z * Recommend.Entry).
Hypothesis step_keys :
  forall m rec x,
    In x (List.map fst (step m rec))
    <-> x = prod_id (Recommend.product rec) \/ In x (List.map fst m).

Lemma fold_step_keys (part : list Recommend.Scored)
  (m : list (Z * Recommend.Entry)) (x : Z) :
  In x (List.map fst (fold_left step part m))
  <-> In x (productIds part) \/ In x (List.map fst m).
Proof.
  revert m. induction part as [|rec part IH]; intros m; cbn.
  - tauto.
  - rewrite IH, step_keys. intuition.
Qed.

End MapKeys.

Lemma productScores_keys (aff col seg : list Recommend.Scored)
  (w : Recommend.Weights) (x : Z) :
  In x (List.map fst (Recommend.productScores aff col seg w))
  <-> In x (productIds aff) \/ In x (productIds col) \/ In x (productIds seg).
Proof.
  assert (forall src q m rec y,
             In y (List.map fst (Recommend.accumulate src q m rec))
             <-> y = prod_id (Recommend.product rec) \/ In y (List.map fst m))
    as Hacc.
  { intros src q m rec y. unfold Recommend.accumulate.
    destruct (Recommend.mapGet _ m); apply mapSet_keys. }
  unfold Recommend.productScores.
  rewrite (fold_step_keys _ (Hacc seg _)), (fold_step_keys _ (Hacc col _)).
  rewrite (fold_step_keys (Recommend.putFirst aff (Recommend.affinity w))).
  - cbn. tauto.
  - intros m rec y. apply mapSet_keys.
Qed.

(** X11.  The list that [combineRecommendations] returns is in descending
    order of score, names every product of the three source lists, names no
    other product and names none twice. *)
Theorem combined_list_sorted_and_complete
  (aff col seg : list Recommend.Scored) (w : Recommend.Weights) :
  StronglySorted
    (fun a b => (Recommend.recommendation_score b
                 <= Recommend.recommendation_score a)%Q)
    (Recommend.combineRecommendations aff col seg w)
  /\ List.NoDup (List.map (fun c => prod_id (Recommend.c_product c))
                          (Recommend.combineRecommendations aff col seg w))
  /\ (forall p : Z,
         In p (List.map (fun c => prod_id (Recommend.c_product c))
                        (Recommend.combineRecommendations aff col seg w))
         <-> In p (productIds (aff ++ col ++ seg)))
  /\ (forall c, In c (Recommend.combineRecommendations aff col seg w) ->
                exists rec, In rec (aff ++ col ++ seg)
                            /\ Recommend.c_product c = Recommend.product rec).
Proof.
  split; [apply combineRecommendations_sorted|].
  split; [apply combineRecommendations_NoDup|].
  split; [|apply combineRecommendations_products].
  intros p. unfold productIds. rewrite !map_app, !in_app_iff.
  fold (productIds aff) (productIds col) (productIds seg).
  rewrite <- productScores_keys with (w := w).
  destruct (productScores_keyed aff col seg w) as [_ Hkeys].
  rewrite <- (keys_toCombined _ Hkeys).
  unfold Recommend.combineRecommendations.
  split; apply Permutation_in, Permutation_map;
    [|apply Permutation_sym]; apply sortBy_perm.
Qed.

(** X12.  Each of the three sub-algorithms names a product at most once and
    returns at most [limit] candidates, each with a score of at least 1 and
    with the sub-algorithm's own type; with a negative [limit] it returns no
    candidate, the store's rejection of the query being caught. *)
Theorem sub_algorithms_unique_and_bounded (db : Database)
  (customerId : Z) (purchased : list Z) (limit : Z) :
  uniqueProductIds db ->
  let sources :=
    [(Recommend.getProductAffinityRecommendations db purchased limit,
      "affinity");
     (Recommend.getCollaborativeFilteringRecommendations db customerId
        purchased limit, "collaborative");
     (Recommend.getSegmentBasedRecommendations db customerId purchased limit,
      "segment")] in
  forall src ty,
    In (src, ty) sources ->
    List.NoDup (productIds src)
    /\ (0 <= limit -> len src <= limit)
    /\ (limit < 0 -> src = [])
    /\ (forall rec, In rec src ->
                    (1 <= Recommend.score rec)%Q /\ Recommend.type rec = ty).
Proof.
  intros Huniq sources src ty Hin.
  assert (forall rows why,
             let out := Recommend.rankCandidates db rows limit ty why in
             List.NoDup (productIds out)
             /\ (0 <= limit -> len out <= limit)
             /\ (limit < 0 -> out = [])
             /\ (forall rec, In rec out ->
                             (1 <= Recommend.score rec)%Q
                             /\ Recommend.type rec = ty)) as Hrank.
  { intros rows why out.
    destruct (rankCandidates_products db rows limit ty why Huniq) as [Hnd Hlen].
    split; [exact Hnd|]. split; [exact Hlen|]. split.
    - intros Hneg. unfold out, Recommend.rankCandidates, Recommend.topByCount.
      now rewrite (proj2 (Z.ltb_lt _ _) Hneg).
    - intros rec Hrec.
      apply rankCandidates_spec in Hrec as (_ & _ & Hscore & Hone & Hty).
      split; [|exact Hty]. rewrite Hscore.
      change 1%Q with (inject_Z 1). now rewrite <- Zle_Qle. }
  assert (List.NoDup (productIds []) /\ (0 <= limit -> len (@nil Recommend.Scored) <= limit)
          /\ (limit < 0 -> @nil Recommend.Scored = [])
          /\ (forall rec, In rec (@nil Recommend.Scored) ->
                          (1 <= Recommend.score rec)%Q
                          /\ Recommend.type rec = ty)) as Hnil.
  { split; [constructor|]. split; [unfold len; cbn; lia|].
    split; [reflexivity | intros rec []]. }
  destruct Hin as [Heq | [Heq | [Heq | []]]]; injection Heq as <- <-.
  - unfold Recommend.getProductAffinityRecommendations.
    destruct purchased; [exact Hnil | apply Hrank].
  - unfold Recommend.getCollaborativeFilteringRecommendations.
    destruct (Recommend.findAnalytics db customerId) as [a|]; [|exact Hnil].
    destruct (Recommend.noSegment _); [exact Hnil|].
    destruct (List.map ca_customer_id _); [exact Hnil | apply Hrank].
  - unfold Recommend.getSegmentBasedRecommendations.
    destruct (Recommend.findAnalytics db customerId) as [a|];
      [apply Hrank | exact Hnil].
Qed.

Lemma sub_algorithms_unique_and_bounded_witness :
  List.NoDup (productIds
                (Recommend.getProductAffinityRecommendations Sample.shop [10]
                   10))
  /\ len (Recommend.getProductAffinityRecommendations Sample.shop [10] 10)
     <= 10.
Proof.
  destruct (sub_algorithms_unique_and_bounded Sample.shop 1 [10] 10
              shop_unique
              (Recommend.getProductAffinityRecommendations Sample.shop [10] 10)
              "affinity") as (Hnd & Hlen & _);
    [left; reflexivity|].
  split; [exact Hnd | apply Hlen; lia].
Defined.

Lemma slice0_length {A : Type} (limit : Z) (l : list A) :
  0 <= limit -> len (Recommend.slice0 limit l) <= limit.
Proof.
  intros Hl. unfold Recommend.slice0, len.
  rewrite (proj2 (Z.ltb_ge _ _) Hl).
  pose proof (firstn_length_le (Z.to_nat limit) l). lia.
Qed.

Lemma slice0_all {A : Type} (limit : Z) (l : list A) :
  len l <= limit -> Recommend.slice0 limit l = l.
Proof.
  intros Hl. unfold Recommend.slice0, len in *.
  assert ((limit <? 0) = false) as -> by (apply Z.ltb_ge; lia).
  apply firstn_all2. lia.
Qed.

(** X13.  Whichever way [generatePersonalizedRecommendations] answers (the
    cache, the persisted rows, a recompute), for a known customer and a
    [limit] that is not negative it returns a list of at most [limit]
    entries; for an unknown customer it fails with 'Customer not found' and
    touches neither the store nor the cache. *)
Theorem recommendations_at_most_limit (st : Recommend.State)
  (now customerId limit : Z) :
  (customerExists (Recommend.db st) customerId ->
   0 <= limit ->
   exists recs,
     fst (Recommend.generatePersonalizedRecommendations st now customerId limit)
     = Ok recs
     /\ len recs <= limit)
  /\ (findCustomerByPk (Recommend.db st) customerId = None ->
      Recommend.generatePersonalizedRecommendations st now customerId limit
      = (Err NotFound, st)).
Proof.
  split.
  - intros Hex Hlimit.
    destruct (findCustomerByPk_exists _ _ Hex) as [c Hc].
    unfold Recommend.generatePersonalizedRecommendations. rewrite Hc.
    destruct (CacheService.get true now _ (Recommend.cache st))
      as [cached cache1].
    assert (exists recs,
               fst (match Recommend.getCachedRecommendations (Recommend.db st)
                            now customerId with
                    | Some ((_ :: _) as rows) =>
                        let result :=
                          Recommend.slice0 limit
                            (List.map Recommend.FromRows rows) in
                        let cache2 :=
                          snd (CacheService.set true now
                                 (CacheService.generateCustomerKey customerId
                                    "recommendations")
                                 result 12 "recommendations" cache1) in
                        (Ok result,
                         {| Recommend.db := Recommend.db st;
                            Recommend.cache := cache2 |})
                    | _ =>
                        let topRecommendations :=
                          Recommend.recompute (Recommend.db st) customerId
                                              limit in
                        let db1 :=
                          Recommend.cacheRecommendations (Recommend.db st) now
                            customerId topRecommendations in
                        let result :=
                          List.map Recommend.FromCombine topRecommendations in
                        let cache2 :=
                          snd (CacheService.set true now
                                 (CacheService.generateCustomerKey customerId
                                    "recommendations")
                                 result 12 "recommendations" cache1) in
                        (Ok result,
                         {| Recommend.db := db1; Recommend.cache := cache2 |})
                    end) = Ok recs
               /\ len recs <= limit) as Hrest.
    { assert (len (List.map Recommend.FromCombine
                     (Recommend.recompute (Recommend.db st) customerId limit))
              <= limit) as Hre.
      { unfold len. rewrite length_map.
        apply (slice0_length limit _ Hlimit). }
      destruct (Recommend.getCachedRecommendations _ now customerId)
        as [[|row rows]|]; cbn [fst];
        eexists; (split; [reflexivity|]);
        [exact Hre | now apply slice0_length | exact Hre]. }
    destruct cached as [[|r hit]|]; [exact Hrest | | exact Hrest].
    cbn [fst]. eexists. split; [reflexivity|]. now apply slice0_length.
  - intros Hnone. unfold Recommend.generatePersonalizedRecommendations.
    now rewrite Hnone.
Qed.

Lemma recommendations_at_most_limit_witness :
  exists recs,
    fst (Recommend.generatePersonalizedRecommendations
           Sample.shopAfterOrder (110 * Sample.day + 7200000) 1 5) = Ok recs
    /\ len recs <= 5.
Proof.
  apply (proj1 (recommendations_at_most_limit Sample.shopAfterOrder
                  (110 * Sample.day + 7200000) 1 5)).
  - eexists. split; [vm_compute; left; reflexivity | reflexivity].
  - lia.
Defined.

Lemma within_twelve_hours (now t : Z) :
  t <= now + Recommend.TWELVE_HOURS ->
  (inject_Z t <= inject_Z now + 12 * 3600 * 1000)%Q.
Proof.
  intros Ht. apply Qle_trans with (inject_Z (now + Recommend.TWELVE_HOURS)).
  - now rewrite <- Zle_Qle.
  - rewrite inject_Z_plus. apply Qplus_le_compat; [apply Qle_refl|].
    discriminate.
Qed.

(** X14.  What a recompute or a read of the persisted rows has returned is
    what the engine keeps returning for twelve hours: when a call that was
    not answered by the cache has returned a non-empty list, every call for
    the same customer made up to twelve hours later returns the first
    [limit'] entries of that list, whatever has happened to the store in the
    meantime (purchases, refunds, stock), as long as the customer is still
    there. *)
Theorem recommendations_served_for_twelve_hours (st : Recommend.State)
  (now customerId limit : Z) (recs : list Recommend.Recommendation) :
  0 <= now ->
  fst (CacheService.get true now
         (CacheService.generateCustomerKey customerId "recommendations")
         (Recommend.cache st)) = None
  \/ fst (CacheService.get true now
            (CacheService.generateCustomerKey customerId "recommendations")
            (Recommend.cache st)) = Some [] ->
  fst (Recommend.generatePersonalizedRecommendations st now customerId limit)
  = Ok recs ->
  recs <> [] ->
  forall (db' : Database) (t limit' : Z),
    customerExists db' customerId ->
    t <= now + Recommend.TWELVE_HOURS ->
    fst (Recommend.generatePersonalizedRecommendations
           {| Recommend.db := db';
              Recommend.cache :=
                Recommend.cache
                  (snd (Recommend.generatePersonalizedRecommendations
                          st now customerId limit)) |}
           t customerId limit')
    = Ok (Recommend.slice0 limit' recs).
Proof.
  intros Hnow Hfast Hres Hne db' t limit' Hex Ht.
  assert (exists cache1,
             Recommend.cache
               (snd (Recommend.generatePersonalizedRecommendations
                       st now customerId limit))
             = snd (CacheService.set true now
                      (CacheService.generateCustomerKey customerId
                         "recommendations")
                      recs 12 "recommendations" cache1)) as [cache1 Hcache].
  { unfold Recommend.generatePersonalizedRecommendations in Hres |- *.
    destruct (findCustomerByPk (Recommend.db st) customerId);
      [|discriminate].
    destruct (CacheService.get true now _ (Recommend.cache st))
      as [cached cache1].
    exists cache1. cbn [fst] in Hfast.
    destruct Hfast as [-> | ->];
      destruct (Recommend.getCachedRecommendations _ now customerId)
        as [[|row rows]|];
      cbn [fst snd Recommend.cache] in Hres |- *;
      injection Hres as <-; reflexivity. }
  destruct (findCustomerByPk_exists _ _ Hex) as [c Hc].
  unfold Recommend.generatePersonalizedRecommendations at 1.
  cbn [Recommend.db Recommend.cache]. rewrite Hc, Hcache.
  assert ((0 < 12)%Q) as Httl by reflexivity.
  pose proof (get_after_set_live cache1 true true now t
                (CacheService.generateCustomerKey customerId "recommendations")
                recs 12 "recommendations" Httl Hnow
                (within_twelve_hours now t Ht)) as Hhit.
  destruct (CacheService.get true t _ _) as [cached' cache2].
  cbn [fst] in Hhit. subst cached'.
  destruct recs as [|r recs]; [contradiction | reflexivity].
Qed.

Lemma recommendations_served_for_twelve_hours_witness :
  exists r,
    fst (Recommend.generatePersonalizedRecommendations
           Sample.shopStart (110 * Sample.day) 1 5) = Ok [r]
    /\ fst (Recommend.generatePersonalizedRecommendations
              Sample.shopAfterOrder (110 * Sample.day + 7200000) 1 3)
       = Ok (Recommend.slice0 3 [r]).
Proof.
  destruct (fst (Recommend.generatePersonalizedRecommendations
                   Sample.shopStart (110 * Sample.day) 1 5))
    as [recs|] eqn:Hfirst; [|vm_compute in Hfirst; discriminate].
  assert (exists r, recs = [r]) as [r ->].
  { vm_compute in Hfirst. injection Hfirst as <-. eexists. reflexivity. }
  exists r. split; [reflexivity|].
  apply (recommendations_served_for_twelve_hours Sample.shopStart
           (110 * Sample.day) 1 5 [r]);
    [unfold Sample.day, MS_PER_DAY; lia
    | left; reflexivity
    | exact Hfirst
    | discriminate
    | eexists; split; [vm_compute; left; reflexivity | reflexivity]
    | vm_compute; discriminate].
Defined.

Lemma insertBy_map {A B : Type} (f : A -> B) (before : B -> B -> bool)
  (x : A) (l : list A) :
  insertBy before (f x) (List.map f l)
  = List.map f (insertBy (fun a b => before (f a) (f b)) x l).
Proof.
  induction l as [|y l IH]; cbn; [reflexivity|].
  destruct (before (f x) (f y)); cbn; [reflexivity|]. now rewrite IH.
Qed.

Lemma sortBy_map {A B : Type} (f : A -> B) (before : B -> B -> bool)
  (l : list A) :
  sortBy before (List.map f l)
  = List.map f (sortBy (fun a b => before (f a) (f b)) l).
Proof.
  induction l as [|x l IH]; cbn; [reflexivity|].
  fold (sortBy before (List.map f l)).
  fold (sortBy (fun a b => before (f a) (f b)) l).
  rewrite IH. apply insertBy_map.
Qed.

Lemma filter_none {A : Type} (f : A -> bool) (l : list A) :
  (forall x, In x l -> f x = false) -> List.filter f l = [].
Proof.
  induction l as [|x l IH]; intros H; cbn; [reflexivity|].
  rewrite (H x) by now left. apply IH. intros y Hy. apply H. now right.
Qed.

Lemma filter_all {A : Type} (f : A -> bool) (l : list A) :
  (forall x, In x l -> f x = true) -> List.filter f l = l.
Proof.
  induction l as [|x l IH]; intros H; cbn; [reflexivity|].
  rewrite (H x) by now left. f_equal. apply IH. intros y Hy. apply H. now right.
Qed.

Lemma Forall2_map_r {A B : Type} (R : A -> B -> Prop) (f : A -> B)
  (l : list A) :
  (forall x, In x l -> R x (f x)) -> Forall2 R l (List.map f l).
Proof.
  induction l as [|x l IH]; intros H; cbn; constructor.
  - apply H. now left.
  - apply IH. intros y Hy. apply H. now right.
Qed.

Lemma persisted_rows_of (db : Database) (now customerId t : Z)
  (recs : list Recommend.Combined) (keep : bool) :
  (forall rec, In rec recs ->
               (customerId =? customerId)
               && (t - Recommend.TWELVE_HOURS <=? now) = keep) ->
  List.filter
    (fun r => (pr_customer_id r =? customerId)
              && (t - Recommend.TWELVE_HOURS <=? pr_generated_at r))
    (product_recommendations
       (Recommend.cacheRecommendations db now customerId recs))
  = if keep
    then List.map
           (fun rec => {| pr_customer_id := customerId;
                          pr_product_id := prod_id (Recommend.c_product rec);
                          pr_recommendation_score :=
                            Recommend.recommendation_score rec;
                          pr_recommendation_type :=
                            String.concat ","
                              (Recommend.recommendation_types rec);
                          pr_reason := List.hd "" (Recommend.reasons rec);
                          pr_generated_at := now;
                          pr_expires_at := now + Recommend.TWELVE_HOURS |})
           recs
    else [].
Proof.
  intros Hkeep. cbn [product_recommendations Recommend.cacheRecommendations].
  rewrite List.filter_app. rewrite (filter_none _ (List.filter _ _)).
  - cbn [app]. destruct keep.
    + apply filter_all. intros r Hr. apply in_map_iff in Hr as (rec & <- & Hrec).
      cbn. exact (Hkeep rec Hrec).
    + apply filter_none. intros r Hr.
      apply in_map_iff in Hr as (rec & <- & Hrec). cbn. exact (Hkeep rec Hrec).
  - intros r Hr. apply List.filter_In in Hr as [_ Hr].
    apply negb_true_iff in Hr. now rewrite Hr.
Qed.

(** X15.  The persisted recommendations round-trip: after
    [cacheRecommendations] has stored a customer's list, replacing the
    customer's earlier rows, [getCachedRecommendations] returns, for twelve
    hours, one row per entry in descending order of score, each with the
    entry's score, product, joined types and first reason; it returns nothing
    once the twelve hours have passed or when the list was empty; and what it
    returns for any other customer is unchanged. *)
Theorem persisted_recommendations_round_trip (db : Database)
  (now customerId : Z) (recs : list Recommend.Combined) :
  (forall t : Z,
      t - Recommend.TWELVE_HOURS <= now ->
      recs <> [] ->
      exists rows,
        Recommend.getCachedRecommendations
          (Recommend.cacheRecommendations db now customerId recs) t customerId
        = Some rows
        /\ Forall2 (readsBack db) (byScore recs) rows)
  /\ (forall t : Z,
         now < t - Recommend.TWELVE_HOURS \/ recs = [] ->
         Recommend.getCachedRecommendations
           (Recommend.cacheRecommendations db now customerId recs) t customerId
         = None)
  /\ (forall t other : Z,
         other <> customerId ->
         Recommend.getCachedRecommendations
           (Recommend.cacheRecommendations db now customerId recs) t other
         = Recommend.getCachedRecommendations db t other).
Proof.
  split; [|split].
  - intros t Ht Hne. unfold Recommend.getCachedRecommendations.
    rewrite (persisted_rows_of db now customerId t recs true).
    2:{ intros rec _. rewrite Z.eqb_refl. cbn. now apply Z.leb_le. }
    rewrite sortBy_map. cbn [pr_recommendation_score].
    fold (byScore recs).
    assert (byScore recs <> []) as Hsorted.
    { intros H. apply Hne. unfold byScore in H. now apply sortBy_nil_inv in H. }
    destruct (byScore recs) as [|rec sorted] eqn:Hs; [contradiction|].
    cbn [List.map]. eexists. split; [reflexivity|].
    rewrite map_map.
    change (Forall2 (readsBack db) (rec :: sorted)
              (List.map
                 (fun x =>
                    {| Recommend.p_product :=
                         findProductByPk db (prod_id (Recommend.c_product x));
                       Recommend.p_recommendation_score :=
                         Recommend.recommendation_score x;
                       Recommend.recommendation_type :=
                         String.concat "," (Recommend.recommendation_types x);
                       Recommend.p_reason :=
                         List.hd "" (Recommend.reasons x) |})
                 (rec :: sorted))).
    apply Forall2_map_r. intros x _. repeat split.
  - intros t Hcase. unfold Recommend.getCachedRecommendations.
    destruct Hcase as [Hlate | ->].
    + rewrite (persisted_rows_of db now customerId t recs false);
        [reflexivity|].
      intros rec _. rewrite Z.eqb_refl. cbn. apply Z.leb_gt. lia.
    + rewrite (persisted_rows_of db now customerId t [] true);
        [reflexivity | intros rec []].
  - intros t other Hother. unfold Recommend.getCachedRecommendations.
    cbn [product_recommendations Recommend.cacheRecommendations].
    rewrite List.filter_app. rewrite (filter_none _ (List.map _ recs)).
    2:{ intros r Hr. apply in_map_iff in Hr as (rec & <- & _). cbn.
        assert ((customerId =? other) = false) as ->
            by (apply Z.eqb_neq; congruence).
        reflexivity. }
    rewrite app_nil_r, filter_filter_and.
    assert (List.filter
              (fun x => negb (pr_customer_id x =? customerId)
                        && ((pr_customer_id x =? other)
                            && (t - Recommend.TWELVE_HOURS
                                <=? pr_generated_at x)))
              (product_recommendations db)
            = List.filter
                (fun r => (pr_customer_id r =? other)
                          && (t - Recommend.TWELVE_HOURS <=? pr_generated_at r))
                (product_recommendations db)) as ->.
    { apply List.filter_ext. intros r.
      destruct (pr_customer_id r =? other) eqn:E; [|now rewrite andb_false_r].
      apply Z.eqb_eq in E.
      assert ((pr_customer_id r =? customerId) = false) as ->
          by (apply Z.eqb_neq; congruence).
      reflexivity. }
    reflexivity.
Qed.

(** *** Cross-sell *)

Lemma memberZ_customersWhoBought (db : Database) (productId c : Z) :
  Recommend.memberZ c (CrossSell.customersWhoBought db productId)
  = Recommend.boughtAnyOf db [productId] c.
Proof.
  apply eq_true_iff_eq. rewrite memberZ_In.
  unfold CrossSell.customersWhoBought, Recommend.boughtAnyOf.
  rewrite nodup_In, in_map_iff, existsb_exists. split.
  - intros (t & <- & Ht). apply List.filter_In in Ht as [Hin Ht].
    apply andb_prop in Ht as [Hp Hs]. exists t. split; [exact Hin|].
    apply Z.eqb_eq in Hp.
    rewrite Z.eqb_refl, Hs, (proj2 (memberZ_In _ _)); [reflexivity|].
    left. now symmetry.
  - intros (t & Hin & Ht). apply andb_prop in Ht as [Ht Hs].
    apply andb_prop in Ht as [Hc Hp]. apply Z.eqb_eq in Hc.
    exists t. split; [exact Hc|]. apply List.filter_In. split; [exact Hin|].
    rewrite Hs. apply memberZ_In in Hp as [Hp | []]. subst productId.
    now rewrite Z.eqb_refl.
Qed.

Lemma otherRows_crossPurchases (db : Database) (productId q : Z) :
  q <> productId ->
  rowsOf q (CrossSell.otherRows db (CrossSell.customersWhoBought db productId)
              productId)
  = crossPurchases db productId q.
Proof.
  intros Hq. unfold rowsOf, CrossSell.otherRows, crossPurchases.
  rewrite filter_filter_and. apply List.filter_ext. intros t.
  rewrite memberZ_customersWhoBought.
  destruct (tx_product_id t =? q) eqn:E.
  - apply Z.eqb_eq in E.
    assert ((tx_product_id t =? productId) = false) as ->
        by (apply Z.eqb_neq; congruence).
    destruct (Recommend.boughtAnyOf db [productId] (tx_customer_id t));
      destruct (isCompleted (tx_status t)); reflexivity.
  - now rewrite !andb_false_r.
Qed.

Lemma traverse_total {A B : Type} (f : A -> option B) (l : list A) :
  (forall x, In x l -> exists y, f x = Some y) ->
  exists r, Recommend.traverse f l = Some r.
Proof.
  induction l as [|x l IH]; intros H; cbn; [now eexists|].
  destruct (H x) as [y ->]; [now left|].
  destruct IH as [r ->]; [intros z Hz; apply H; now right|].
  now eexists.
Qed.

Lemma inStock_top_bounded (db : Database) (rows : list Transaction)
  (limit : Z) (top : list (Z * Z)) :
  uniqueProductIds db ->
  Recommend.topByCount limit (Recommend.countByProduct rows) = Some top ->
  List.NoDup (List.map prod_id
                (Recommend.inStockProducts db (List.map fst top)))
  /\ len (Recommend.inStockProducts db (List.map fst top)) <= limit.
Proof.
  intros Huniq Htop.
  apply topByCount_spec in Htop. destruct Htop as (_ & _ & Hnd & Hlen).
  specialize (Hnd (countByProduct_NoDup rows)).
  split; [now apply NoDup_map_filter|].
  unfold len in *.
  rewrite <- (length_map prod_id).
  assert (length (List.map prod_id
                    (Recommend.inStockProducts db (List.map fst top)))
          <= length (List.map fst top))%nat as Hle.
  { apply NoDup_incl_length; [now apply NoDup_map_filter|].
    intros id Hid. apply in_map_iff in Hid. destruct Hid as (p & <- & Hp).
    now apply inStockProducts_spec in Hp. }
  rewrite (length_map fst top) in Hle. lia.
Qed.

(** X16.  [getProductCrossSell(productId, limit)] with a [limit] that is not
    negative returns at most [limit] entries, no product twice; each entry is
    a catalogue product other than [productId] that is in stock, its
    [cross_sell_count] is the number of completed purchases of it made by
    customers who have a completed purchase of [productId] (at least one),
    and its [affinity_score] is that number over the number of those
    customers, times 100.  When nobody has bought [productId] the result is
    empty whatever the [limit]; otherwise a negative [limit] makes the call
    fail, the store's rejection not being caught here. *)
Theorem cross_sell_entries (db : Database) (productId limit : Z) :
  uniqueProductIds db ->
  (0 <= limit ->
   exists entries,
     CrossSell.getProductCrossSell db productId limit = Ok entries
     /\ len entries <= limit
     /\ List.NoDup (List.map (fun e => prod_id (CrossSell.product e)) entries)
     /\ forall e, In e entries ->
                  In (CrossSell.product e) (products db)
                  /\ 0 < prod_stock_quantity (CrossSell.product e)
                  /\ prod_id (CrossSell.product e) <> productId
                  /\ CrossSell.cross_sell_count e
                     = len (crossPurchases db productId
                              (prod_id (CrossSell.product e)))
                  /\ 1 <= CrossSell.cross_sell_count e
                  /\ CrossSell.affinity_score e
                     = (inject_Z (CrossSell.cross_sell_count e)
                        / inject_Z (len (CrossSell.customersWhoBought
                                           db productId))
                        * 100)%Q)
  /\ (CrossSell.customersWhoBought db productId = [] ->
      CrossSell.getProductCrossSell db productId limit = Ok [])
  /\ (CrossSell.customersWhoBought db productId <> [] ->
      limit < 0 ->
      CrossSell.getProductCrossSell db productId limit = Err Upstream).
Proof.
  intros Huniq. split; [|split].
  - intros Hlimit. unfold CrossSell.getProductCrossSell.
    destruct (CrossSell.customersWhoBought db productId) as [|c0 cs] eqn:Hcs.
    { exists []. split; [reflexivity|]. split; [unfold len; cbn; lia|].
      split; [constructor | intros e []]. }
    rewrite <- Hcs. clear c0 cs Hcs.
    set (rows := CrossSell.otherRows db
                   (CrossSell.customersWhoBought db productId) productId).
    destruct (Recommend.topByCount limit (Recommend.countByProduct rows))
      as [top|] eqn:Htop.
    2:{ unfold Recommend.topByCount in Htop.
        rewrite (proj2 (Z.ltb_ge _ _) Hlimit) in Htop. discriminate. }
    destruct (inStock_top_bounded db rows limit top Huniq Htop) as [Hnd Hlen].
    pose proof (topByCount_spec _ _ _ Htop) as (_ & Hsub & _ & _).
    set (f := fun product : Product =>
                match List.find (fun g => fst g =? prod_id product) top with
                | Some crossSellData =>
                    Some {| CrossSell.product := product;
                            CrossSell.cross_sell_count := snd crossSellData;
                            CrossSell.affinity_score :=
                              (inject_Z (snd crossSellData)
                               / inject_Z (len (CrossSell.customersWhoBought
                                                  db productId))
                               * 100)%Q |}
                | None => None
                end).
    destruct (traverse_total f
                (Recommend.inStockProducts db (List.map fst top)))
      as [entries Hent].
    { intros p Hp. apply inStockProducts_spec in Hp as (_ & Hid & _).
      apply in_map_iff in Hid as (g & Hg & Hin). unfold f.
      destruct (List.find (fun g => fst g =? prod_id p) top) eqn:Hfind;
        [now eexists|].
      exfalso. apply (find_none _ _ Hfind) in Hin. cbn in Hin.
      rewrite Hg, Z.eqb_refl in Hin. discriminate. }
    rewrite Hent. exists entries. split; [reflexivity|].
    apply traverse_spec in Hent.
    assert (List.map CrossSell.product entries
            = Recommend.inStockProducts db (List.map fst top)) as Hprods.
    { clear -Hent. induction Hent as [|p e ps es Hpe _ IH]; [reflexivity|].
      cbn. rewrite IH. f_equal. unfold f in Hpe.
      destruct (List.find _ top); [|discriminate]. now injection Hpe as <-. }
    split; [|split].
    + unfold len in *. rewrite <- (length_map CrossSell.product), Hprods.
      exact Hlen.
    + rewrite <- (map_map CrossSell.product prod_id), Hprods. exact Hnd.
    + intros e He.
      destruct (Forall2_In_r _ _ _ _ Hent He) as (p & Hp & Hf).
      apply inStockProducts_spec in Hp. destruct Hp as (Hcat & _ & Hstock).
      unfold f in Hf.
      destruct (List.find (fun g => fst g =? prod_id p) top) as [g|] eqn:Hg;
        [|discriminate].
      injection Hf as <-. cbn.
      apply find_some in Hg. destruct Hg as [Hg E]. apply Z.eqb_eq in E.
      apply Hsub, countByProduct_spec in Hg. destruct Hg as [Hn Hpos].
      rewrite E in Hn.
      assert (prod_id p <> productId) as Hother.
      { destruct (len_pos_In (rowsOf (prod_id p) rows)) as [t Ht]; [lia|].
        apply rowsOf_In in Ht as [Ht Hpid]. unfold rows, CrossSell.otherRows in Ht.
        apply List.filter_In in Ht as [_ Ht].
        apply andb_prop in Ht as [Ht _]. apply andb_prop in Ht as [_ Ht].
        apply negb_true_iff, Z.eqb_neq in Ht. congruence. }
      repeat split; try assumption.
      rewrite Hn. unfold rows. now rewrite otherRows_crossPurchases.
  - intros Hnone. unfold CrossSell.getProductCrossSell. now rewrite Hnone.
  - intros Hsome Hneg. unfold CrossSell.getProductCrossSell.
    destruct (CrossSell.customersWhoBought db productId); [contradiction|].
    unfold Recommend.topByCount. now rewrite (proj2 (Z.ltb_lt _ _) Hneg).
Qed.

Lemma cross_sell_entries_witness :
  exists e1 e2,
    CrossSell.getProductCrossSell Sample.shop 12 5 = Ok [e1; e2]
    /\ prod_id (CrossSell.product e2) = 11
    /\ CrossSell.cross_sell_count e2 = 2
    /\ (CrossSell.affinity_score e2 == 200)%Q.
Proof.
  destruct (proj1 (cross_sell_entries Sample.shop 12 5 shop_unique))
    as (entries & Hres & _); [lia|].
  assert (exists e1 e2, entries = [e1; e2]
                        /\ prod_id (CrossSell.product e2) = 11
                        /\ CrossSell.cross_sell_count e2 = 2
                        /\ (CrossSell.affinity_score e2 == 200)%Q)
    as (e1 & e2 & -> & H).
  { vm_compute in Hres. injection Hres as <-. do 2 eexists.
    split; [reflexivity|]. repeat split. }
  exists e1, e2. split; [exact Hres | exact H].
Defined.

(** *** The batch run of the engine *)

Lemma generate_ok (st : Recommend.State) (now customerId limit : Z) :
  customerExists (Recommend.db st) customerId ->
  exists recs,
    fst (Recommend.generatePersonalizedRecommendations st now customerId limit)
    = Ok recs.
Proof.
  intros Hex. destruct (findCustomerByPk_exists _ _ Hex) as [c Hc].
  unfold Recommend.generatePersonalizedRecommendations. rewrite Hc.
  destruct (CacheService.get true now _ (Recommend.cache st))
    as [[[|r hit]|] cache1];
    destruct (Recommend.getCachedRecommendations (Recommend.db st) now
                customerId) as [[|row rows]|]; now eexists.
Qed.

Lemma generate_customers (st : Recommend.State) (now customerId limit : Z) :
  customers
    (Recommend.db
       (snd (Recommend.generatePersonalizedRecommendations
               st now customerId limit)))
  = customers (Recommend.db st).
Proof.
  unfold Recommend.generatePersonalizedRecommendations.
  destruct (findCustomerByPk (Recommend.db st) customerId); [|reflexivity].
  destruct (CacheService.get true now _ (Recommend.cache st))
    as [[[|r hit]|] cache1];
    destruct (Recommend.getCachedRecommendations (Recommend.db st) now
                customerId) as [[|row rows]|]; reflexivity.
Qed.

Section RecommendBatchFacts.

Variables (readFails : Z -> bool) (nowOf : Z -> Z).

Lemma recommendation_loop (l : list Customer) :
  forall (st : Recommend.State) (p nf : Z),
    (forall c, In c l -> customerExists (Recommend.db st) (cust_id c)) ->
    exists st',
      fold_left (RecommendBatch.step readFails nowOf) l (st, p, nf)
      = (st',
         p + countIf (fun c => negb (readFails (cust_id c))) l,
         nf + countIf (fun c => readFails (cust_id c)) l)
      /\ customers (Recommend.db st') = customers (Recommend.db st).
Proof.
  induction l as [|c l IH]; intros st p nf Hex.
  - exists st. cbn. unfold countIf, len. cbn. rewrite !Z.add_0_r. now split.
  - cbn [fold_left]. unfold RecommendBatch.step at 2, RecommendBatch.item.
    rewrite !countIf_cons.
    destruct (readFails (cust_id c)) eqn:Hfail; cbn [negb].
    + destruct (IH st p (nf + 1)) as (st' & Hfold & Hcust).
      { intros x Hx. apply Hex. now right. }
      exists st'. rewrite Hfold. split; [|exact Hcust].
      repeat (f_equal; try lia).
    + destruct (generate_ok st (nowOf (cust_id c)) (cust_id c) 10)
        as [recs Hok]; [apply Hex; now left|].
      pose proof (generate_customers st (nowOf (cust_id c)) (cust_id c) 10)
        as Hsame.
      destruct (Recommend.generatePersonalizedRecommendations st _ _ 10)
        as [res st1]. cbn [fst snd] in Hok, Hsame. subst res.
      destruct (IH st1 (p + 1) nf) as (st' & Hfold & Hcust).
      { intros x Hx. unfold customerExists. rewrite Hsame.
        apply Hex. now right. }
      exists st'. rewrite Hfold. split; [|congruence].
      repeat (f_equal; try lia).
Qed.

End RecommendBatchFacts.

(** X17.  [generateAllRecommendations] goes through every customer that
    [Customer.findAll] listed; a customer whose lookup the store rejects is
    counted as failed and the run goes on, and every other customer is
    processed: [processed + failed = total], no listed customer is ever
    'not found', and the run leaves the customers table as it was. *)
Theorem recommendation_batch_accounts (readFails : Z -> bool) (nowOf : Z -> Z)
  (st : Recommend.State) :
  exists summary st',
    RecommendBatch.generateAllRecommendations false readFails nowOf st
    = (Ok summary, st')
    /\ RecommendBatch.total summary = len (customers (Recommend.db st))
    /\ RecommendBatch.failed summary
       = countIf (fun c => readFails (cust_id c)) (customers (Recommend.db st))
    /\ RecommendBatch.processed summary
       = countIf (fun c => negb (readFails (cust_id c)))
                 (customers (Recommend.db st))
    /\ RecommendBatch.processed summary + RecommendBatch.failed summary
       = RecommendBatch.total summary
    /\ customers (Recommend.db st') = customers (Recommend.db st).
Proof.
  unfold RecommendBatch.generateAllRecommendations.
  destruct (recommendation_loop readFails nowOf (customers (Recommend.db st))
              st 0 0) as (st' & Hfold & Hcust).
  { intros c Hc. exists c. now split. }
  rewrite Hfold. eexists. exists st'. split; [reflexivity|].
  cbn [RecommendBatch.total RecommendBatch.failed RecommendBatch.processed].
  rewrite !Z.add_0_l.
  repeat split; try exact Hcust.
  rewrite Z.add_comm.
  apply (countIf_negb (fun c => readFails (cust_id c))).
Qed.

(** ** RFM service *)

Lemma upsertRFM_first_row (db : Database) (now : Z) (a : RFM.Analysis) :
  Recommend.findAnalytics (Batch.upsertRFM db now a) (RFM.customer_id a)
  = match Recommend.findAnalytics db (RFM.customer_id a) with
    | Some old => Some old
    | None => Some (Batch.rfmRow now a)
    end.
Proof.
  unfold Batch.upsertRFM, Recommend.findAnalytics. cbn.
  rewrite find_app_last.
  destruct (List.find _ (customer_analytics db)); [reflexivity|].
  cbn. now rewrite Z.eqb_refl.
Qed.

Lemma isDataStale_after (now t : Z) :
  RfmService.isDataStale now (Some t) 24 = true
  <-> 24 * RfmService.MS_PER_HOUR < now - t.
Proof.
  unfold RfmService.isDataStale. rewrite Qltb_lt.
  unfold RfmService.MS_PER_HOUR. change (1000 * 60 * 60) with 3600000.
  unfold Qlt, Qdiv, Qmult, Qinv. cbn. lia.
Qed.

(** X18.  [getCustomerRFMAnalysis] recomputes when it has nothing fresh, and
    what it then writes is a further row.  A cached analysis is returned as
    it is.  Without one, a stored row that was calculated within the last 24
    hours is returned as stored and the store is left alone; a stored row of
    exactly 24 hours is still fresh.  Otherwise (no row, no date, or an older
    one) the RFM scores are computed from the ledger and a row that carries
    them and the instant of the call is inserted behind the rows that were
    there, which stay as they are; the row read back is the customer's first
    one, so the call returns the new row when the customer had none, and the
    old row, stale as it was, when the customer had one.  For an unknown
    customer the recomputation fails with 'Customer not found' and nothing
    is written. *)
Theorem rfm_analysis_freshness (st : RfmService.State) (now customerId : Z) :
  (forall hit,
      fst (CacheService.get true now
             (CacheService.generateCustomerKey customerId "rfm")
             (RfmService.cache st)) = Some (Some hit) ->
      fst (RfmService.getCustomerRFMAnalysis st now customerId) = Ok (Some hit)
      /\ RfmService.db (snd (RfmService.getCustomerRFMAnalysis
                               st now customerId))
         = RfmService.db st)
  /\ (forall v t,
         rfmCacheMiss st now customerId ->
         RfmService.findOneWithCustomer (RfmService.db st) customerId = Some v ->
         ca_last_calculated (RfmService.av_analytics v) = Some t ->
         now - t <= 24 * RfmService.MS_PER_HOUR ->
         fst (RfmService.getCustomerRFMAnalysis st now customerId) = Ok (Some v)
         /\ RfmService.db (snd (RfmService.getCustomerRFMAnalysis
                                  st now customerId))
            = RfmService.db st)
  /\ (forall a,
         rfmCacheMiss st now customerId ->
         rfmRowStale st now customerId ->
         RFM.calculateCustomerRFM (RfmService.db st) now customerId = Ok a ->
         exists row,
           carriesRFM row a now
           /\ customer_analytics
                (RfmService.db (snd (RfmService.getCustomerRFMAnalysis
                                       st now customerId)))
              = customer_analytics (RfmService.db st) ++ [row]
           /\ match RfmService.findOneWithCustomer (RfmService.db st)
                      customerId with
              | Some old =>
                  fst (RfmService.getCustomerRFMAnalysis st now customerId)
                  = Ok (Some old)
              | None =>
                  exists v,
                    fst (RfmService.getCustomerRFMAnalysis st now customerId)
                    = Ok (Some v)
                    /\ RfmService.av_analytics v = row
              end)
  /\ (rfmCacheMiss st now customerId ->
      rfmRowStale st now customerId ->
      findCustomerByPk (RfmService.db st) customerId = None ->
      fst (RfmService.getCustomerRFMAnalysis st now customerId) = Err NotFound
      /\ RfmService.db (snd (RfmService.getCustomerRFMAnalysis
                               st now customerId))
         = RfmService.db st).
Proof.
  unfold rfmCacheMiss, rfmRowStale, RfmService.getCustomerRFMAnalysis.
  destruct (CacheService.get true now _ (RfmService.cache st))
    as [cached cache1]. cbn [fst].
  split; [|split; [|split]].
  - intros hit ->. now split.
  - intros v t Hmiss Hrow Hdate Hfresh.
    assert (RfmService.isDataStale now
              (ca_last_calculated (RfmService.av_analytics v)) 24 = false)
      as Hstale.
    { rewrite Hdate. destruct (RfmService.isDataStale now (Some t) 24) eqn:E;
        [|reflexivity].
      apply isDataStale_after in E. lia. }
    rewrite Hrow, Hstale. destruct Hmiss as [-> | ->]; now split.
  - intros a Hmiss Hstale Hcalc.
    assert (match RfmService.findOneWithCustomer (RfmService.db st)
                    customerId with
            | Some v => RfmService.isDataStale now
                          (ca_last_calculated (RfmService.av_analytics v)) 24
            | None => true
            end = true) as ->.
    { destruct (RfmService.findOneWithCustomer _ customerId) as [v|];
        [now apply Hstale | reflexivity]. }
    rewrite Hcalc.
    pose proof (calculateCustomerRFM_customer_id _ _ _ _ Hcalc) as Hid.
    pose proof (upsertRFM_first_row (RfmService.db st) now a) as Hrow.
    rewrite Hid in Hrow.
    assert (RfmService.findOneWithCustomer
              (Batch.upsertRFM (RfmService.db st) now a) customerId
            = match RfmService.findOneWithCustomer (RfmService.db st)
                      customerId with
              | Some old => Some old
              | None =>
                  Some {| RfmService.av_analytics := Batch.rfmRow now a;
                          RfmService.av_customer :=
                            RfmService.customerRef (RfmService.db st)
                              (RFM.customer_id a) |}
              end) as Hview.
    { unfold RfmService.findOneWithCustomer. rewrite Hrow.
      destruct (Recommend.findAnalytics (RfmService.db st) customerId);
        reflexivity. }
    exists (Batch.rfmRow now a).
    split; [repeat split|].
    destruct Hmiss as [-> | ->]; cbn [fst snd RfmService.db];
      rewrite Hview; (split; [reflexivity|]);
      (destruct (RfmService.findOneWithCustomer (RfmService.db st)
                   customerId);
       [reflexivity | eexists; split; reflexivity]).
  - intros Hmiss Hstale Hnone.
    assert (match RfmService.findOneWithCustomer (RfmService.db st)
                    customerId with
            | Some v => RfmService.isDataStale now
                          (ca_last_calculated (RfmService.av_analytics v)) 24
            | None => true
            end = true) as ->.
    { destruct (RfmService.findOneWithCustomer _ customerId) as [v|];
        [now apply Hstale | reflexivity]. }
    unfold RFM.calculateCustomerRFM. rewrite Hnone.
    destruct Hmiss as [-> | ->]; now split.
Qed.

Lemma rfm_analysis_freshness_witness :
  (exists v,
      fst (RfmService.getCustomerRFMAnalysis SampleRfm.start
             (24 * RfmService.MS_PER_HOUR) 1) = Ok (Some v)
      /\ RfmService.av_analytics v = SampleRfm.stored)
  /\ (exists v,
         fst (RfmService.getCustomerRFMAnalysis SampleRfm.start
                (110 * Sample.day) 1) = Ok (Some v)
         /\ RfmService.av_analytics v = SampleRfm.stored
         /\ ca_last_calculated (RfmService.av_analytics v) = Some 0
         /\ len (customer_analytics
                   (RfmService.db
                      (snd (RfmService.getCustomerRFMAnalysis SampleRfm.start
                              (110 * Sample.day) 1)))) = 2)
  /\ (exists v,
         fst (RfmService.getCustomerRFMAnalysis SampleRfm.fresh
                (110 * Sample.day) 1) = Ok (Some v)
         /\ ca_last_calculated (RfmService.av_analytics v)
            = Some (110 * Sample.day)
         /\ ca_rfm_segment (RfmService.av_analytics v) = Some "Lost").
Proof.
  destruct (rfm_analysis_freshness SampleRfm.start
              (24 * RfmService.MS_PER_HOUR) 1) as (_ & Hfresh & _).
  destruct (rfm_analysis_freshness SampleRfm.start (110 * Sample.day) 1)
    as (_ & _ & Hstale & _).
  destruct (rfm_analysis_freshness SampleRfm.fresh (110 * Sample.day) 1)
    as (_ & _ & Hfirst & _).
  split; [|split].
  - eexists. split.
    + refine (proj1 (Hfresh _ 0 _ _ _ _));
        [left; reflexivity | reflexivity | reflexivity
        | unfold RfmService.MS_PER_HOUR; lia].
    + reflexivity.
  - destruct (RFM.calculateCustomerRFM SampleRfm.store (110 * Sample.day) 1)
      as [a|] eqn:Ha; [|vm_compute in Ha; discriminate].
    destruct (Hstale a) as (row & _ & Hrows & Hres);
      [left; reflexivity | | exact Ha |].
    + intros v Hv. injection Hv as <-. vm_compute. reflexivity.
    + eexists. split; [exact Hres|]. split; [reflexivity|].
      split; [reflexivity|]. rewrite Hrows. reflexivity.
  - destruct (RFM.calculateCustomerRFM Sample.shop (110 * Sample.day) 1)
      as [a|] eqn:Ha; [|vm_compute in Ha; discriminate].
    destruct (Hfirst a) as (row & Hcarries & _ & v & Hres & Hv);
      [left; reflexivity | | exact Ha |].
    + intros v Hv. discriminate Hv.
    + exists v. split; [exact Hres|]. rewrite Hv.
      destruct Hcarries as (_ & _ & _ & _ & _ & Hseg & _ & _ & _ & Hdate).
      split; [exact Hdate|]. rewrite Hseg.
      vm_compute in Ha. injection Ha as <-. reflexivity.
Defined.

(** *** Segment overview *)

Lemma sameSegment_eq (a b : option string) :
  Recommend.sameSegment a b = true <-> a = b.
Proof.
  destruct a as [x|], b as [y|]; cbn; try (split; congruence).
  rewrite String.eqb_eq. split; congruence.
Qed.

Lemma fold_addSegment_total (gs : list RfmService.SegmentRow)
  (o : RfmService.Overview) :
  RfmService.total_customers (fold_left RfmService.addSegment gs o)
  = RfmService.total_customers o
    + fold_right Z.add 0 (List.map RfmService.sr_count gs).
Proof.
  revert o. induction gs as [|g gs IH]; intros o; cbn; [lia|].
  rewrite IH. cbn. lia.
Qed.

Lemma fold_addSegment_skip (gs : list RfmService.SegmentRow)
  (o : RfmService.Overview) (s : string) :
  (forall g, In g gs ->
             RfmService.segmentName (RfmService.sr_rfm_segment g) <> s) ->
  RfmService.segments (fold_left RfmService.addSegment gs o) !! s
  = RfmService.segments o !! s.
Proof.
  revert o. induction gs as [|g gs IH]; intros o Hgs; cbn; [reflexivity|].
  rewrite IH by (intros g' Hg'; apply Hgs; now right). cbn.
  apply lookup_insert_ne. apply Hgs. now left.
Qed.

Section SegmentCounting.

Variable rows : list CustomerAnalytics.

Let members (l : list CustomerAnalytics) (s : option string) : Z :=
  len (List.filter (fun a => Recommend.sameSegment (ca_rfm_segment a) s) l).

Lemma members_cons (a : CustomerAnalytics) (l : list CustomerAnalytics)
  (s : option string) :
  members (a :: l) s
  = (if RfmService.segment_eq_dec (ca_rfm_segment a) s then 1 else 0)
    + members l s.
Proof.
  unfold members. cbn [List.filter].
  destruct (RfmService.segment_eq_dec (ca_rfm_segment a) s) as [E | E].
  - rewrite (proj2 (sameSegment_eq _ _) E). now rewrite len_cons.
  - destruct (Recommend.sameSegment (ca_rfm_segment a) s) eqn:E';
      [apply sameSegment_eq in E'; contradiction | lia].
Qed.

Lemma members_sum_cons (a : CustomerAnalytics) (l : list CustomerAnalytics)
  (ks : list (option string)) :
  List.NoDup ks ->
  fold_right Z.add 0 (List.map (members (a :: l)) ks)
  = fold_right Z.add 0 (List.map (members l) ks)
    + (if in_dec RfmService.segment_eq_dec (ca_rfm_segment a) ks
       then 1 else 0).
Proof.
  induction ks as [|k ks IH]; intros Hnd; [reflexivity|].
  apply List.NoDup_cons_iff in Hnd as [Hk Hnd].
  cbn [List.map fold_right]. rewrite (IH Hnd), members_cons.
  destruct (RfmService.segment_eq_dec (ca_rfm_segment a) k) as [E | E].
  - subst k.
    destruct (in_dec RfmService.segment_eq_dec (ca_rfm_segment a) ks);
      [contradiction|].
    destruct (in_dec RfmService.segment_eq_dec (ca_rfm_segment a)
                (ca_rfm_segment a :: ks)) as [_ | Hn];
      [lia | exfalso; apply Hn; now left].
  - destruct (in_dec RfmService.segment_eq_dec (ca_rfm_segment a) ks)
      as [Hin | Hout];
      destruct (in_dec RfmService.segment_eq_dec (ca_rfm_segment a) (k :: ks))
        as [Hin' | Hout']; try lia.
    + exfalso. apply Hout'. now right.
    + exfalso. destruct Hin' as [-> | Hin']; contradiction.
Qed.

Lemma members_none (l : list CustomerAnalytics) (s : option string) :
  ~ In s (List.map ca_rfm_segment l) -> members l s = 0.
Proof.
  intros Hs. unfold members. rewrite filter_none; [reflexivity|].
  intros a Ha. destruct (Recommend.sameSegment (ca_rfm_segment a) s) eqn:E;
    [|reflexivity].
  apply sameSegment_eq in E. exfalso. apply Hs. rewrite <- E.
  now apply in_map.
Qed.

Lemma members_partition (l : list CustomerAnalytics) :
  fold_right Z.add 0
    (List.map (members l)
       (nodup RfmService.segment_eq_dec (List.map ca_rfm_segment l)))
  = len l.
Proof.
  induction l as [|a l IH]; [reflexivity|].
  cbn [List.map nodup].
  destruct (in_dec RfmService.segment_eq_dec (ca_rfm_segment a)
              (List.map ca_rfm_segment l)) as [Hin | Hout].
  - rewrite members_sum_cons by apply NoDup_nodup. rewrite IH.
    destruct (in_dec RfmService.segment_eq_dec (ca_rfm_segment a)
                (nodup RfmService.segment_eq_dec (List.map ca_rfm_segment l)))
      as [_ | Hn]; [rewrite len_cons; lia|].
    exfalso. apply Hn. now apply nodup_In.
  - cbn [List.map fold_right].
    rewrite members_sum_cons by apply NoDup_nodup. rewrite IH.
    destruct (in_dec RfmService.segment_eq_dec (ca_rfm_segment a)
                (nodup RfmService.segment_eq_dec (List.map ca_rfm_segment l)))
      as [Hy | _]; [apply nodup_In in Hy; contradiction|].
    rewrite members_cons, (members_none l _ Hout), len_cons.
    destruct (RfmService.segment_eq_dec (ca_rfm_segment a) (ca_rfm_segment a));
      [lia | contradiction].
Qed.

Lemma groupBySegment_total :
  fold_right Z.add 0
    (List.map RfmService.sr_count (RfmService.groupBySegment rows))
  = len rows.
Proof.
  unfold RfmService.groupBySegment. rewrite map_map. cbn [RfmService.sr_count].
  apply members_partition.
Qed.

End SegmentCounting.

Lemma segmentName_named (x : option string) (s : string) :
  s <> "" -> s <> "Unknown" ->
  RfmService.segmentName x = s <-> x = Some s.
Proof.
  intros Hne Hunk. destruct x as [y|]; cbn.
  - destruct (String.eqb y "") eqn:E.
    + apply String.eqb_eq in E. subst y. split; congruence.
    + split; congruence.
  - split; congruence.
Qed.

Lemma overview_lookup (rows : list CustomerAnalytics) (s : string) :
  s <> "" -> s <> "Unknown" ->
  RfmService.segments
    (fold_left RfmService.addSegment (RfmService.groupBySegment rows)
               {| RfmService.total_customers := 0;
                  RfmService.segments := ∅ |}) !! s
  = if in_dec RfmService.segment_eq_dec (Some s)
              (List.map ca_rfm_segment rows)
    then Some {| RfmService.count :=
                   countIf (fun a => Recommend.sameSegment (ca_rfm_segment a)
                                                           (Some s)) rows;
                 RfmService.total_value :=
                   toFixed2
                     (default 0%Q
                        (RfmService.sumValues
                           (List.filter
                              (fun a => Recommend.sameSegment
                                          (ca_rfm_segment a) (Some s))
                              rows)));
                 RfmService.avg_rfm_score :=
                   toFixed2
                     (inject_Z
                        (fold_left Z.add
                           (List.map ca_rfm_score
                              (List.filter
                                 (fun a => Recommend.sameSegment
                                             (ca_rfm_segment a) (Some s))
                                 rows)) 0)
                      / inject_Z
                          (len (List.filter
                                  (fun a => Recommend.sameSegment
                                              (ca_rfm_segment a) (Some s))
                                  rows)));
                 RfmService.percentage := 0 |}
    else None.
Proof.
  intros Hne Hunk. unfold RfmService.groupBySegment.
  pose proof (NoDup_nodup RfmService.segment_eq_dec
                (List.map ca_rfm_segment rows)) as Hnd.
  destruct (in_dec RfmService.segment_eq_dec (Some s)
              (List.map ca_rfm_segment rows)) as [Hin | Hout].
  - apply (nodup_In RfmService.segment_eq_dec) in Hin.
    destruct (in_split _ _ Hin) as (k1 & k2 & Hks).
    rewrite Hks in Hnd |- *. rewrite map_app, fold_left_app. cbn [List.map fold_left].
    rewrite fold_addSegment_skip.
    + unfold RfmService.addSegment at 1.
      cbn [RfmService.segments RfmService.sr_rfm_segment
             RfmService.sr_count RfmService.sr_total_value
             RfmService.sr_avg_rfm_score].
      rewrite (proj2 (segmentName_named (Some s) s Hne Hunk) eq_refl).
      rewrite lookup_insert_eq. reflexivity.
    + intros g Hg. apply in_map_iff in Hg as (k & <- & Hk). cbn.
      rewrite (segmentName_named k s Hne Hunk). intros ->.
      apply NoDup_remove_2 in Hnd. apply Hnd. apply in_or_app. now right.
  - rewrite fold_addSegment_skip; [apply lookup_empty|].
    intros g Hg. apply in_map_iff in Hg as (k & <- & Hk). cbn.
    rewrite (segmentName_named k s Hne Hunk). intros ->.
    apply Hout. now apply nodup_In in Hk.
Qed.

Lemma countIf_le_len {A : Type} (f : A -> bool) (l : list A) :
  countIf f l <= len l.
Proof.
  unfold countIf, len. pose proof (List.filter_length_le f l). lia.
Qed.

Lemma percentage_range (n total : Z) :
  0 <= n <= total -> 0 < total ->
  (0 <= toFixed2 (inject_Z n / inject_Z total * 100) <= 100)%Q.
Proof.
  intros [H0 Hn] Hpos.
  assert ((0 < inject_Z total)%Q) as Hq
      by (change 0%Q with (inject_Z 0); now rewrite <- Zlt_Qlt).
  assert ((0 <= inject_Z n / inject_Z total)%Q) as Hlo.
  { apply Qle_shift_div_l; [exact Hq|]. rewrite Qmult_0_l.
    change 0%Q with (inject_Z 0). now rewrite <- Zle_Qle. }
  assert ((inject_Z n / inject_Z total <= 1)%Q) as Hhi.
  { apply Qle_shift_div_r; [exact Hq|]. rewrite Qmult_1_l.
    now rewrite <- Zle_Qle. }
  split.
  - apply Qle_trans with (toFixed2 (0 * 100)); [discriminate|].
    apply toFixed2_le. apply Qmult_le_compat_r; [exact Hlo | discriminate].
  - apply Qle_trans with (toFixed2 (1 * 100)); [|discriminate].
    apply toFixed2_le. apply Qmult_le_compat_r; [exact Hhi | discriminate].
Qed.

(** X19.  In the overview that [getSegmentOverview] computes and caches,
    [total_customers] is the number of analytics rows; a segment that no row
    carries has no entry; and the entry of a segment that some row carries
    holds the number of its rows as [count] and that number over
    [total_customers], as a percentage rounded to two decimals and lying
    between 0 and 100.  On a cache miss the call returns this overview. *)
Theorem segment_overview_counts (db : Database) (s : string) :
  s <> "" -> s <> "Unknown" ->
  RfmService.total_customers (RfmService.segmentOverview db)
  = len (customer_analytics db)
  /\ (countIf (fun a => Recommend.sameSegment (ca_rfm_segment a) (Some s))
              (customer_analytics db) = 0 ->
      RfmService.segments (RfmService.segmentOverview db) !! s = None)
  /\ (0 < countIf (fun a => Recommend.sameSegment (ca_rfm_segment a) (Some s))
                  (customer_analytics db) ->
      exists st,
        RfmService.segments (RfmService.segmentOverview db) !! s = Some st
        /\ RfmService.count st
           = countIf (fun a => Recommend.sameSegment (ca_rfm_segment a)
                                                     (Some s))
                     (customer_analytics db)
        /\ RfmService.percentage st
           = toFixed2 (inject_Z (RfmService.count st)
                       / inject_Z (len (customer_analytics db)) * 100)
        /\ (0 <= RfmService.percentage st <= 100)%Q)
  /\ (forall (now : Z) (cache : CacheService.Cache RfmService.Overview),
         fst (CacheService.get true now "segments:overview" cache) = None ->
         fst (RfmService.getSegmentOverview true now db cache)
         = Ok (RfmService.segmentOverview db)).
Proof.
  intros Hne Hunk.
  assert (RfmService.total_customers
            (fold_left RfmService.addSegment
               (RfmService.groupBySegment (customer_analytics db))
               {| RfmService.total_customers := 0;
                  RfmService.segments := ∅ |})
          = len (customer_analytics db)) as Htotal.
  { rewrite fold_addSegment_total. cbn. apply groupBySegment_total. }
  assert (forall a, In a (customer_analytics db) ->
                    Recommend.sameSegment (ca_rfm_segment a) (Some s) = true ->
                    In (Some s) (List.map ca_rfm_segment (customer_analytics db)))
    as Hkey.
  { intros a Ha E. apply sameSegment_eq in E. rewrite <- E. now apply in_map. }
  split; [exact Htotal|]. split; [|split].
  - intros Hzero. unfold RfmService.segmentOverview, RfmService.withPercentages.
    cbn [RfmService.segments]. rewrite lookup_fmap.
    rewrite (overview_lookup _ s Hne Hunk).
    destruct (in_dec _ _ _) as [Hin | _]; [|reflexivity].
    exfalso. apply in_map_iff in Hin as (a & Ha & Hin).
    assert (In a (List.filter
                    (fun a => Recommend.sameSegment (ca_rfm_segment a) (Some s))
                    (customer_analytics db))) as Hmem.
    { apply List.filter_In. split; [exact Hin|]. now apply sameSegment_eq. }
    unfold countIf, len in Hzero.
    destruct (List.filter _ (customer_analytics db)); [destruct Hmem|].
    cbn in Hzero. lia.
  - intros Hpos. unfold RfmService.segmentOverview, RfmService.withPercentages.
    cbn [RfmService.segments RfmService.total_customers].
    rewrite lookup_fmap, (overview_lookup _ s Hne Hunk), Htotal.
    destruct (in_dec _ _ _) as [_ | Hout].
    + cbn. eexists. split; [reflexivity|]. cbn.
      pose proof (countIf_le_len
                    (fun a => Recommend.sameSegment (ca_rfm_segment a) (Some s))
                    (customer_analytics db)) as Hle.
      assert (0 < len (customer_analytics db)) as Hlen by lia.
      rewrite (proj2 (Z.ltb_lt _ _) Hlen).
      split; [reflexivity|]. split; [reflexivity|].
      apply percentage_range; lia.
    + exfalso. destruct (len_pos_In
                           (List.filter
                              (fun a => Recommend.sameSegment
                                          (ca_rfm_segment a) (Some s))
                              (customer_analytics db))) as [a Ha];
        [unfold countIf in Hpos; lia|].
      apply List.filter_In in Ha as [Ha E]. apply Hout. now apply (Hkey a).
  - intros now cache Hmiss. unfold RfmService.getSegmentOverview,
      CacheService.getOrSet.
    destruct (CacheService.get true now "segments:overview" cache)
      as [[x|] c1]; cbn in Hmiss; [discriminate | reflexivity].
Qed.

Lemma segment_overview_counts_witness :
  exists st,
    RfmService.segments (RfmService.segmentOverview SampleRfm.store) !! "Lost"
    = Some st
    /\ RfmService.count st = 1
    /\ (RfmService.percentage st == 100)%Q.
Proof.
  destruct (segment_overview_counts SampleRfm.store "Lost")
    as (_ & _ & Hsome & _); [discriminate | discriminate |].
  destruct Hsome as (st & Hst & Hcount & Hpct & _); [vm_compute; reflexivity|].
  exists st. split; [exact Hst|]. split.
  - rewrite Hcount. reflexivity.
  - rewrite Hpct, Hcount. vm_compute. reflexivity.
Defined.

(** ** CLV service *)

Lemma sameBesidesCLV_refl (db : Database) : sameBesidesCLV db db.
Proof. repeat split. Qed.

Lemma sameBesidesCLV_trans (db1 db2 db3 : Database) :
  sameBesidesCLV db1 db2 -> sameBesidesCLV db2 db3 -> sameBesidesCLV db1 db3.
Proof.
  intros (H1 & H2 & H3 & H4 & H5) (K1 & K2 & K3 & K4 & K5).
  repeat split; congruence.
Qed.

Lemma updateCLV_besides (db : Database) (customerId : Z) (p : CLV.Prediction) :
  sameBesidesCLV db (ClvService.updateCLV db customerId p).
Proof.
  repeat split; cbn; rewrite map_map; apply map_ext; intros a;
    now destruct (ca_customer_id a =? _).
Qed.

Lemma batch_updateCLV_besides (db : Database) (p : CLV.Prediction) :
  sameBesidesCLV db (Batch.updateCLV db p).
Proof.
  repeat split; cbn; rewrite map_map; apply map_ext; intros a;
    now destruct (ca_customer_id a =? _).
Qed.

Section ClvBatchWrites.

Variables (computeFails persistFails : Z -> bool) (nowOf : Z -> Z).

Lemma clvItem_besides (db : Database) (id : Z) :
  sameBesidesCLV db
    (snd (Batch.clvItem computeFails persistFails nowOf db id)).
Proof.
  unfold Batch.clvItem.
  destruct (computeFails id); [apply sameBesidesCLV_refl|].
  destruct (CLV.calculateCustomerCLV db (nowOf id) id) as [p|];
    [|apply sameBesidesCLV_refl].
  destruct (persistFails id); [apply sameBesidesCLV_refl|].
  apply batch_updateCLV_besides.
Qed.

Lemma clv_loop_besides (l : list Customer) (s : Database * Z * Z * Q) :
  sameBesidesCLV (fst (fst (fst s)))
    (fst (fst (fst (fold_left
                      (Batch.clvStep computeFails persistFails nowOf) l s)))).
Proof.
  revert s. induction l as [|c l IH]; intros s; [apply sameBesidesCLV_refl|].
  cbn [fold_left].
  eapply sameBesidesCLV_trans; [|apply IH].
  destruct s as [[[db p] nf] v]. cbn [fst]. unfold Batch.clvStep.
  pose proof (clvItem_besides db (cust_id c)) as H.
  destruct (Batch.clvItem computeFails persistFails nowOf db (cust_id c))
    as [[x|e] db1]; exact H.
Qed.

End ClvBatchWrites.

(** X20.  The CLV service writes the two CLV columns of analytics rows that
    exist and nothing else: neither [calculateAllCustomersCLV] nor
    [getCustomerCLVAnalysis] adds or removes an analytics row or changes any
    other column or table, so a customer without a row gets a computed CLV
    that is not stored, and a run over a store without analytics rows leaves
    it without any.  On a cache miss [getCustomerCLVAnalysis] returns what
    [calculateCustomerCLV] computes from the ledger, whether or not the
    stored row is recent. *)
Theorem clv_service_writes_clv_columns_only
  (listFails : bool) (computeFails persistFails : Z -> bool) (nowOf : Z -> Z)
  (db : Database) (st : ClvService.State) (now customerId : Z) :
  sameBesidesCLV db
    (snd (Batch.calculateAllCustomersCLV listFails computeFails persistFails
            nowOf db))
  /\ (customer_analytics db = [] ->
      customer_analytics
        (snd (Batch.calculateAllCustomersCLV listFails computeFails
                persistFails nowOf db)) = [])
  /\ sameBesidesCLV (ClvService.db st)
       (ClvService.db (snd (ClvService.getCustomerCLVAnalysis st now
                              customerId)))
  /\ (fst (CacheService.get true now
             (CacheService.generateCustomerKey customerId "clv")
             (ClvService.cache st)) = None ->
      fst (ClvService.getCustomerCLVAnalysis st now customerId)
      = CLV.calculateCustomerCLV (ClvService.db st) now customerId).
Proof.
  assert (sameBesidesCLV db
            (snd (Batch.calculateAllCustomersCLV listFails computeFails
                    persistFails nowOf db))) as Hbatch.
  { unfold Batch.calculateAllCustomersCLV.
    destruct listFails; [apply sameBesidesCLV_refl|].
    pose proof (clv_loop_besides computeFails persistFails nowOf
                  (customers db) (db, 0, 0, 0%Q)) as H.
    destruct (fold_left _ (customers db) (db, 0, 0, 0%Q))
      as [[[db1 p] nf] v]. exact H. }
  split; [exact Hbatch|]. split; [|split].
  - intros Hempty. destruct Hbatch as (_ & _ & _ & _ & Hrows).
    rewrite Hempty in Hrows. cbn in Hrows.
    now destruct (customer_analytics _).
  - unfold ClvService.getCustomerCLVAnalysis.
    destruct (CacheService.get true now _ (ClvService.cache st))
      as [[hit|] cache1]; [apply sameBesidesCLV_refl|].
    destruct (CLV.calculateCustomerCLV (ClvService.db st) now customerId)
      as [p|]; [|apply sameBesidesCLV_refl].
    cbn [snd ClvService.db].
    destruct (match Recommend.findAnalytics (ClvService.db st) customerId with
              | Some a => _
              | None => true
              end); [apply updateCLV_besides | apply sameBesidesCLV_refl].
  - intros Hmiss. unfold ClvService.getCustomerCLVAnalysis.
    destruct (CacheService.get true now _ (ClvService.cache st))
      as [[hit|] cache1]; cbn in Hmiss; [discriminate|].
    now destruct (CLV.calculateCustomerCLV (ClvService.db st) now customerId).
Qed.

Lemma StronglySorted_app_inv {A : Type} (R : A -> A -> Prop) (l1 l2 : list A) :
  StronglySorted R (l1 ++ l2) ->
  StronglySorted R l1
  /\ StronglySorted R l2
  /\ forall x y, In x l1 -> In y l2 -> R x y.
Proof.
  induction l1 as [|a l1 IH]; cbn; intros H.
  - split; [constructor|]. split; [exact H | intros x y []].
  - apply StronglySorted_inv in H as [H Ha].
    destruct (IH H) as (H1 & H2 & H12).
    rewrite List.Forall_forall in Ha.
    split; [|split; [exact H2|]].
    + constructor; [exact H1|]. apply List.Forall_forall.
      intros x Hx. apply Ha. apply in_or_app. now left.
    + intros x y [<- | Hx] Hy; [|now apply H12].
      apply Ha. apply in_or_app. now right.
Qed.

Lemma StronglySorted_map {A B : Type} (R : B -> B -> Prop) (f : A -> B)
  (l : list A) :
  StronglySorted (fun a b => R (f a) (f b)) l -> StronglySorted R (List.map f l).
Proof.
  induction 1 as [|a l Hl IH Ha]; cbn; constructor; [exact IH|].
  rewrite List.Forall_forall in *. intros y Hy.
  apply in_map_iff in Hy as (x & <- & Hx). now apply Ha.
Qed.

Lemma Qle_bool_total (a b : Q) : Qle_bool a b = false -> Qle_bool b a = true.
Proof.
  intros H. apply Qle_bool_iff.
  destruct (Qlt_le_dec b a) as [Hlt | Hle]; [now apply Qlt_le_weak|].
  apply Qle_bool_iff in Hle. congruence.
Qed.

Lemma Qle_bool_trans (a b c : Q) :
  Qle_bool a b = true -> Qle_bool b c = true -> Qle_bool a c = true.
Proof.
  rewrite !Qle_bool_iff. apply Qle_trans.
Qed.

(** X21.  [getTopCustomersByCLV(limit)] ranks the analytics rows by predicted
    CLV: for a [limit] that is not negative the list it computes has
    [min(limit, number of rows)] entries in descending order of
    [clv_predicted], and no row that is left out has a higher value than a
    row that is listed.  A negative [limit] makes the query, and so the
    call, fail. *)
Theorem top_customers_by_clv_ranked (db : Database) (limit : Z) :
  (0 <= limit ->
   exists top rest,
     ClvService.topCustomersByCLV db limit = Ok top
     /\ len top = Z.min limit (len (customer_analytics db))
     /\ StronglySorted
          (fun a b => (ClvService.clv_predicted b
                       <= ClvService.clv_predicted a)%Q) top
     /\ Permutation
          (List.map ClvService.clv_predicted top
           ++ List.map ca_clv_predicted rest)
          (List.map ca_clv_predicted (customer_analytics db))
     /\ forall x y, In x top -> In y rest ->
                    (ca_clv_predicted y <= ClvService.clv_predicted x)%Q)
  /\ (limit < 0 ->
      ClvService.topCustomersByCLV db limit = Err Upstream
      /\ forall now cache,
          fst (CacheService.get true now (ClvService.topKey limit) cache)
          = None ->
          fst (ClvService.getTopCustomersByCLV now db limit cache)
          = Err Upstream).
Proof.
  split.
  - intros Hlimit. unfold ClvService.topCustomersByCLV.
    rewrite (proj2 (Z.ltb_ge _ _) Hlimit).
    set (before := fun a b : CustomerAnalytics =>
                     Qle_bool (ca_clv_predicted b) (ca_clv_predicted a)).
    set (sorted := sortBy before (customer_analytics db)).
    eexists. exists (skipn (Z.to_nat limit) sorted).
    split; [reflexivity|].
    assert (StronglySorted (fun a b => before a b = true) sorted) as Hsorted.
    { apply sortBy_sorted; unfold before.
      - intros a b. apply Qle_bool_total.
      - intros a b c Hab Hbc. eapply Qle_bool_trans; eassumption. }
    rewrite <- (firstn_skipn (Z.to_nat limit) sorted) in Hsorted.
    apply StronglySorted_app_inv in Hsorted as (Hfirst & _ & Hcross).
    split; [|split; [|split]].
    + unfold len. rewrite length_map, length_firstn.
      unfold sorted. rewrite sortBy_length. lia.
    + apply StronglySorted_map. cbn [ClvService.clv_predicted].
      eapply StronglySorted_weaken; [|exact Hfirst].
      intros a b Hab. unfold before in Hab. now apply Qle_bool_iff.
    + rewrite map_map. cbn [ClvService.clv_predicted].
      rewrite <- map_app, firstn_skipn.
      apply Permutation_map, sortBy_perm.
    + intros x y Hx Hy. apply in_map_iff in Hx as (r & <- & Hr).
      cbn [ClvService.clv_predicted].
      specialize (Hcross r y Hr Hy). unfold before in Hcross.
      now apply Qle_bool_iff.
  - intros Hneg.
    assert (ClvService.topCustomersByCLV db limit = Err Upstream) as Herr.
    { unfold ClvService.topCustomersByCLV.
      now rewrite (proj2 (Z.ltb_lt _ _) Hneg). }
    split; [exact Herr|].
    intros now cache Hmiss.
    unfold ClvService.getTopCustomersByCLV, CacheService.getOrSet.
    rewrite Herr.
    destruct (CacheService.get true now (ClvService.topKey limit) cache)
      as [[x|] c1]; cbn in Hmiss; [discriminate | reflexivity].
Qed.

(** ** Churn service *)

Lemma uniqueStrings_In (seen l : list string) (x : string) :
  In x (uniqueStrings seen l) -> In x l.
Proof.
  revert seen. induction l as [|y l IH]; intros seen; cbn; [tauto|].
  destruct (existsb (String.eqb y) seen).
  - intros H. right. now apply IH in H.
  - intros [-> | H]; [now left | right; now apply IH in H].
Qed.

Lemma uniqueStrings_fresh (seen l : list string) (x : string) :
  In x (uniqueStrings seen l) -> ~ In x seen.
Proof.
  revert seen. induction l as [|y l IH]; intros seen; cbn; [tauto|].
  destruct (existsb (String.eqb y) seen) eqn:E.
  - apply IH.
  - intros [<- | H].
    + intros Hin. assert (existsb (String.eqb y) seen = true) as E'.
      { apply existsb_exists. exists y. split; [exact Hin|].
        apply String.eqb_refl. }
      congruence.
    + apply IH in H. intros Hin. apply H. now right.
Qed.

Lemma uniqueStrings_NoDup (seen l : list string) :
  List.NoDup (uniqueStrings seen l).
Proof.
  revert seen. induction l as [|y l IH]; intros seen; cbn; [constructor|].
  destruct (existsb (String.eqb y) seen); [apply IH|].
  constructor; [|apply IH].
  intros H. apply uniqueStrings_fresh in H. apply H. now left.
Qed.

(** What every [bump] of the first five factors keeps, the five factors
    keep. *)
Section FactorInvariant.

Variable P : Churn.Acc -> Prop.
Variable ok : Z -> string -> list string -> Prop.

Hypothesis bump_ok :
  forall a d i s, P a -> ok d i s -> P (Churn.bump a d i s).

Hypothesis literals :
  ok 40 "no_purchase_6_months" ["win_back_campaign"; "exclusive_discount"]
  /\ ok 30 "no_purchase_3_months" ["re_engagement_email"; "special_offer"]
  /\ ok 15 "declining_activity" ["reminder_email"; "loyalty_reward"]
  /\ ok 25 "frequency_decline_50%" ["personalized_recommendations"]
  /\ ok 15 "frequency_decline_30%" []
  /\ ok 20 "spending_decline_40%" ["vip_incentive"; "bundle_discount"]
  /\ ok 10 "spending_decline_20%" []
  /\ ok 15 "multiple_failed_transactions"
        ["payment_assistance"; "customer_support_outreach"]
  /\ ok 5 "failed_transaction" []
  /\ ok 10 "low_value_last_order" [].

Ltac factor_inv :=
  repeat match goal with
         | |- context [if ?b then _ else _] => destruct b
         end;
  try assumption; (apply bump_ok; [assumption | apply literals]).

Lemma five_factors_keep (txs : list Transaction) (days nfailed : Z)
  (a : Churn.Acc) :
  P a ->
  P (Churn.orderValueFactor txs
       (Churn.failedFactor nfailed
          (Churn.spendingFactor txs
             (Churn.frequencyFactor txs (Churn.recencyFactor days a))))).
Proof.
  intros Ha.
  assert (P (Churn.recencyFactor days a)) as H1
      by (unfold Churn.recencyFactor; factor_inv).
  assert (P (Churn.frequencyFactor txs (Churn.recencyFactor days a))) as H2
      by (unfold Churn.frequencyFactor; cbv zeta; factor_inv).
  assert (P (Churn.spendingFactor txs
               (Churn.frequencyFactor txs (Churn.recencyFactor days a))))
    as H3 by (unfold Churn.spendingFactor; cbv zeta; factor_inv).
  assert (P (Churn.failedFactor nfailed
               (Churn.spendingFactor txs
                  (Churn.frequencyFactor txs (Churn.recencyFactor days a)))))
    as H4 by (unfold Churn.failedFactor; factor_inv).
  unfold Churn.orderValueFactor. destruct txs as [|t txs]; [exact H4|].
  cbv zeta. factor_inv.
Qed.

End FactorInvariant.

(** The shape of a result of [calculateChurnRisk]: the record of a customer
    without history, or what the six factors have accumulated. *)
Lemma calculateChurnRisk_cases (db : Database) (now customerId : Z)
  (r : Churn.Risk) :
  Churn.calculateChurnRisk db now customerId = Ok r ->
  (Churn.churn_risk_score r = 100
   /\ Churn.churn_indicators r = ["no_purchase_history"]
   /\ Churn.prevention_strategies r
      = ["welcome_campaign"; "first_purchase_incentive"])
  \/ exists c t txs a,
      findCustomerByPk db customerId = Some c
      /\ a = Churn.loyaltyFactor c
               (Churn.orderValueFactor (t :: txs)
                  (Churn.failedFactor
                     (Churn.failedTransactionsLast90Days db now customerId)
                     (Churn.spendingFactor (t :: txs)
                        (Churn.frequencyFactor (t :: txs)
                           (Churn.recencyFactor
                              (daysBetween now (tx_timestamp t))
                              {| Churn.churnScore := 0;
                                 Churn.indicators := [];
                                 Churn.preventionStrategies := [] |})))))
      /\ Churn.churn_risk_score r = Z.min 100 (Churn.churnScore a)
      /\ Churn.churn_risk_level r
         = Churn.riskLevel (Z.min 100 (Churn.churnScore a))
      /\ Churn.churn_indicators r = Churn.indicators a
      /\ Churn.prevention_strategies r
         = uniqueStrings []
             match Churn.indicators a with
             | [] => Churn.preventionStrategies a ++ ["maintain_engagement"]
             | _ => Churn.preventionStrategies a
             end.
Proof.
  unfold Churn.calculateChurnRisk.
  destruct (findCustomerByPk db customerId) as [c|]; [|discriminate].
  destruct (completedTransactionsDesc db customerId) as [|t txs].
  - intros H. injection H as <-. left. repeat split.
  - cbv zeta.
    match goal with
    | |- context [Churn.loyaltyFactor c ?x] =>
        remember (Churn.loyaltyFactor c x) as a eqn:Ha
    end.
    intros H. injection H as <-. right.
    exists c, t, txs, a. split; [reflexivity|]. split; [exact Ha|].
    repeat split.
Qed.

Lemma strategy_has_own_entry (s : string) :
  existsb (String.eqb s) (List.map fst ChurnService.strategies) = true ->
  hasOwnEntry s.
Proof.
  intros H. apply existsb_exists in H as (k & Hk & E).
  apply String.eqb_eq in E. subst k. cbn in Hk.
  repeat (destruct Hk as [<- | Hk]; [reflexivity|]). destruct Hk.
Qed.

(** X22.  Every prevention strategy that [calculateChurnRisk] can put into
    its result is a key of the catalogue that [getPreventionStrategyDetails]
    reads, so the details shown for it are its own and never the generic
    fallback; and the result names no strategy twice. *)
Theorem prevention_strategies_are_described (db : Database)
  (now customerId : Z) (r : Churn.Risk) :
  Churn.calculateChurnRisk db now customerId = Ok r ->
  Forall hasOwnEntry (Churn.prevention_strategies r)
  /\ List.NoDup (Churn.prevention_strategies r).
Proof.
  intros Hr.
  destruct (calculateChurnRisk_cases _ _ _ _ Hr)
    as [(_ & _ & ->) | (c & t & txs & a & _ & Ha & _ & _ & _ & ->)].
  - split.
    + repeat constructor.
    + repeat constructor; cbn; intuition discriminate.
  - split; [|apply uniqueStrings_NoDup].
    set (known := fun x : string =>
                    existsb (String.eqb x)
                            (List.map fst ChurnService.strategies) = true).
    assert (Forall known (Churn.preventionStrategies a)) as Hknown.
    { subst a. unfold Churn.loyaltyFactor.
      match goal with
      | |- context [Churn.bump ?a5 _ _ _] =>
          assert (Forall known (Churn.preventionStrategies a5)) as H5
      end.
      { apply (five_factors_keep
                 (fun a => Forall known (Churn.preventionStrategies a))
                 (fun _ _ s => Forall known s)).
        - intros a d i s Ha Hs. cbn. apply Forall_app. now split.
        - repeat split; repeat constructor.
        - constructor. }
      destruct (Churn.lowLoyaltyTier _); [|exact H5].
      cbn. apply Forall_app. split; [exact H5|]. repeat constructor. }
    apply List.Forall_forall. intros x Hx. apply strategy_has_own_entry.
    apply uniqueStrings_In in Hx.
    rewrite List.Forall_forall in Hknown.
    destruct (Churn.indicators a); [|now apply Hknown].
    apply in_app_iff in Hx as [Hx | [<- | []]]; [now apply Hknown|].
    reflexivity.
Qed.

Lemma prevention_strategies_are_described_witness :
  exists r,
    Churn.calculateChurnRisk Sample.shop (400 * Sample.day) 2 = Ok r
    /\ Churn.prevention_strategies r
       = ["win_back_campaign"; "exclusive_discount"]
    /\ Forall hasOwnEntry (Churn.prevention_strategies r).
Proof.
  destruct (Churn.calculateChurnRisk Sample.shop (400 * Sample.day) 2)
    as [r|] eqn:Hr; [|vm_compute in Hr; discriminate].
  exists r. split; [reflexivity|]. split.
  - vm_compute in Hr. injection Hr as <-. reflexivity.
  - exact (proj1 (prevention_strategies_are_described Sample.shop
                    (400 * Sample.day) 2 r Hr)).
Defined.

Lemma loyaltyTierFor_schema (spent : Q) :
  In (Orders.loyaltyTierFor spent) schemaTiers.
Proof.
  unfold Orders.loyaltyTierFor, schemaTiers.
  repeat match goal with
         | |- context [if ?b then _ else _] => destruct b
         end; cbn; tauto.
Qed.

Lemma schema_tier_not_low (tier : string) :
  In tier schemaTiers -> Churn.lowLoyaltyTier (Some tier) = false.
Proof.
  cbn. intros H.
  repeat (destruct H as [<- | H]; [reflexivity|]). destruct H.
Qed.

(** X23.  The loyalty factor of the churn score tests the tier against
    ['Bronze'], while the schema's tiers, which are also the only ones that
    [updateLoyaltyTier] assigns after an order, are in lower case.  So for a
    customer whose tier is one of the schema's, 'bronze' included, the
    factor never contributes: the result has neither the indicator
    [low_loyalty_tier] nor the strategy [loyalty_upgrade_offer]. *)
Theorem loyalty_factor_never_fires_for_schema_tiers (db : Database)
  (now customerId : Z) (c : Customer) (tier : string) (r : Churn.Risk) :
  findCustomerByPk db customerId = Some c ->
  cust_loyalty_tier c = Some tier ->
  In tier schemaTiers \/ (exists spent, tier = Orders.loyaltyTierFor spent) ->
  Churn.calculateChurnRisk db now customerId = Ok r ->
  ~ In "low_loyalty_tier" (Churn.churn_indicators r)
  /\ ~ In "loyalty_upgrade_offer" (Churn.prevention_strategies r).
Proof.
  intros Hc Htier Hschema Hr.
  assert (In tier schemaTiers) as Hin.
  { destruct Hschema as [H | [spent ->]];
      [exact H | apply loyaltyTierFor_schema]. }
  destruct (calculateChurnRisk_cases _ _ _ _ Hr)
    as [(_ & -> & ->) | (c' & t & txs & a & Hc' & Ha & _ & _ & -> & ->)].
  - split; cbn; intuition discriminate.
  - rewrite Hc in Hc'. injection Hc' as <-.
    unfold Churn.loyaltyFactor in Ha.
    rewrite Htier, (schema_tier_not_low tier Hin) in Ha.
    assert (~ In "low_loyalty_tier" (Churn.indicators a)
            /\ ~ In "loyalty_upgrade_offer" (Churn.preventionStrategies a))
      as [Hind Hstr].
    { subst a.
      apply (five_factors_keep
               (fun a => ~ In "low_loyalty_tier" (Churn.indicators a)
                         /\ ~ In "loyalty_upgrade_offer"
                                 (Churn.preventionStrategies a))
               (fun _ i s => i <> "low_loyalty_tier"
                             /\ ~ In "loyalty_upgrade_offer" s)).
      - intros a d i s [Hi Hs] [Hi' Hs']. cbn. rewrite !in_app_iff. cbn.
        split; intuition congruence.
      - repeat split; try discriminate; cbn; intuition discriminate.
      - cbn. tauto. }
    split; [exact Hind|].
    intros Hx. apply uniqueStrings_In in Hx.
    destruct (Churn.indicators a); [|contradiction].
    apply in_app_iff in Hx as [Hx | [Hx | []]]; [contradiction | discriminate].
Qed.

Lemma loyalty_factor_never_fires_for_schema_tiers_witness :
  exists r,
    Churn.calculateChurnRisk Sample.shop (400 * Sample.day) 2 = Ok r
    /\ ~ In "low_loyalty_tier" (Churn.churn_indicators r).
Proof.
  destruct (Churn.calculateChurnRisk Sample.shop (400 * Sample.day) 2)
    as [r|] eqn:Hr; [|vm_compute in Hr; discriminate].
  exists r. split; [reflexivity|].
  refine (proj1 (loyalty_factor_never_fires_for_schema_tiers Sample.shop
                   (400 * Sample.day) 2 (Sample.customer 2) "bronze" r
                   _ _ _ Hr));
    [reflexivity | reflexivity | left; cbn; tauto].
Defined.

(** X24.  In a churn result the score and the indicators go together: the
    score is 0 exactly when no indicator was raised, and then the level is
    "low" and the single strategy is [maintain_engagement]. *)
Theorem churn_score_zero_iff_no_indicator (db : Database)
  (now customerId : Z) (r : Churn.Risk) :
  Churn.calculateChurnRisk db now customerId = Ok r ->
  (Churn.churn_indicators r = [] <-> Churn.churn_risk_score r = 0)
  /\ (Churn.churn_indicators r = [] ->
      Churn.churn_risk_level r = "low"
      /\ Churn.prevention_strategies r = ["maintain_engagement"]).
Proof.
  intros Hr.
  destruct (calculateChurnRisk_cases _ _ _ _ Hr)
    as [(-> & -> & _)
       | (c & t & txs & a & _ & Ha & -> & -> & -> & ->)].
  - split; [split; [discriminate | lia] | discriminate].
  - set (coupled := fun a : Churn.Acc =>
                      0 <= Churn.churnScore a
                      /\ (Churn.indicators a = [] ->
                          Churn.churnScore a = 0
                          /\ Churn.preventionStrategies a = [])
                      /\ (Churn.indicators a <> [] -> 0 < Churn.churnScore a)).
    assert (forall x d i s, coupled x -> 0 < d -> coupled (Churn.bump x d i s))
      as Hbump.
    { intros x d i s (H0 & _ & _) Hd. unfold coupled. cbn.
      split; [lia|]. split; [|intros _; lia].
      intros H. now destruct (Churn.indicators x). }
    assert (coupled a) as (H0 & Hnone & Hsome).
    { subst a. unfold Churn.loyaltyFactor.
      match goal with
      | |- context [Churn.bump ?a5 _ _ _] => assert (coupled a5) as H5
      end.
      { apply (five_factors_keep coupled (fun d _ _ => 0 < d)).
        - intros x d i s Hx Hd. now apply Hbump.
        - repeat split; lia.
        - unfold coupled. cbn. repeat split; [lia | congruence]. }
      destruct (Churn.lowLoyaltyTier _); [|exact H5].
      apply Hbump; [exact H5 | lia]. }
    split; [split|].
    + intros Hnil. destruct (Hnone Hnil) as [-> _]. reflexivity.
    + intros Hzero. destruct (Churn.indicators a) as [|i rest] eqn:Hi;
        [reflexivity|].
      assert (0 < Churn.churnScore a) by (apply Hsome; discriminate). lia.
    + intros Hnil. destruct (Hnone Hnil) as [-> ->]. rewrite Hnil.
      split; reflexivity.
Qed.

Lemma churn_score_zero_iff_no_indicator_witness :
  exists r,
    Churn.calculateChurnRisk Sample.regular (30 * Sample.day) 1 = Ok r
    /\ (Churn.churn_indicators r = [] <-> Churn.churn_risk_score r = 0).
Proof.
  destruct (Churn.calculateChurnRisk Sample.regular (30 * Sample.day) 1)
    as [r|] eqn:Hr; [|vm_compute in Hr; discriminate].
  exists r. split; [reflexivity|].
  exact (proj1 (churn_score_zero_iff_no_indicator Sample.regular
                  (30 * Sample.day) 1 r Hr)).
Defined.

Lemma riskLevel_named (score : Z) : In (Churn.riskLevel score) riskLevels.
Proof.
  unfold Churn.riskLevel, riskLevels.
  repeat match goal with
         | |- context [if ?b then _ else _] => destruct b
         end; cbn; tauto.
Qed.

Lemma churn_level_named (db : Database) (now customerId : Z) (r : Churn.Risk) :
  Churn.calculateChurnRisk db now customerId = Ok r ->
  In (Churn.churn_risk_level r) riskLevels.
Proof.
  unfold Churn.calculateChurnRisk.
  destruct (findCustomerByPk db customerId) as [c|]; [|discriminate].
  destruct (completedTransactionsDesc db customerId) as [|t txs].
  - intros [= <-]. cbn. tauto.
  - cbv zeta. intros H. injection H as <-. apply riskLevel_named.
Qed.

Lemma alter_distribution (d : gmap string Z) (level : string) :
  In level riskLevels ->
  (forall l, In l riskLevels -> exists n, d !! l = Some n /\ 0 <= n) ->
  distributionTotal (alter (fun n => n + 1) level d) = distributionTotal d + 1
  /\ (forall l, In l riskLevels ->
                exists n, alter (fun n => n + 1) level d !! l = Some n
                          /\ 0 <= n)
  /\ (forall l, d !! l = None ->
                alter (fun n => n + 1) level d !! l = None).
Proof.
  intros Hin Hdom. split; [|split].
  - destruct (Hdom "critical") as (n1 & H1 & _); [cbn; tauto|].
    destruct (Hdom "high") as (n2 & H2 & _); [cbn; tauto|].
    destruct (Hdom "medium") as (n3 & H3 & _); [cbn; tauto|].
    destruct (Hdom "low") as (n4 & H4 & _); [cbn; tauto|].
    unfold distributionTotal. cbn [List.map fold_right riskLevels].
    destruct Hin as [<- | [<- | [<- | [<- | []]]]];
      repeat first [rewrite lookup_alter_eq
                   | rewrite lookup_alter_ne by discriminate];
      rewrite H1, H2, H3, H4; cbn; lia.
  - intros l Hl. destruct (Hdom l Hl) as (n & Hn & H0).
    destruct (decide (level = l)) as [-> | Hne].
    + rewrite lookup_alter_eq, Hn. cbn. eexists. split; [reflexivity | lia].
    + rewrite lookup_alter_ne by exact Hne. now exists n.
  - intros l Hl. destruct (decide (level = l)) as [-> | Hne].
    + now rewrite lookup_alter_eq, Hl.
    + now rewrite lookup_alter_ne.
Qed.

Lemma updateChurn_columns (rows : list ChurnService.AnalyticsRow)
  (customerId : Z) (k : Churn.Risk) :
  List.map ChurnService.columns (ChurnService.updateChurn rows customerId k)
  = List.map ChurnService.columns rows.
Proof.
  unfold ChurnService.updateChurn. rewrite map_map. apply map_ext.
  intros r. now destruct (ca_customer_id (ChurnService.columns r) =? _).
Qed.

Section ChurnBatchFacts.

Variables (computeFails persistFails : Z -> bool) (nowOf : Z -> Z).
Variable db : Database.

Lemma churnItem_outcome (rows : list ChurnService.AnalyticsRow) (id : Z) :
  fst (ChurnService.churnItem computeFails persistFails nowOf db rows id)
  = fst (ChurnService.churnItem computeFails persistFails nowOf db [] id)
  /\ List.map ChurnService.columns
       (snd (ChurnService.churnItem computeFails persistFails nowOf db rows id))
     = List.map ChurnService.columns rows
  /\ forall k,
      fst (ChurnService.churnItem computeFails persistFails nowOf db rows id)
      = Ok k ->
      In (Churn.churn_risk_level k) riskLevels.
Proof.
  unfold ChurnService.churnItem.
  destruct (computeFails id); [repeat split; discriminate|].
  destruct (Churn.calculateChurnRisk db (nowOf id) id) as [k|] eqn:Hk;
    [|repeat split; discriminate].
  destruct (persistFails id); [repeat split; discriminate|].
  cbn [fst snd]. split; [reflexivity|].
  split; [apply updateChurn_columns|].
  intros k' [= <-]. eapply churn_level_named; eassumption.
Qed.

Lemma churn_loop (l : list Customer) :
  forall (rows : list ChurnService.AnalyticsRow) (p : Z)
         (res : ChurnService.ChurnSummary),
    (forall level, In level riskLevels ->
                   exists n, ChurnService.risk_distribution res !! level
                             = Some n /\ 0 <= n) ->
    exists rows' p' res',
      fold_left (ChurnService.churnStep computeFails persistFails nowOf db) l
                (rows, p, res)
      = (rows', p', res')
      /\ p' = p + countIf (churnItemOk computeFails persistFails nowOf db) l
      /\ ChurnService.churn_failed res'
         = ChurnService.churn_failed res
           + countIf (fun c => negb (churnItemOk computeFails persistFails
                                                 nowOf db c)) l
      /\ ChurnService.churn_total res' = ChurnService.churn_total res
      /\ distributionTotal (ChurnService.risk_distribution res')
         = distributionTotal (ChurnService.risk_distribution res) + (p' - p)
      /\ (forall level, In level riskLevels ->
                        exists n, ChurnService.risk_distribution res' !! level
                                  = Some n /\ 0 <= n)
      /\ (forall level, ChurnService.risk_distribution res !! level = None ->
                        ChurnService.risk_distribution res' !! level = None)
      /\ List.map ChurnService.columns rows'
         = List.map ChurnService.columns rows.
Proof.
  induction l as [|c l IH]; intros rows p res Hdom.
  - exists rows, p, res. cbn. unfold countIf, len. cbn.
    repeat split; try lia; try assumption. now intros.
  - cbn [fold_left]. unfold ChurnService.churnStep at 2.
    rewrite !countIf_cons. unfold churnItemOk at 1 3.
    destruct (churnItem_outcome rows (cust_id c)) as (Hout & Hcols & Hlevel).
    rewrite <- Hout.
    destruct (ChurnService.churnItem computeFails persistFails nowOf db rows
                (cust_id c)) as [[k|e] rows1]; cbn [fst snd isOk negb] in *.
    + destruct (alter_distribution (ChurnService.risk_distribution res)
                  (Churn.churn_risk_level k))
        as (Htot & Hdom' & Hnone); [now apply Hlevel | exact Hdom|].
      match goal with
      | |- context [fold_left _ l (rows1, p + 1, ?res1)] =>
          destruct (IH rows1 (p + 1) res1 Hdom')
            as (rows' & p' & res' & Hfold & Hp & Hf & Ht & Hd & Hdm & Hn & Hc)
      end.
      exists rows', p', res'. rewrite Hfold.
      cbn [ChurnService.risk_distribution ChurnService.churn_failed
             ChurnService.churn_total] in *.
      repeat split; try lia; try assumption; try congruence.
      intros level Hl. apply Hn. now apply Hnone.
    + destruct (IH rows1 p
                  {| ChurnService.churn_total := ChurnService.churn_total res;
                     ChurnService.churn_processed :=
                       ChurnService.churn_processed res;
                     ChurnService.churn_failed :=
                       ChurnService.churn_failed res + 1;
                     ChurnService.risk_distribution :=
                       ChurnService.risk_distribution res |} Hdom)
        as (rows' & p' & res' & Hfold & Hp & Hf & Ht & Hd & Hdm & Hn & Hc).
      exists rows', p', res'. rewrite Hfold.
      cbn [ChurnService.risk_distribution ChurnService.churn_failed
             ChurnService.churn_total] in *.
      repeat split; try lia; try assumption; try congruence.
Qed.

End ChurnBatchFacts.


(** X26.  [getHighRiskCustomers(limit)] lists only rows whose level is
    "critical" or "high"; for a [limit] that is not negative it lists
    [min(limit, number of such rows)] of them in descending order of score,
    and no such row that is left out has a higher score than a listed one.
    A negative [limit] makes the query, and so the call, fail. *)
Theorem high_risk_customers_ranked (db : Database)
  (rows : list ChurnService.AnalyticsRow) (limit : Z) :
  (0 <= limit ->
   exists top rest,
     ChurnService.getHighRiskCustomers db rows limit = Ok top
     /\ len top = Z.min limit (countIf ChurnService.isHighRisk rows)
     /\ Forall (fun h => ChurnService.churn_risk_level h = Some "critical"
                         \/ ChurnService.churn_risk_level h = Some "high")
               top
     /\ StronglySorted
          (fun a b => ChurnService.churn_risk_score b
                      <= ChurnService.churn_risk_score a) top
     /\ Permutation
          (List.map ChurnService.churn_risk_score top
           ++ List.map ChurnService.ca_churn_risk_score rest)
          (List.map ChurnService.ca_churn_risk_score
                    (List.filter ChurnService.isHighRisk rows))
     /\ forall x y, In x top -> In y rest ->
                    ChurnService.ca_churn_risk_score y
                    <= ChurnService.churn_risk_score x)
  /\ (limit < 0 ->
      ChurnService.getHighRiskCustomers db rows limit = Err Upstream).
Proof.
  split.
  - intros Hlimit. unfold ChurnService.getHighRiskCustomers.
    rewrite (proj2 (Z.ltb_ge _ _) Hlimit).
    set (before := fun a b : ChurnService.AnalyticsRow =>
                     ChurnService.ca_churn_risk_score b
                     <=? ChurnService.ca_churn_risk_score a).
    set (sorted := sortBy before (List.filter ChurnService.isHighRisk rows)).
    eexists. exists (skipn (Z.to_nat limit) sorted).
    split; [reflexivity|].
    assert (StronglySorted (fun a b => before a b = true) sorted) as Hsorted.
    { apply sortBy_sorted; unfold before.
      - intros a b H. apply Z.leb_gt in H. apply Z.leb_le. lia.
      - intros a b c Hab Hbc. apply Z.leb_le in Hab, Hbc. apply Z.leb_le.
        lia. }
    rewrite <- (firstn_skipn (Z.to_nat limit) sorted) in Hsorted.
    apply StronglySorted_app_inv in Hsorted as (Hfirst & _ & Hcross).
    split; [|split; [|split; [|split]]].
    + unfold len, countIf, len. rewrite length_map, length_firstn.
      unfold sorted. rewrite sortBy_length. lia.
    + apply List.Forall_forall. intros h Hh.
      apply in_map_iff in Hh as (r & <- & Hr). cbn.
      apply firstn_In_incl in Hr.
      apply (Permutation_in _ (sortBy_perm before _)) in Hr.
      apply List.filter_In in Hr as [_ Hr]. unfold ChurnService.isHighRisk in Hr.
      destruct (ChurnService.ca_churn_risk_level r) as [l|]; [|discriminate].
      apply orb_prop in Hr as [Hr | Hr]; apply String.eqb_eq in Hr; subst l;
        [now left | now right].
    + apply StronglySorted_map. cbn [ChurnService.churn_risk_score].
      eapply StronglySorted_weaken; [|exact Hfirst].
      intros a b Hab. unfold before in Hab. now apply Z.leb_le.
    + rewrite map_map. cbn [ChurnService.churn_risk_score].
      rewrite <- map_app, firstn_skipn.
      apply Permutation_map, sortBy_perm.
    + intros x y Hx Hy. apply in_map_iff in Hx as (r & <- & Hr).
      cbn [ChurnService.churn_risk_score].
      specialize (Hcross r y Hr Hy). unfold before in Hcross.
      now apply Z.leb_le.
  - intros Hneg. unfold ChurnService.getHighRiskCustomers.
    now rewrite (proj2 (Z.ltb_lt _ _) Hneg).
Qed.

(** ** Inventory and orders *)

Lemma find_product_replaced (id : Z) (g : Product -> Product)
  (l : list Product) :
  (forall p, prod_id (g p) = prod_id p) ->
  (forall id',
      List.find (fun p => prod_id p =? id')
                (List.map (fun p => if prod_id p =? id then g p else p) l)
      = if id' =? id
        then option_map g (List.find (fun p => prod_id p =? id') l)
        else List.find (fun p => prod_id p =? id') l).
Proof.
  intros Hg id'. induction l as [|x l IH]; cbn.
  - now destruct (id' =? id).
  - destruct (prod_id x =? id) eqn:E.
    + apply Z.eqb_eq in E. rewrite Hg, E.
      destruct (id =? id') eqn:E'.
      * apply Z.eqb_eq in E'. subst id'. now rewrite Z.eqb_refl.
      * rewrite IH. rewrite Z.eqb_sym in E'. now rewrite E'.
    + destruct (prod_id x =? id') eqn:E'.
      * apply Z.eqb_eq in E'. subst id'. now rewrite E.
      * exact IH.
Qed.

Lemma saveStock_lookup (db : Database) (productId newStock id' : Z) :
  findProductByPk (Inventory.saveStock db productId newStock) id'
  = if id' =? productId
    then option_map
           (fun p => {| prod_id := prod_id p;
                        prod_price := prod_price p;
                        prod_stock_quantity := newStock |})
           (findProductByPk db id')
    else findProductByPk db id'.
Proof.
  unfold findProductByPk, Inventory.saveStock. cbn [products].
  now apply find_product_replaced.
Qed.

(** X27.  The stock check and the stock update agree, and the update never
    leaves a negative quantity: for a catalogue product,
    [checkStockAvailability] says available exactly when
    [updateStockQuantity(.., 'subtract')] succeeds; a subtraction that
    succeeds leaves [previous - quantity >= 0] in the product's row and
    every other product as it was; one that would go below zero, an
    operation other than 'add' and 'subtract', and an unknown product are
    refused with the store unchanged. *)
Theorem stock_check_and_update_agree (db : Database)
  (productId quantity : Z) (operation : string) :
  (forall p,
      findProductByPk db productId = Some p ->
      (exists a,
          Inventory.checkStockAvailability db productId quantity = Ok a
          /\ Inventory.available_quantity a = prod_stock_quantity p
          /\ (Inventory.is_available a = true
              <-> exists u, fst (Inventory.updateStockQuantity db productId
                                   quantity "subtract") = Ok u))
      /\ (forall u db',
             Inventory.updateStockQuantity db productId quantity "subtract"
             = (Ok u, db') ->
             Inventory.previous_stock u = prod_stock_quantity p
             /\ Inventory.new_stock u = prod_stock_quantity p - quantity
             /\ 0 <= Inventory.new_stock u
             /\ (exists p', findProductByPk db' productId = Some p'
                            /\ prod_stock_quantity p' = Inventory.new_stock u
                            /\ prod_price p' = prod_price p)
             /\ forall other, other <> productId ->
                              findProductByPk db' other
                              = findProductByPk db other))
  /\ (forall e db',
         Inventory.updateStockQuantity db productId quantity operation
         = (Err e, db') ->
         db' = db)
  /\ (operation <> "add" -> operation <> "subtract" ->
      findProductByPk db productId <> None ->
      fst (Inventory.updateStockQuantity db productId quantity operation)
      = Err Invalid)
  /\ (findProductByPk db productId = None ->
      Inventory.checkStockAvailability db productId quantity = Err NotFound
      /\ fst (Inventory.updateStockQuantity db productId quantity operation)
         = Err NotFound).
Proof.
  split; [|split; [|split]].
  - intros p Hp. split.
    + unfold Inventory.checkStockAvailability, Inventory.updateStockQuantity.
      rewrite Hp. eexists. split; [reflexivity|]. split; [reflexivity|].
      cbn [Inventory.is_available String.eqb Ascii.eqb Bool.eqb].
      destruct (prod_stock_quantity p - quantity <? 0) eqn:E.
      * apply Z.ltb_lt in E. split.
        -- intros H. apply Z.leb_le in H. lia.
        -- intros [u Hu]. discriminate.
      * apply Z.ltb_ge in E. split.
        -- intros _. now eexists.
        -- intros _. apply Z.leb_le. lia.
    + intros u db'. unfold Inventory.updateStockQuantity. rewrite Hp.
      cbn [String.eqb Ascii.eqb Bool.eqb].
      destruct (prod_stock_quantity p - quantity <? 0) eqn:E; [discriminate|].
      apply Z.ltb_ge in E. intros H. injection H as <- <-.
      cbn [Inventory.previous_stock Inventory.new_stock].
      repeat split; try assumption.
      * rewrite saveStock_lookup, Z.eqb_refl, Hp. cbn. eexists.
        split; [reflexivity|]. now split.
      * intros other Hne. rewrite saveStock_lookup.
        now rewrite (proj2 (Z.eqb_neq _ _) Hne).
  - intros e db'. unfold Inventory.updateStockQuantity.
    destruct (findProductByPk db productId) as [p|]; [|now intros [= _ <-]].
    cbv beta zeta.
    destruct (String.eqb operation "add").
    { destruct (prod_stock_quantity p + quantity <? 0);
        [now intros [= _ <-] | discriminate]. }
    destruct (String.eqb operation "subtract"); [|now intros [= _ <-]].
    destruct (prod_stock_quantity p - quantity <? 0);
      [now intros [= _ <-] | discriminate].
  - intros Hadd Hsub Hp. unfold Inventory.updateStockQuantity.
    destruct (findProductByPk db productId) as [p|]; [|contradiction].
    apply String.eqb_neq in Hadd, Hsub. now rewrite Hadd, Hsub.
  - intros Hp. unfold Inventory.checkStockAvailability,
      Inventory.updateStockQuantity. rewrite Hp. now split.
Qed.

Lemma stock_check_and_update_agree_witness :
  exists a u,
    Inventory.checkStockAvailability Sample.shop 11 2 = Ok a
    /\ Inventory.is_available a = true
    /\ fst (Inventory.updateStockQuantity Sample.shop 11 2 "subtract") = Ok u
    /\ Inventory.new_stock u = 0.
Proof.
  destruct (stock_check_and_update_agree Sample.shop 11 2 "subtract")
    as (Hp & _).
  destruct (Hp (Sample.item 11 30 2) eq_refl) as ((a & Ha & _ & Hiff) & Hsub).
  assert (Inventory.is_available a = true) as Havail.
  { vm_compute in Ha. injection Ha as <-. reflexivity. }
  destruct (proj1 Hiff Havail) as [u Hu].
  exists a, u. repeat split; try assumption.
  destruct (Inventory.updateStockQuantity Sample.shop 11 2 "subtract")
    as [res db'] eqn:Hupd. cbn [fst] in Hu. subst res.
  destruct (Hsub u db' eq_refl) as (_ & Hnew & _). rewrite Hnew. reflexivity.
Defined.

Lemma find_customer_replaced (id : Z) (g : Customer -> Customer)
  (l : list Customer) (c : Customer) :
  (forall x, cust_id (g x) = cust_id x) ->
  List.find (fun x => cust_id x =? id) l = Some c ->
  List.find (fun x => cust_id x =? id)
            (List.map (fun x => if cust_id x =? id then g x else x) l)
  = Some (g c).
Proof.
  intros Hg. induction l as [|x l IH]; cbn; [discriminate|].
  destruct (cust_id x =? id) eqn:E.
  - intros [= ->]. cbn. now rewrite Hg, E.
  - intros H. cbn. rewrite E. now apply IH.
Qed.

(** X28.  [createTransaction] never oversells and refuses cleanly.  An order
    that it accepts is for an existing customer and product, with a quantity
    of at least 1 and at most the stock, a unit price of at least 0.01 and
    one of the model's payment methods; it appends one completed
    transaction of that customer, product and quantity, dated at the call
    and with a total between 0.01 and 10000; it takes the quantity off the
    product's stock, which stays non-negative, leaves every other product
    alone, and gives the customer one of the schema's loyalty tiers.  An
    order that it refuses changes nothing in the store. *)
Theorem order_outcome (db : Database)
  (now customer_id product_id quantity : Z) (payment_method : option string) :
  match Orders.createTransaction db now customer_id product_id quantity
          payment_method with
  | (Ok t, db') =>
      exists c p,
        findCustomerByPk db customer_id = Some c
        /\ findProductByPk db product_id = Some p
        /\ 1 <= quantity <= prod_stock_quantity p
        /\ ((1 # 100) <= prod_price p)%Q
        /\ (exists m, payment_method = Some m /\ In m Orders.paymentMethods)
        /\ transactions db' = transactions db ++ [t]
        /\ tx_customer_id t = customer_id
        /\ tx_product_id t = product_id
        /\ tx_quantity t = quantity
        /\ tx_status t = completed
        /\ tx_timestamp t = now
        /\ ((1 # 100) <= tx_total_amount t <= 10000)%Q
        /\ (exists p',
               findProductByPk db' product_id = Some p'
               /\ prod_stock_quantity p' = prod_stock_quantity p - quantity
               /\ 0 <= prod_stock_quantity p')
        /\ (forall other, other <> product_id ->
                          findProductByPk db' other = findProductByPk db other)
        /\ (exists c' tier,
               findCustomerByPk db' customer_id = Some c'
               /\ cust_loyalty_tier c' = Some tier
               /\ In tier schemaTiers)
        /\ customer_analytics db' = customer_analytics db
        /\ product_recommendations db' = product_recommendations db
  | (Err _, db') => db' = db
  end.
Proof.
  unfold Orders.createTransaction.
  destruct (findCustomerByPk db customer_id) as [c|] eqn:Hc; [|reflexivity].
  destruct (findProductByPk db product_id) as [p|] eqn:Hp; [|reflexivity].
  destruct (prod_stock_quantity p <? quantity) eqn:Hstock; [reflexivity|].
  apply Z.ltb_ge in Hstock. cbv zeta.
  set (total := (prod_price p * inject_Z quantity
                 + prod_price p * inject_Z quantity * (1 # 10)
                 + (if Qltb 100 (prod_price p * inject_Z quantity)
                    then 0 else 10))%Q).
  destruct (Qltb total (1 # 100) || Qltb 10000 total) eqn:Hamount;
    [reflexivity|].
  destruct ((quantity <? 1) || Qltb (prod_price p) (1 # 100)
            || negb (Orders.validPaymentMethod payment_method))
    eqn:Hvalid; [reflexivity|].
  apply orb_false_elim in Hamount as [Hlo Hhi].
  apply orb_false_elim in Hvalid as [Hvalid Hpay].
  apply orb_false_elim in Hvalid as [Hq Hprice].
  apply Z.ltb_ge in Hq. apply negb_false_iff in Hpay.
  assert (((1 # 100) <= prod_price p)%Q) as Hprice'.
  { destruct (Qlt_le_dec (prod_price p) (1 # 100)) as [H | H]; [|exact H].
    apply Qltb_lt in H. congruence. }
  assert (exists m, payment_method = Some m /\ In m Orders.paymentMethods)
    as Hmethod.
  { destruct payment_method as [m|]; [|discriminate]. exists m.
    split; [reflexivity|]. unfold Orders.validPaymentMethod in Hpay.
    apply existsb_exists in Hpay.
    destruct Hpay as (x & Hx & Heq). apply String.eqb_eq in Heq.
    now subst x. }
  assert (((1 # 100) <= total)%Q) as Hlo'.
  { destruct (Qlt_le_dec total (1 # 100)) as [H | H]; [|exact H].
    apply Qltb_lt in H. congruence. }
  assert ((total <= 10000)%Q) as Hhi'.
  { destruct (Qlt_le_dec 10000 total) as [H | H]; [|exact H].
    apply Qltb_lt in H. congruence. }
  exists c, p. split; [reflexivity|]. split; [reflexivity|].
  split; [lia|]. split; [exact Hprice'|]. split; [exact Hmethod|].
  cbn [transactions tx_customer_id tx_product_id tx_quantity
                      tx_status tx_timestamp tx_total_amount
                      customer_analytics product_recommendations].
  repeat (split; [reflexivity|]).
  split; [|split; [|split; [|split; [|split; reflexivity]]]].
  - split.
    + apply Qle_trans with (toFixed2 (1 # 100)); [discriminate|].
      now apply toFixed2_le.
    + apply Qle_trans with (toFixed2 10000); [|discriminate].
      now apply toFixed2_le.
  - unfold findProductByPk in *. cbn [products].
    rewrite (find_product_replaced product_id
               (fun x => {| prod_id := prod_id x;
                            prod_price := prod_price x;
                            prod_stock_quantity :=
                              prod_stock_quantity x - quantity |}))
      by reflexivity.
    rewrite Z.eqb_refl, Hp. cbn. eexists. split; [reflexivity|].
    cbn. split; [reflexivity | lia].
  - intros other Hne. unfold findProductByPk. cbn [products].
    rewrite (find_product_replaced product_id
               (fun x => {| prod_id := prod_id x;
                            prod_price := prod_price x;
                            prod_stock_quantity :=
                              prod_stock_quantity x - quantity |}))
      by reflexivity.
    now rewrite (proj2 (Z.eqb_neq _ _) Hne).
  - unfold findCustomerByPk in *. cbn [customers].
    rewrite (find_customer_replaced customer_id
               (fun x => {| cust_id := cust_id x;
                            cust_total_spent := (cust_total_spent c + total)%Q;
                            cust_loyalty_tier :=
                              Some (Orders.loyaltyTierFor
                                      (cust_total_spent c + total)) |})
               (customers db) c) by (reflexivity || exact Hc).
    do 2 eexists. split; [reflexivity|]. cbn. split; [reflexivity|].
    apply loyaltyTierFor_schema.
Qed.

Lemma order_outcome_witness :
  exists t db',
    Orders.createTransaction Sample.shop (110 * Sample.day) 1 11 2
      (Some "credit_card")
    = (Ok t, db')
    /\ (exists p', findProductByPk db' 11 = Some p'
                   /\ prod_stock_quantity p' = 0)
    /\ snd (Orders.createTransaction Sample.shop (110 * Sample.day) 1 11 3
              (Some "credit_card"))
       = Sample.shop
    /\ snd (Orders.createTransaction Sample.shop (110 * Sample.day) 1 11 2
              (Some "cheque"))
       = Sample.shop.
Proof.
  pose proof (order_outcome Sample.shop (110 * Sample.day) 1 11 2
                (Some "credit_card")) as Hok.
  pose proof (order_outcome Sample.shop (110 * Sample.day) 1 11 3
                (Some "credit_card")) as Hrefused.
  pose proof (order_outcome Sample.shop (110 * Sample.day) 1 11 2
                (Some "cheque")) as Hmethod.
  destruct (Orders.createTransaction Sample.shop (110 * Sample.day) 1 11 2
              (Some "credit_card"))
    as [[t|e] db'] eqn:H2; [|vm_compute in H2; discriminate].
  destruct (Orders.createTransaction Sample.shop (110 * Sample.day) 1 11 3
              (Some "credit_card"))
    as [[t3|e3] db3] eqn:H3; [vm_compute in H3; discriminate|].
  destruct (Orders.createTransaction Sample.shop (110 * Sample.day) 1 11 2
              (Some "cheque"))
    as [[t4|e4] db4] eqn:H4; [vm_compute in H4; discriminate|].
  exists t, db'. split; [reflexivity|].
  split; [|split; [exact Hrefused | exact Hmethod]].
  destruct Hok as (c & p & _ & Hp & _ & _ & _ & _ & _ & _ & _ & _ & _ & _
                   & (p' & Hp' & Hstock & _) & _).
  exists p'. split; [exact Hp'|]. rewrite Hstock.
  vm_compute in Hp. injection Hp as <-. reflexivity.
Defined.

Lemma fold_max_bounds (l : list Z) (a : Z) :
  a <= fold_left Z.max l a
  /\ forall x, In x l -> x <= fold_left Z.max l a.
Proof.
  revert a. induction l as [|y l IH]; intros a; cbn.
  - split; [lia | intros x []].
  - destruct (IH (Z.max a y)) as [Ha Hl]. split; [lia|].
    intros x [<- | Hx]; [lia | now apply Hl].
Qed.

Lemma nextTransactionId_fresh (db : Database) (x : Transaction) :
  In x (transactions db) -> tx_id x < Orders.nextTransactionId db.
Proof.
  intros Hx. unfold Orders.nextTransactionId.
  pose proof (proj2 (fold_max_bounds (List.map tx_id (transactions db)) 0)
                (tx_id x) (in_map tx_id _ _ Hx)).
  lia.
Qed.

Lemma find_app_none {A : Type} (f : A -> bool) (l l' : list A) :
  (forall x, In x l -> f x = false) ->
  List.find f (l ++ l') = List.find f l'.
Proof.
  induction l as [|y l IH]; cbn; intros H; [reflexivity|].
  rewrite (H y) by now left. apply IH. intros x Hx. apply H. now right.
Qed.

Lemma map_untouched {A : Type} (f : A -> bool) (g : A -> A) (l : list A) :
  (forall x, In x l -> f x = false) ->
  List.map (fun x => if f x then g x else x) l = l.
Proof.
  induction l as [|y l IH]; cbn; intros H; [reflexivity|].
  rewrite (H y) by now left. f_equal. apply IH. intros x Hx. apply H.
  now right.
Qed.

(** X29.  A refund is a change of status and nothing more.  When an accepted
    order is refunded through [updateTransactionStatus], the call reports the
    old status [completed], the ledger keeps the entry with the status
    [refunded], and every customer's completed purchases are again those
    from before the order; the products and the customers stay as the order
    left them, so the units are not put back into stock and the amount stays
    in the customer's running total and loyalty tier. *)
Theorem refund_after_order (db : Database)
  (now customer_id product_id quantity : Z) (payment_method : option string)
  (t : Transaction) (db' : Database) :
  Orders.createTransaction db now customer_id product_id quantity
    payment_method
  = (Ok t, db') ->
  exists db'',
    Orders.updateTransactionStatus db' (tx_id t) refunded
    = (Ok completed, db'')
    /\ transactions db'' = transactions db ++ [withStatus t refunded]
    /\ (forall c, completedTransactions db'' c = completedTransactions db c)
    /\ products db'' = products db'
    /\ customers db'' = customers db'
    /\ customer_analytics db'' = customer_analytics db
    /\ product_recommendations db'' = product_recommendations db.
Proof.
  unfold Orders.createTransaction.
  destruct (findCustomerByPk db customer_id) as [c|]; [|discriminate].
  destruct (findProductByPk db product_id) as [p|]; [|discriminate].
  destruct (prod_stock_quantity p <? quantity); [discriminate|].
  cbv zeta.
  destruct (Qltb _ (1 # 100) || Qltb 10000 _); [discriminate|].
  destruct ((quantity <? 1) || _ || _); [discriminate|].
  intros [= <- <-].
  assert (forall x, In x (transactions db) ->
                    (tx_id x =? Orders.nextTransactionId db) = false) as Hold.
  { intros x Hx. apply Z.eqb_neq.
    pose proof (nextTransactionId_fresh db x Hx). lia. }
  unfold Orders.updateTransactionStatus.
  cbn [transactions tx_id customers products customer_analytics
       product_recommendations].
  rewrite (find_app_none _ _ _ Hold). cbn [List.find tx_id].
  rewrite Z.eqb_refl. eexists. split; [reflexivity|].
  cbn [transactions tx_id customers products customer_analytics
       product_recommendations tx_status].
  rewrite List.map_app,
    (map_untouched (fun x => tx_id x =? Orders.nextTransactionId db) _ _ Hold).
  cbn [List.map tx_id]. rewrite Z.eqb_refl.
  split; [reflexivity|]. split; [|repeat split; reflexivity].
  intros c'. unfold completedTransactions. cbn [transactions].
  rewrite List.filter_app. cbn [List.filter tx_status isCompleted].
  rewrite andb_false_r. apply app_nil_r.
Qed.

Lemma refund_after_order_witness :
  exists t db' db'',
    Orders.createTransaction Sample.shop (110 * Sample.day) 1 11 2
      (Some "paypal")
    = (Ok t, db')
    /\ Orders.updateTransactionStatus db' (tx_id t) refunded
       = (Ok completed, db'')
    /\ completedTransactions db'' 1 = completedTransactions Sample.shop 1
    /\ products db'' = products db'.
Proof.
  destruct (Orders.createTransaction Sample.shop (110 * Sample.day) 1 11 2
              (Some "paypal"))
    as [[t|e] db'] eqn:H; [|vm_compute in H; discriminate].
  destruct (refund_after_order _ _ _ _ _ _ _ _ H)
    as (db'' & Hrefund & _ & Hcompleted & Hproducts & _).
  exists t, db', db''. split; [reflexivity|]. split; [exact Hrefund|].
  split; [apply Hcompleted | exact Hproducts].
Defined.

(** ** The value prediction of a customer who has bought *)

Lemma decliningPenalty_cases (txs : list Transaction) :
  CLV.decliningPenalty txs = (2 # 10)%Q \/ CLV.decliningPenalty txs = 0%Q.
Proof.
  unfold CLV.decliningPenalty.
  destruct (len txs >=? 3); [|now right].
  destruct (len (CLV.allButLastThree txs) >? 0); [|now right].
  destruct (Qltb _ _); [now left | now right].
Qed.

Lemma confidence_at_least_35 (orders : Z) (months : Q) (days : Z) :
  35 <= CLV.calculateCLVConfidence orders months days <= 100.
Proof.
  unfold CLV.calculateCLVConfidence.
  destruct (orders >=? 10), (orders >=? 5), (orders >=? 3),
    (Qle_bool 12 months), (Qle_bool 6 months), (Qle_bool 3 months),
    (days <=? 30), (days <=? 60), (days >? 180); lia.
Qed.

Lemma sumQ_nonneg (l : list Transaction) :
  Forall (fun t => (0 <= tx_total_amount t)%Q) l -> (0 <= sumQ l)%Q.
Proof.
  induction 1 as [|t l Ht _ IH]; cbn; [discriminate|].
  change 0%Q with (0 + 0)%Q. now apply Qplus_le_compat.
Qed.

Lemma Qdiv_nonneg (a b : Q) : (0 <= a)%Q -> (0 <= b)%Q -> (0 <= a / b)%Q.
Proof.
  intros Ha Hb. unfold Qdiv. apply Qmult_le_0_compat; [exact Ha|].
  now apply Qinv_le_0_compat.
Qed.

(** X30.  The value prediction of a customer with at least one completed
    purchase: the reported multiplier lies between 0.80 and 1.55, so the
    limits 0.5 and 2.0 that [calculateCustomerCLV] applies to it are never
    reached; the confidence lies between 35 and 100; and when no amount in
    the ledger is negative the predicted value is not negative either. *)
Theorem clv_of_a_buyer (db : Database) (now customerId : Z)
  (p : CLV.Prediction) :
  CLV.calculateCustomerCLV db now customerId = Ok p ->
  completedTransactions db customerId <> [] ->
  (exists m, CLV.clv_multiplier p = Some m
             /\ ((8 # 10) <= m <= (155 # 100))%Q)
  /\ 35 <= CLV.clv_confidence p <= 100
  /\ (Forall (fun t => (0 <= tx_total_amount t)%Q) (transactions db) ->
      (0 <= CLV.clv_predicted p)%Q).
Proof.
  unfold CLV.calculateCustomerCLV.
  destruct (findCustomerByPk db customerId); [|discriminate].
  destruct (completedTransactionsAsc db customerId) as [|tFirst rest] eqn:Htxs.
  { intros _ Hbought. exfalso. apply Hbought.
    now apply (sortBy_nil_inv _ _ Htxs). }
  cbv zeta. intros [= <-] _.
  cbn [CLV.clv_multiplier CLV.clv_confidence CLV.clv_predicted].
  split; [|split].
  - eexists. split; [reflexivity|].
    destruct (decliningPenalty_cases (tFirst :: rest)) as [-> | ->];
      destruct (_ <=? 30); try destruct (_ <=? 60);
      destruct (Qle_bool 2 _); try destruct (Qle_bool 1 _);
      vm_compute; split; discriminate.
  - apply confidence_at_least_35.
  - intros Hpos.
    apply Qle_trans with (toFixed2 0); [discriminate|].
    apply toFixed2_le.
    assert (Forall (fun t => (0 <= tx_total_amount t)%Q) (tFirst :: rest))
      as Htx.
    { apply List.Forall_forall. intros t Ht.
      rewrite List.Forall_forall in Hpos. apply Hpos.
      rewrite <- Htxs in Ht. unfold completedTransactionsAsc in Ht.
      eapply Permutation_in in Ht; [|apply sortBy_perm].
      unfold completedTransactions in Ht.
      now apply List.filter_In in Ht as [Ht _]. }
    apply Qmult_le_0_compat.
    + apply Qmult_le_0_compat; [|discriminate].
      apply Qmult_le_0_compat.
      * apply Qdiv_nonneg.
        -- rewrite sumAmounts_sumQ. now apply sumQ_nonneg.
        -- change 0%Q with (inject_Z 0). rewrite <- Zle_Qle.
           apply len_nonneg.
      * apply Qdiv_nonneg.
        -- change 0%Q with (inject_Z 0). rewrite <- Zle_Qle.
           apply len_nonneg.
        -- apply Qle_trans with 1%Q; [discriminate | apply maxQ_ge_l].
    + apply Qle_trans with (1 # 2)%Q; [discriminate | apply maxQ_ge_l].
Qed.

Lemma clv_of_a_buyer_witness :
  exists p,
    CLV.calculateCustomerCLV Sample.shop (110 * Sample.day) 2 = Ok p
    /\ 35 <= CLV.clv_confidence p <= 100
    /\ (0 <= CLV.clv_predicted p)%Q.
Proof.
  destruct (CLV.calculateCustomerCLV Sample.shop (110 * Sample.day) 2)
    as [p|e] eqn:H; [|vm_compute in H; discriminate].
  destruct (clv_of_a_buyer _ _ _ _ H) as (_ & Hconfidence & Hvalue).
  { vm_compute. discriminate. }
  exists p. split; [reflexivity|]. split; [exact Hconfidence|].
  apply Hvalue. vm_compute. repeat constructor; discriminate.
Defined.
